(** * Hearth recipe scraper: extraction helpers and scraping-job controller

    A shallow embedding of the parts of
      - [SimpleScrapingService]   (lightweight fetch tier),
      - [RecipeScrapingService]   (rendered tier),
      - [scrapingController]      (job orchestration over the store)
    that the specification speaks about, and of the code around them
    (the pattern matching of both tiers, the heuristic and the
    site-specific layers, the chain of layers, the status and history
    handlers and the completion callbacks), together with the
    properties checked against them.

    Conventions.
      - A JavaScript string is a [string] whose characters are its
        UTF-16 code units: the embedding speaks about the strings whose
        code units are below 256, that is ASCII and Latin-1 text (an
        accented letter or a no-break space is one character).  On
        these [String.length] is [.length], and the character classes,
        [trim] and the case mappings below are JavaScript's.
      - A JavaScript number that is always an integer in the code (counts,
        minutes, step numbers) is a [Z]; ingredient amounts, which are
        quotients, are a [jsnumber]: a binary64 value, finite (kept as
        the rational it is equal to), [Infinity] or [NaN], with
        operations that round to the nearest value as JavaScript's do.
      - [undefined] is [None].
      - A cheerio selection is the list of the texts of the selected
        elements, in document order.
      - The persistence store is a record of tables; a handler maps a
        request and a store to a response, the new store and the
        extractions it launched. *)

From Stdlib Require Import Bool Arith ZArith QArith List Sorted Permutation Ascii String DecimalString Lia.
From Stdlib Require Qcanon.
Import ListNotations.

Set Warnings "-register-all".

Local Open Scope string_scope.
Local Open Scope list_scope.

(* ================================================================== *)
(** ** JavaScript strings *)

Module JsString.

Definition code (c : ascii) : nat := nat_of_ascii c.

Definition in_range (lo hi : nat) (c : ascii) : bool :=
  (lo <=? code c)%nat && (code c <=? hi)%nat.

Definition is_digit (c : ascii) : bool := in_range 48 57 c.
Definition is_upper (c : ascii) : bool := in_range 65 90 c.
Definition is_lower (c : ascii) : bool := in_range 97 122 c.
Definition is_alpha (c : ascii) : bool := is_upper c || is_lower c.

(** [\w] *)
Definition is_word (c : ascii) : bool :=
  is_alpha c || is_digit c || (code c =? 95)%nat.

(** [\s], and what [trim] strips: tab, line feed, vertical tab, form
    feed, carriage return, space and the no-break space (U+00A0); the
    other white space of JavaScript is above U+00FF. *)
Definition is_space (c : ascii) : bool :=
  in_range 9 13 c || (code c =? 32)%nat || (code c =? 160)%nat.

(** Line terminators, which [.] does not match: line feed and carriage
    return; the other two of JavaScript (U+2028, U+2029) are above
    U+00FF. *)
Definition is_line_terminator (c : ascii) : bool :=
  (code c =? 10)%nat || (code c =? 13)%nat.

(** Letters with a lower case: [A-Z] and the Latin-1 capitals U+00C0 to
    U+00DE but the multiplication sign U+00D7. *)
Definition has_lower (c : ascii) : bool :=
  is_upper c || in_range 192 214 c || in_range 216 222 c.

(** Letters whose upper case is one code unit below 256: [a-z] and the
    Latin-1 small letters U+00E0 to U+00FE but the division sign
    U+00F7.  (The upper case of U+00FF and of the micro sign is above
    U+00FF, that of the sharp s is two letters: the canonicalisation of
    the [i] flag leaves the three as they are or apart from every
    other character below 256.) *)
Definition has_upper (c : ascii) : bool :=
  is_lower c || in_range 224 246 c || in_range 248 254 c.

(** [toLowerCase] on one code unit. *)
Definition lower_char (c : ascii) : ascii :=
  if has_lower c then ascii_of_nat (code c + 32) else c.

(** The canonical form of a code unit under the [i] flag. *)
Definition upper_char (c : ascii) : ascii :=
  if has_upper c then ascii_of_nat (code c - 32) else c.

Fixpoint toLowerCase (s : string) : string :=
  match s with
  | EmptyString => EmptyString
  | String c s' => String (lower_char c) (toLowerCase s')
  end.

Fixpoint startsWith (s p : string) : bool :=
  match p, s with
  | EmptyString, _ => true
  | String _ _, EmptyString => false
  | String a p', String b s' => Ascii.eqb a b && startsWith s' p'
  end.

(** [s.includes(t)] *)
Fixpoint includes (s t : string) : bool :=
  startsWith s t ||
  match s with
  | EmptyString => false
  | String _ s' => includes s' t
  end.

Fixpoint trimStart (s : string) : string :=
  match s with
  | EmptyString => EmptyString
  | String c s' => if is_space c then trimStart s' else s
  end.

Fixpoint trimEnd (s : string) : string :=
  match s with
  | EmptyString => EmptyString
  | String c s' =>
      match trimEnd s' with
      | EmptyString => if is_space c then EmptyString else String c EmptyString
      | t => String c t
      end
  end.

Definition trim (s : string) : string := trimEnd (trimStart s).

(** Truthiness of a string: only the empty string is falsy. *)
Definition truthy (s : string) : bool :=
  match s with EmptyString => false | _ => true end.

(** Truthiness of an optional string ([undefined] is falsy). *)
Definition truthy_opt (o : option string) : bool :=
  match o with Some s => truthy s | None => false end.

(** [a || b] on strings. *)
Definition or_else (a b : string) : string := if truthy a then a else b.

(** Value of a run of decimal digits, most significant first. *)
Fixpoint digits_value_from (acc : Z) (s : string) : Z :=
  match s with
  | EmptyString => acc
  | String c s' =>
      if is_digit c
      then digits_value_from (10 * acc + Z.of_nat (code c - 48)) s'
      else acc
  end.

Fixpoint leading_digits (s : string) : string :=
  match s with
  | EmptyString => EmptyString
  | String c s' => if is_digit c then String c (leading_digits s') else EmptyString
  end.

Definition all_digits (s : string) : bool :=
  truthy s && String.eqb (leading_digits s) s.

(** [parseInt(s)] for a string that starts with its digits; [None] is
    [NaN] (no leading digit). *)
Definition parseInt (s : string) : option Z :=
  match leading_digits s with
  | EmptyString => None
  | _ => Some (digits_value_from 0 s)
  end.

End JsString.

Import JsString.

(* ================================================================== *)
(** ** Regular expressions

    A backtracking matcher with the priorities of JavaScript's: greedy
    quantifiers, left alternative first, leftmost start position.  The
    constructors are those the patterns of the two services use. *)

Module Regex.

Inductive regex : Type :=
| Eps                                            (* empty pattern *)
| Lit (c : ascii)                                (* a literal character *)
| Class (p : ascii -> bool)                      (* \d, \s, ., [...] *)
| Seq (r1 r2 : regex)
| Alt (r1 r2 : regex)                            (* r1|r2 *)
| Repeat (r : regex) (lo : nat) (hi : option nat)  (* greedy r{lo,hi} *)
| Group (n : nat) (r : regex)                    (* n-th capturing group *)
| Bol                                            (* ^ *)
| Eol                                            (* $ *)
| WordB.                                         (* \b *)

Definition Star (r : regex) : regex := Repeat r 0 None.
Definition Plus (r : regex) : regex := Repeat r 1 None.
Definition Opt  (r : regex) : regex := Repeat r 0 (Some 1%nat).

Fixpoint Str (s : string) : regex :=
  match s with
  | EmptyString => Eps
  | String c EmptyString => Lit c
  | String c s' => Seq (Lit c) (Str s')
  end.

Fixpoint Cat (rs : list regex) : regex :=
  match rs with
  | [] => Eps
  | [r] => r
  | r :: rs' => Seq r (Cat rs')
  end.

Definition digit : regex := Class is_digit.                       (* \d *)
Definition space : regex := Class is_space.                       (* \s *)
Definition any   : regex := Class (fun c => negb (is_line_terminator c)). (* . *)
Definition letter : regex := Class is_alpha.                      (* [a-zA-Z] *)
Definition none_of (s : string) : regex :=                        (* [^...] *)
  Class (fun c => negb (includes s (String c EmptyString))).

(** Matcher state: the character before the current position (none at
    the start of the input), the input still to read, and the captures
    made so far, most recent first. *)
Record mstate : Type := MState {
  prev : option ascii;
  rest : string;
  caps : list (nat * string)
}.

Definition advance (c : ascii) (t : string) (s : mstate) : mstate :=
  {| prev := Some c; rest := t; caps := caps s |}.

(** Text read between state [s] and the later state [s']. *)
Definition consumed (s s' : mstate) : string :=
  substring 0 (String.length (rest s) - String.length (rest s')) (rest s).

Definition set_cap (n : nat) (txt : string) (s : mstate) : mstate :=
  {| prev := prev s; rest := rest s; caps := (n, txt) :: caps s |}.

Definition char_eq (icase : bool) (a b : ascii) : bool :=
  if icase then Ascii.eqb (upper_char a) (upper_char b) else Ascii.eqb a b.

Definition word_before (s : mstate) : bool :=
  match prev s with Some c => is_word c | None => false end.

Definition word_after (s : mstate) : bool :=
  match rest s with String c _ => is_word c | EmptyString => false end.

Definition first_some {A} (a b : option A) : option A :=
  match a with Some _ => a | None => b end.

(** The loop of a greedy quantifier [r{lo,hi}] whose body is matched by
    [body]: one more round of the body first, and only when that fails
    (and [lo] rounds are done) the continuation [k].  A round beyond the
    first [lo] that reads nothing is refused.  [fuel] bounds the number
    of rounds; [lo] plus the length of the input is always enough. *)
Fixpoint repeat_loop (body : (mstate -> option mstate) -> mstate -> option mstate)
         (k : mstate -> option mstate)
         (fuel lo : nat) (hi : option nat) (s : mstate) : option mstate :=
  match fuel with
  | O => None
  | S fuel' =>
      match hi with
      | Some O => k s
      | _ =>
          first_some
            (body (fun s' =>
                     if (lo =? 0)%nat
                        && (String.length (rest s') =? String.length (rest s))%nat
                     then None
                     else repeat_loop body k fuel' (Nat.pred lo) (option_map Nat.pred hi) s')
                  s)
            (if (lo =? 0)%nat then k s else None)
      end
  end.

(** [run icase r k s]: match [r] at [s], then continue with [k]; the
    first success in priority order is the result.  [icase] is the [i]
    flag; the classes used under it (digits, spaces, [.]) do not depend
    on case.  No pattern here has a group inside a quantifier that can
    run twice, so captures are never reset. *)
Fixpoint run (icase : bool) (r : regex)
         (k : mstate -> option mstate) (s : mstate) : option mstate :=
  match r with
  | Eps => k s
  | Lit c =>
      match rest s with
      | String d t => if char_eq icase c d then k (advance d t s) else None
      | EmptyString => None
      end
  | Class p =>
      match rest s with
      | String d t => if p d then k (advance d t s) else None
      | EmptyString => None
      end
  | Seq r1 r2 => run icase r1 (run icase r2 k) s
  | Alt r1 r2 => first_some (run icase r1 k s) (run icase r2 k s)
  | Repeat r' lo hi =>
      repeat_loop (run icase r') k (S (lo + String.length (rest s))) lo hi s
  | Group n r' => run icase r' (fun s' => k (set_cap n (consumed s s') s')) s
  | Bol => match prev s with None => k s | Some _ => None end
  | Eol => match rest s with EmptyString => k s | String _ _ => None end
  | WordB => if xorb (word_before s) (word_after s) then k s else None
  end.

(** The result of [RegExp.prototype.exec]: where the match starts, the
    matched text and the captures. *)
Record result : Type := Result {
  index : nat;
  matched : string;
  groups : list (nat * string)
}.

Definition match_at (icase : bool) (r : regex) (p : option ascii)
           (s : string) (i : nat) : option result :=
  let s0 := {| prev := p; rest := s; caps := [] |} in
  match run icase r Some s0 with
  | Some s1 => Some {| index := i; matched := consumed s0 s1; groups := caps s1 |}
  | None => None
  end.

Fixpoint search (icase : bool) (r : regex) (p : option ascii)
         (s : string) (i : nat) : option result :=
  match match_at icase r p s i with
  | Some m => Some m
  | None =>
      match s with
      | EmptyString => None
      | String c s' => search icase r (Some c) s' (S i)
      end
  end.

(** [s.match(/r/)] and [s.match(/r/i)] (no [g] flag). *)
Definition exec (r : regex) (s : string) : option result := search false r None s 0.
Definition exec_i (r : regex) (s : string) : option result := search true r None s 0.

(** [/r/.test(s)] and [/r/i.test(s)]. *)
Definition test (r : regex) (s : string) : bool :=
  match exec r s with Some _ => true | None => false end.
Definition test_i (r : regex) (s : string) : bool :=
  match exec_i r s with Some _ => true | None => false end.

(** [m[n]]: the text of the n-th group, [None] when the group took no
    part in the match. *)
Fixpoint lookup (n : nat) (g : list (nat * string)) : option string :=
  match g with
  | [] => None
  | (m, t) :: g' => if (m =? n)%nat then Some t else lookup n g'
  end.

Definition group (n : nat) (m : result) : option string := lookup n (groups m).

End Regex.

Import Regex.

(* ================================================================== *)
(** ** Numbers that need not be integers *)

Module JsNumber.

(** Ingredient amounts are quotients of parsed decimals: binary64
    values, none of them negative.  A finite value is kept as the
    reduced rational it is equal to. *)
Inductive jsnumber : Type :=
| Num (q : Q)
| Infinity
| NaN.

(** The number [z], for an integer that binary64 holds exactly (below
    [2 ^ 53]). *)
Definition of_Z (z : Z) : jsnumber := Num (inject_Z z).

Definition is_zero (q : Q) : bool := (Qnum q =? 0)%Z.

(** The integer nearest to [n / d], [d] positive; of two that are as
    near, the even one. *)
Definition nearest (n d : Z) : Z :=
  let q := (n / d)%Z in
  let r := (n mod d)%Z in
  if (2 * r <? d)%Z then q
  else if (d <? 2 * r)%Z then (q + 1)%Z
  else if Z.even q then q else (q + 1)%Z.

(** The [e] with [2 ^ e <= n / d < 2 ^ (e + 1)], [n] and [d] positive. *)
Definition exponent (n d : Z) : Z :=
  let e := (Z.log2 n - Z.log2 d)%Z in
  if (if (0 <=? e)%Z then (d * 2 ^ e <=? n)%Z else (d <=? n * 2 ^ (- e))%Z)
  then e else (e - 1)%Z.

(** [m * 2 ^ e] *)
Definition scale (m e : Z) : Q :=
  if (0 <=? e)%Z then inject_Z (m * 2 ^ e) else Qred (m # Z.to_pos (2 ^ (- e))).

(** The binary64 value nearest to a rational that is not negative:
    53 bits are kept; the exponent goes from -1022 (smaller values
    keep the spacing [2 ^ -1074]) to 1023 (beyond, [Infinity]). *)
Definition round64 (q : Q) : jsnumber :=
  let n := Qnum q in
  let d := Zpos (Qden q) in
  if (n <=? 0)%Z then Num 0
  else
    let e := Z.max (exponent n d) (-1022) in
    let m := if (e <=? 52)%Z then nearest (n * 2 ^ (52 - e)) d
             else nearest n (d * 2 ^ (e - 52)) in
    if (1023 <? e)%Z || ((e =? 1023)%Z && (2 ^ 53 <=? m)%Z) then Infinity
    else Num (scale m (e - 52)).

(** [a / b] on operands that are not negative: the binary64 value
    nearest to the quotient. *)
Definition div (a b : jsnumber) : jsnumber :=
  match a, b with
  | NaN, _ | _, NaN => NaN
  | Infinity, Infinity => NaN
  | Infinity, Num _ => Infinity
  | Num _, Infinity => Num 0
  | Num x, Num y =>
      if is_zero y then (if is_zero x then NaN else Infinity)
      else round64 (Qred (x / y))
  end.

(** Truthiness: [0] and [NaN] are falsy. *)
Definition truthy (a : jsnumber) : bool :=
  match a with
  | Num q => negb (is_zero q)
  | Infinity => true
  | NaN => false
  end.

(** [a || 1] *)
Definition or_one (a : jsnumber) : jsnumber := if truthy a then a else of_Z 1.

(** [parseFloat(s)] for a string of digits and dots: the binary64
    value nearest to the decimal that the longest prefix [digits],
    [digits.digits], [digits.] or [.digits] writes. *)
Definition parseFloat (s : string) : jsnumber :=
  let ip := leading_digits s in
  let after := substring (String.length ip) (String.length s - String.length ip) s in
  let fp := match after with
            | String "." t => leading_digits t
            | _ => EmptyString
            end in
  match ip, fp with
  | EmptyString, EmptyString => NaN
  | _, _ =>
      round64 (Qred (inject_Z (digits_value_from 0 ip)
                     + inject_Z (digits_value_from 0 fp)
                       / inject_Z (10 ^ Z.of_nat (String.length fp))))
  end.

End JsNumber.

Import JsNumber.

(* ================================================================== *)
(** ** Extraction candidates *)

Record Ingredient : Type := mkIngredient {
  name : string;
  amount : jsnumber;
  unit : option string;
  original : option string
}.

Record Instruction : Type := mkInstruction {
  number : Z;
  step : string
}.

(** [SimpleScrapingResult] and [ScrapingResult].  The list-valued
    classification fields (cuisines, diets, tags) and nutrition play no
    part in what follows and are left out. *)
Record ScrapingResult : Type := mkScrapingResult {
  title : option string;
  image : option string;
  summary : option string;
  sourceUrl : string;
  sourceName : option string;
  readyInMinutes : option Z;
  servings : option Z;
  ingredients : list Ingredient;
  instructions : list Instruction
}.

(** [CreateRecipeData], what a tier hands to the persistence layer. *)
Record CreateRecipeData : Type := mkCreateRecipeData {
  r_title : string;
  r_image : option string;
  r_summary : option string;
  r_sourceUrl : string;
  r_sourceName : string;
  r_readyInMinutes : option Z;
  r_servings : option Z;
  r_ingredients : list Ingredient;
  r_instructions : list Instruction
}.

(** [sel.each((i, el) => ...)]: run [f] on every element with its index
    in the selection, collecting what each call pushes. *)
Fixpoint each_from {A : Type} (i : nat) (f : nat -> string -> list A)
         (els : list string) : list A :=
  match els with
  | [] => []
  | el :: els' => f i el ++ each_from (S i) f els'
  end.

Definition each {A : Type} (f : nat -> string -> list A) (els : list string) : list A :=
  each_from 0 f els.

(** [arr.map((x, index) => ...)] *)
Fixpoint mapi_from {A B : Type} (i : nat) (f : A -> nat -> B) (l : list A) : list B :=
  match l with
  | [] => []
  | x :: l' => f x i :: mapi_from (S i) f l'
  end.

Definition mapi {A B : Type} (f : A -> nat -> B) (l : list A) : list B :=
  mapi_from 0 f l.

(** [for (const selector of selectors) { collect; if (acc.length > 0) break; }] *)
Fixpoint selector_loop {A : Type} (collect : string -> list A)
         (selectors : list string) (acc : list A) : list A :=
  match selectors with
  | [] => acc
  | sel :: selectors' =>
      let acc' := acc ++ collect sel in
      if (0 <? List.length acc')%nat then acc' else selector_loop collect selectors' acc'
  end.

(** The step numbers of a candidate, in order. *)
Definition numbers (l : list Instruction) : list Z := map number l.

(** The numbers 1, 2, ..., m. *)
Definition one_to (m : nat) : list Z := map (fun i => Z.of_nat i + 1)%Z (seq 0 m).

(** Steps are numbered 1..M in order, M being their count. *)
Definition sequential (l : list Instruction) : Prop :=
  numbers l = one_to (List.length l).

(* ================================================================== *)
(** ** Field normalisation

    [parseIngredient], [parseFraction], [parseTime], [parseTimeFromText]
    and [parseServingsFromText] are written twice in the source, with the
    same text, in [SimpleScrapingService] and [RecipeScrapingService];
    they are embedded once. *)

Module Normalizer.

(** [/^(\d+(?:\/\d+)?(?:\.\d+)?)\s*([a-zA-Z]+)?\s+(.+)$/] *)
Definition ingredient_re : regex :=
  Cat [ Bol;
        Group 1 (Cat [ Plus digit;
                       Opt (Seq (Lit "/") (Plus digit));
                       Opt (Seq (Lit ".") (Plus digit)) ]);
        Star space;
        Opt (Group 2 (Plus letter));
        Plus space;
        Group 3 (Plus any);
        Eol ].

(** [str.split('/')], as the pair of the text before the first slash
    and the text between it and the next one (all of the rest when
    there is no other), which is what [[num, den] = ...] binds;
    [None] for [den] when [str] has no slash. *)
Fixpoint until_slash (s : string) : string * option string :=
  match s with
  | EmptyString => (EmptyString, None)
  | String c s' =>
      if Ascii.eqb c "/" then (EmptyString, Some s')
      else let (a, b) := until_slash s' in (String c a, b)
  end.

Definition split_slash (s : string) : string * option string :=
  match until_slash s with
  | (num, Some tl) => (num, Some (fst (until_slash tl)))
  | (num, None) => (num, None)
  end.

Definition parseFraction (str : string) : jsnumber :=
  if includes str "/" then
    match split_slash str with
    | (num, Some den) => div (parseFloat num) (parseFloat den)
    | (num, None) => NaN        (* no slash: not reached *)
    end
  else or_one (parseFloat str).

(** What [parseIngredient] returns: a name, an amount and maybe a unit. *)
Record ParsedIngredient : Type := mkParsed {
  p_name : string;
  p_amount : jsnumber;
  p_unit : option string
}.

(** [m[n]] for a group that is part of every match. *)
Definition group_text (n : nat) (m : result) : string :=
  match group n m with Some g => g | None => "" end.

Definition parseIngredient (text : string) : ParsedIngredient :=
  match exec ingredient_re text with
  | Some m =>
      {| p_name := trim (group_text 3 m);
         p_amount := parseFraction (group_text 1 m);
         p_unit := group 2 m |}
  | None => {| p_name := text; p_amount := of_Z 1; p_unit := None |}
  end.

(** The record a strategy pushes for an ingredient line. *)
Definition ingredient_of (text : string) : Ingredient :=
  let parsed := parseIngredient text in
  {| name := or_else (p_name parsed) text;
     amount := or_one (p_amount parsed);
     unit := p_unit parsed;
     original := Some text |}.

(** [/PT(?:(\d+)H)?(?:(\d+)M)?/] *)
Definition iso_duration_re : regex :=
  Cat [ Str "PT";
        Opt (Seq (Group 1 (Plus digit)) (Lit "H"));
        Opt (Seq (Group 2 (Plus digit)) (Lit "M")) ].

(** [/(\d+)\s*h(?:our|r)?/i] *)
Definition hour_re : regex :=
  Cat [ Group 1 (Plus digit); Star space; Lit "h"; Opt (Alt (Str "our") (Str "r")) ].

(** [/(\d+)\s*m(?:in|inute)?/i] *)
Definition minute_re : regex :=
  Cat [ Group 1 (Plus digit); Star space; Lit "m"; Opt (Alt (Str "in") (Str "inute")) ].

(** [parseInt(s)] for a captured run of digits. *)
Definition int_of (s : string) : Z :=
  match parseInt s with Some z => z | None => 0%Z end.

(** [parseInt(m[n])] for a group that is part of every match. *)
Definition int_group (n : nat) (m : result) : Z := int_of (group_text n m).

(** [parseInt(m[n] || '0')] *)
Definition int_group_or_zero (n : nat) (m : result) : Z :=
  match group n m with
  | Some g => int_of (or_else g "0")
  | None => int_of "0"
  end.

Definition parseTimeFromText (text : string) : option Z :=
  if negb (JsString.truthy text) then None
  else
    let hourMatch := exec_i hour_re text in
    let minuteMatch := exec_i minute_re text in
    let minutes := 0%Z in
    let minutes := match hourMatch with
                   | Some m => (minutes + int_group 1 m * 60)%Z
                   | None => minutes
                   end in
    let minutes := match minuteMatch with
                   | Some m => (minutes + int_group 1 m)%Z
                   | None => minutes
                   end in
    if (minutes =? 0)%Z then None else Some minutes.

Definition parseTime (timeString : option string) : option Z :=
  match timeString with
  | None => None
  | Some ts =>
      if negb (JsString.truthy ts) then None
      else
        if startsWith ts "PT" then
          match exec iso_duration_re ts with
          | Some m =>
              let hours := int_group_or_zero 1 m in
              let minutes := int_group_or_zero 2 m in
              Some (hours * 60 + minutes)%Z
          | None => parseTimeFromText ts
          end
        else parseTimeFromText ts
  end.

(** [/(\d+)/] *)
Definition first_int_re : regex := Group 1 (Plus digit).

Definition parseServingsFromText (text : string) : option Z :=
  if negb (JsString.truthy text) then None
  else match exec first_int_re text with
       | Some m => Some (int_group 1 m)
       | None => None
       end.

(** [extractImageUrl] on a string or [undefined]. *)
Definition extractImageUrl (image : option string) : option string :=
  match image with
  | Some s => if JsString.truthy s then Some s else None
  | None => None
  end.

End Normalizer.

Import Normalizer.

(* ================================================================== *)
(** ** The lightweight tier: [SimpleScrapingService] *)

Module SimpleScrapingService.

Definition errorIndicators : list string :=
  [ "page not found"; "404"; "error"; "not available"; "access denied";
    "blocked"; "redirected"; "please enable javascript"; "robot or human" ].

Definition isErrorPage (html : string) : bool :=
  let lowerHtml := toLowerCase html in
  existsb (fun indicator => includes lowerHtml indicator) errorIndicators
  && negb (includes lowerHtml "recipe")
  && negb (includes lowerHtml "ingredients").

(** *** Content classifier *)

Definition navWords : list string :=
  [ "log in"; "sign up"; "menu"; "home"; "about us"; "contact";
    "search"; "subscribe"; "newsletter"; "my account"; "settings";
    "help"; "privacy"; "terms"; "cookies"; "accept all cookies";
    "advertisement"; "follow us"; "social media" ].

(** [/\bword\b/] *)
Definition nav_pattern (w : string) : regex := Cat [ WordB; Str w; WordB ].

(** The patterns of [isNavigationText], one for each of the words above. *)
Definition navPatterns : list regex := map nav_pattern navWords.

Definition hasNavKeywords (text : string) : bool :=
  let lowerText := toLowerCase text in
  match find (fun pattern => test pattern lowerText) navPatterns with
  | Some _ => true
  | None => false
  end.

(** The em dash (U+2014) of the last description pattern is a code unit
    above 255: no character of a string of the embedding is one. *)
Definition em_dash : regex := Class (fun _ => false).

(** Each pattern with its [i] flag:
    [/^[^.]{10,100}$/], [/cooked in.*sauce$/], [/style.*recipe$/],
    [/^.*(em dash).*recipe\.?$/i]. *)
Definition descriptionPatterns : list (bool * regex) :=
  [ (false, Cat [ Bol; Repeat (none_of ".") 10 (Some 100%nat); Eol ]);
    (false, Cat [ Str "cooked in"; Star any; Str "sauce"; Eol ]);
    (false, Cat [ Str "style"; Star any; Str "recipe"; Eol ]);
    (true,  Cat [ Bol; Star any; em_dash; Star any; Str "recipe";
                  Opt (Lit "."); Eol ]) ].

Definition isRecipeDescription (text : string) : bool :=
  existsb (fun p : bool * regex =>
             if fst p then test_i (snd p) (trim text) else test (snd p) (trim text))
          descriptionPatterns.

Definition isNavigationText (text : string) (isInstructionContext : bool) : bool :=
  let hasNavKeywords := hasNavKeywords text in
  let isRecipeDescription := isRecipeDescription text in
  if isInstructionContext
  then hasNavKeywords || isRecipeDescription
  else hasNavKeywords || (500 <? String.length text)%nat.

(** *** Structured data *)

(** An entry of [recipeInstructions]: a string, or an object with
    optional [text] and [name]. *)
Inductive JsonInstruction : Type :=
| InstrString (s : string)
| InstrObject (text name : option string).

Definition instruction_text (instruction : JsonInstruction) : string :=
  match instruction with
  | InstrString s => s
  | InstrObject text name =>
      match text with
      | Some t => if JsString.truthy t then t
                  else match name with
                       | Some n => or_else n ""
                       | None => ""
                       end
      | None => match name with
                | Some n => or_else n ""
                | None => ""
                end
      end
  end.

(** The fields of a [Recipe]-typed JSON-LD object that
    [parseJsonLdRecipe] reads (strings where the source expects them). *)
Record JsonLdRecipe : Type := mkJsonLdRecipe {
  ld_name : option string;
  ld_image : option string;
  ld_description : option string;
  ld_totalTime : option string;
  ld_cookTime : option string;
  ld_prepTime : option string;
  ld_recipeYield : option string;
  ld_recipeIngredient : option (list string);
  ld_recipeInstructions : option (list JsonInstruction)
}.

(** [a || b || c] on optional strings. *)
Definition first_truthy (l : list (option string)) : option string :=
  match find truthy_opt l with
  | Some o => o
  | None => last l None
  end.

Definition or_empty {A : Type} (o : option (list A)) : list A :=
  match o with Some l => l | None => [] end.

Definition parseJsonLdRecipe (data : JsonLdRecipe) : ScrapingResult :=
  let ingredients :=
    mapi (fun ingredient (index : nat) =>
            let parsed := parseIngredient ingredient in
            {| name := or_else (p_name parsed) ingredient;
               amount := or_one (p_amount parsed);
               unit := p_unit parsed;
               original := Some ingredient |})
         (or_empty (ld_recipeIngredient data)) in
  let instructions :=
    mapi (fun instruction (index : nat) =>
            let text := instruction_text instruction in
            {| number := Z.of_nat index + 1; step := trim text |})
         (or_empty (ld_recipeInstructions data)) in
  {| title := ld_name data;
     image := extractImageUrl (ld_image data);
     summary := ld_description data;
     sourceUrl := "";
     sourceName := Some "";
     readyInMinutes :=
       parseTime (first_truthy [ld_totalTime data; ld_cookTime data; ld_prepTime data]);
     servings := match ld_recipeYield data with
                 | Some y => parseServingsFromText y
                 | None => None
                 end;
     ingredients := ingredients;
     instructions := instructions |}.

(** *** Microdata *)

(** What the queries of [tryMicrodataExtraction] select under the
    recipe element: texts of first matches ([""] when nothing matches)
    and texts of all matches. *)
Record MicrodataSelection : Type := mkMicrodataSelection {
  ms_name : string;
  ms_imageSrc : option string;
  ms_description : string;
  ms_ingredients : list string;
  ms_instructions : list string;
  ms_totalTime : string;
  ms_recipeYield : string
}.

(** [recipeElement] is [None] when no recipe element is found. *)
Definition tryMicrodataExtraction (recipeElement : option MicrodataSelection)
  : option ScrapingResult :=
  match recipeElement with
  | None => None
  | Some el =>
      let title := trim (ms_name el) in
      let image := extractImageUrl (Some (match ms_imageSrc el with
                                          | Some s => or_else s ""
                                          | None => ""
                                          end)) in
      let summary := trim (ms_description el) in
      let ingredients :=
        each (fun (i : nat) raw =>
                let text := trim raw in
                if JsString.truthy text && (2 <? String.length text)%nat
                then [ingredient_of text] else [])
             (ms_ingredients el) in
      let instructions :=
        each (fun (i : nat) raw =>
                let text := trim raw in
                if JsString.truthy text && (10 <? String.length text)%nat
                then [{| number := Z.of_nat i + 1; step := text |}] else [])
             (ms_instructions el) in
      if negb (JsString.truthy title)
         && (List.length ingredients =? 0)%nat
         && (List.length instructions =? 0)%nat
      then None
      else Some {| title := Some (or_else title "Scraped Recipe");
                   image := image;
                   summary := Some summary;
                   sourceUrl := "";
                   sourceName := Some "";
                   readyInMinutes := parseTimeFromText (ms_totalTime el);
                   servings := parseServingsFromText (ms_recipeYield el);
                   ingredients := ingredients;
                   instructions := instructions |}
  end.

(** *** Validity gate of this tier *)

Definition isValidResult (result : ScrapingResult) : bool :=
  (truthy_opt (title result)
   && ((0 <? List.length (ingredients result))%nat
       || (0 <? List.length (instructions result))%nat))
  || ((0 <? List.length (ingredients result))%nat
      && (0 <? List.length (instructions result))%nat).

(** *** The tier itself *)

(** What [fetch(url)] and [response.text()] give: an exception
    (network failure, timeout), or a response with its [ok] flag and
    body. *)
Inductive FetchOutcome : Type :=
| FetchThrows
| FetchResponse (ok : bool) (html : string).

Section Tier.

(** The three strategies of this tier as functions of the fetched
    document (the cheerio queries included), and the host name of a
    url without its [www.]. *)
Variables jsonLd microdata patternMatching : string -> option ScrapingResult.
Variable extractDomain : string -> string.

Definition formatRecipeData (result : ScrapingResult) (url : string)
  : CreateRecipeData :=
  {| r_title := match title result with
                | Some t => or_else t "Scraped Recipe"
                | None => "Scraped Recipe"
                end;
     r_image := image result;
     r_summary := summary result;
     r_sourceUrl := url;
     r_sourceName := match sourceName result with
                     | Some n => if JsString.truthy n then n else extractDomain url
                     | None => extractDomain url
                     end;
     r_readyInMinutes := readyInMinutes result;
     r_servings := servings result;
     r_ingredients :=
       map (fun ing => {| name := name ing; amount := amount ing;
                          unit := unit ing; original := original ing |})
           (ingredients result);
     r_instructions := instructions result |}.

(** [result && this.isValidResult(result)] *)
Definition accepted (result : option ScrapingResult) : option ScrapingResult :=
  match result with
  | Some r => if isValidResult r then Some r else None
  | None => None
  end.

Definition scrapeWithFetch (url : string) (fetched : FetchOutcome)
  : option CreateRecipeData :=
  match fetched with
  | FetchThrows => None
  | FetchResponse ok html =>
      if negb ok then None
      else if isErrorPage html then None
      else
        match accepted (jsonLd html) with
        | Some r => Some (formatRecipeData r url)
        | None =>
            match accepted (microdata html) with
            | Some r => Some (formatRecipeData r url)
            | None =>
                match accepted (patternMatching html) with
                | Some r => Some (formatRecipeData r url)
                | None => None
                end
            end
        end
  end.

End Tier.

End SimpleScrapingService.

(* ================================================================== *)
(** ** The rendered tier: [RecipeScrapingService] *)

Module RecipeScrapingService.

(** [[class*="word"]], the double quotes included. *)
Definition class_has (word : string) : string :=
  let dq := String (ascii_of_nat 34) EmptyString in
  ("[class*=" ++ dq ++ word ++ dq ++ "]")%string.

Definition titleSelectors : list string :=
  [ "h1.recipe-title"; "h1.entry-title"; "h2.recipe-title"; ".recipe-name";
    ".recipe-header h1"; ".post-title"; ("h1" ++ class_has "title")%string;
    ("h1" ++ class_has "recipe")%string ].

Definition ingredientSelectors : list string :=
  [ ".ingredients li"; ".recipe-ingredients li"; ".ingredient-list li";
    ".ingredients ul li"; ".recipe-ingredient"; class_has "ingredient" ].

Definition instructionSelectors : list string :=
  [ ".instructions li"; ".directions li"; ".method li"; ".recipe-instructions li";
    ".instructions ol li"; ".recipe-method li"; class_has "instruction";
    class_has "direction" ].

(** The title loop: the trimmed text of the first element of the
    first selector whose first element has text; [""] otherwise. *)
Fixpoint find_title (query : string -> list string) (selectors : list string) : string :=
  match selectors with
  | [] => ""
  | sel :: selectors' =>
      match query sel with
      | el :: _ => if JsString.truthy (trim el) then trim el
                   else find_title query selectors'
      | [] => find_title query selectors'
      end
  end.

(** [query selector] is [$(selector)] on the rendered document: the
    texts of the matching elements. *)
Definition tryPatternMatching (query : string -> list string) (url : string)
           (domain : string) : option ScrapingResult :=
  let title := find_title query titleSelectors in
  let ingredients :=
    selector_loop
      (fun selector =>
         each (fun (i : nat) raw =>
                 let text := trim raw in
                 if JsString.truthy text && (2 <? String.length text)%nat
                 then [ingredient_of text] else [])
              (query selector))
      ingredientSelectors [] in
  let instructions :=
    selector_loop
      (fun selector =>
         each (fun (i : nat) raw =>
                 let text := trim raw in
                 if JsString.truthy text && (10 <? String.length text)%nat
                 then [{| number := Z.of_nat i + 1; step := text |}] else [])
              (query selector))
      instructionSelectors [] in
  if negb (JsString.truthy title)
     && (List.length ingredients =? 0)%nat
     && (List.length instructions =? 0)%nat
  then None
  else Some {| title := Some (or_else title "Scraped Recipe");
               image := None;
               summary := None;
               sourceUrl := url;
               sourceName := Some domain;
               readyInMinutes := None;
               servings := None;
               ingredients := ingredients;
               instructions := instructions |}.

(** *** Validity gate of this tier *)

Definition isValidRecipe (result : ScrapingResult) : bool :=
  truthy_opt (title result)
  || ((0 <? List.length (ingredients result))%nat
      && (0 <? List.length (instructions result))%nat).

End RecipeScrapingService.

(* ================================================================== *)
(** ** The job orchestrator: [scrapingController]

    The store holds the [scrapedUrl] table (one row per url, the job)
    and the [recipe] table.  A handler reads and writes the store and
    launches extractions that run after it has answered; what it did is
    kept, in order, in the list of events of the [World].  The store's
    operations are taken to succeed: the [catch] blocks of the handlers,
    which answer 500, are not part of the model. *)

Module ScrapingController.

(** A row of [scrapedUrl]. *)
Record ScrapedUrl : Type := mkScrapedUrl {
  id : string;
  url : string;
  status : string;
  retryCount : Z;
  errorMessage : option string;
  recipeId : option string;
  scrapedAt : Z;
  updatedAt : Z
}.

(** A row of [recipe], with what was stored in it. *)
Record Recipe : Type := mkRecipe {
  recipe_id : string;
  recipe_data : CreateRecipeData
}.

(** The two tables and the state of the id generator. *)
Record Store : Type := mkStore {
  scrapedUrls : list ScrapedUrl;
  recipes : list Recipe;
  idCounter : nat
}.

Inductive Event : Type :=
| Wrote (jobId : string)              (* a row of [scrapedUrl] was written *)
| Launched (url jobId : string).      (* [scrapingService.scrapeRecipe(url, jobId)] was started *)

Record World : Type := mkWorld {
  db : Store;
  events : list Event
}.

(** JavaScript values, as a request body can hold them. *)
Inductive jsval : Type :=
| VUndefined
| VNull
| VBool (b : bool)
| VNum (z : Z)
| VStr (s : string)
| VArr (l : list jsval)
| VObj.

(** The recipe as sent to the client (its identifying fields). *)
Record ClientRecipe : Type := mkClientRecipe {
  c_id : string;
  c_title : string;
  c_sourceUrl : string
}.

Inductive Body : Type :=
| ErrorBody (error : string)
| CachedRecipe (status : string) (recipe : ClientRecipe) (cached : bool)
| JobHandle (status jobId message : string)
| JobHandles (status : string) (jobIds : list string) (message : string).

(** [res.status(code).json(body)]; [res.json(body)] answers 200. *)
Record Response : Type := mkResponse {
  code : nat;
  body : Body
}.

Definition transformRecipeForClient (r : Recipe) : ClientRecipe :=
  {| c_id := recipe_id r;
     c_title := r_title (recipe_data r);
     c_sourceUrl := r_sourceUrl (recipe_data r) |}.

(** *** The store's operations *)

Definition findByUrl (u : string) (st : Store) : option ScrapedUrl :=
  find (fun j => String.eqb (url j) u) (scrapedUrls st).

Definition findById (i : string) (st : Store) : option ScrapedUrl :=
  find (fun j => String.eqb (id j) i) (scrapedUrls st).

Definition findRecipe (i : string) (st : Store) : option Recipe :=
  find (fun r => String.eqb (recipe_id r) i) (recipes st).

Definition decimal (n : nat) : string :=
  NilEmpty.string_of_uint (Nat.to_uint n).

(** The id the store gives to a new row (an opaque unique string in the
    source), here the next number of the generator. *)
Definition newId (st : Store) : string :=
  ("job" ++ decimal (idCounter st))%string.

(** [data: { status: 'processing', updatedAt: new Date(), retryCount: { increment: 1 } }] *)
Definition reprocess (now : Z) (j : ScrapedUrl) : ScrapedUrl :=
  {| id := id j; url := url j;
     status := "processing";
     retryCount := retryCount j + 1;
     errorMessage := errorMessage j;
     recipeId := recipeId j;
     scrapedAt := scrapedAt j;
     updatedAt := now |}.

(** Modelled from the spec: the defaults of the columns that
    [create: { url, status: 'processing' }] does not give (the schema
    of the table is not among the sources): [retryCount] starts at 0,
    no error message, no recipe reference, both dates at creation. *)
Definition created (i u : string) (now : Z) : ScrapedUrl :=
  {| id := i; url := u;
     status := "processing";
     retryCount := 0;
     errorMessage := None;
     recipeId := None;
     scrapedAt := now;
     updatedAt := now |}.

Definition replace_rows (p : ScrapedUrl -> bool) (f : ScrapedUrl -> ScrapedUrl)
           (st : Store) : Store :=
  {| scrapedUrls := map (fun j => if p j then f j else j) (scrapedUrls st);
     recipes := recipes st;
     idCounter := idCounter st |}.

(** [prisma.scrapedUrl.update({ where: { id }, data })] on a row that exists. *)
Definition updateById (i : string) (f : ScrapedUrl -> ScrapedUrl) (w : World) : World :=
  {| db := replace_rows (fun j => String.eqb (id j) i) f (db w);
     events := events w ++ [Wrote i] |}.

(** [prisma.scrapedUrl.upsert({ where: { url }, update, create })]:
    the row written, and the world after. *)
Definition upsertByUrl (u : string) (now : Z) (w : World) : ScrapedUrl * World :=
  match findByUrl u (db w) with
  | Some j =>
      (reprocess now j,
       {| db := replace_rows (fun j' => String.eqb (url j') u) (reprocess now) (db w);
          events := events w ++ [Wrote (id j)] |})
  | None =>
      let j := created (newId (db w)) u now in
      (j,
       {| db := {| scrapedUrls := scrapedUrls (db w) ++ [j];
                   recipes := recipes (db w);
                   idCounter := S (idCounter (db w)) |};
          events := events w ++ [Wrote (id j)] |})
  end.

(** [scrapingService.scrapeRecipe(url, jobId).then(...).catch(...)],
    not awaited. *)
Definition launch (u i : string) (w : World) : World :=
  {| db := db w; events := events w ++ [Launched u i] |}.

(** *** Handlers *)

Definition respond (c : nat) (b : Body) (w : World) : Response * World :=
  ({| code := c; body := b |}, w).

(** [scrapeRecipe]: [urlField] is [req.body.url]. *)
Definition scrapeRecipe (urlField : jsval) (now : Z) (w : World) : Response * World :=
  let start (u : string) :=
    let (scrapingJob, w1) := upsertByUrl u now w in
    let w2 := launch u (id scrapingJob) w1 in
    respond 200 (JobHandle "processing" (id scrapingJob)
                   "Recipe scraping started. Check status endpoint for progress.") w2 in
  match urlField with
  | VStr u =>
      if negb (JsString.truthy u)
      then respond 400 (ErrorBody "Valid URL is required") w
      else
        match findByUrl u (db w) with
        | Some existingScrapedUrl =>
            if String.eqb (status existingScrapedUrl) "success"
               && truthy_opt (recipeId existingScrapedUrl)
            then
              match recipeId existingScrapedUrl with
              | Some rid =>
                  match findRecipe rid (db w) with
                  | Some recipe =>
                      respond 200 (CachedRecipe "success"
                                     (transformRecipeForClient recipe) true) w
                  | None => start u
                  end
              | None => start u
              end
            else if String.eqb (status existingScrapedUrl) "processing"
            then respond 200 (JobHandle "processing" (id existingScrapedUrl)
                                "Recipe is currently being scraped") w
            else start u
        | None => start u
        end
  | _ => respond 400 (ErrorBody "Valid URL is required") w
  end.

(** [retryScrapingJob]: [jobId] is [req.params.jobId]. *)
Definition retryScrapingJob (jobId : string) (now : Z) (w : World) : Response * World :=
  match findById jobId (db w) with
  | None => respond 404 (ErrorBody "Scraping job not found") w
  | Some scrapingJob =>
      if String.eqb (status scrapingJob) "processing"
      then respond 400 (ErrorBody "Job is already processing") w
      else
        let w1 := updateById jobId (reprocess now) w in
        let w2 := launch (url scrapingJob) (id scrapingJob) w1 in
        respond 200 (JobHandle "processing" (id scrapingJob) "Scraping retry started") w2
  end.

(** The loop of [bulkScrapeRecipes] over the entries of [urls]. *)
Fixpoint bulk_loop (urls : list jsval) (now : Z) (jobIds : list string) (w : World)
  : list string * World :=
  match urls with
  | [] => (jobIds, w)
  | VStr u :: urls' =>
      let (scrapingJob, w1) := upsertByUrl u now w in
      let jobIds' := jobIds ++ [id scrapingJob] in
      let w2 := launch u (id scrapingJob) w1 in
      bulk_loop urls' now jobIds' w2
  | _ :: urls' => bulk_loop urls' now jobIds w
  end.

(** [bulkScrapeRecipes]: [urlsField] is [req.body.urls]. *)
Definition bulkScrapeRecipes (urlsField : jsval) (now : Z) (w : World) : Response * World :=
  match urlsField with
  | VArr urls =>
      if (List.length urls =? 0)%nat
      then respond 400 (ErrorBody "Array of URLs is required") w
      else if (10 <? List.length urls)%nat
      then respond 400 (ErrorBody "Maximum 10 URLs allowed per batch") w
      else
        let (jobIds, w1) := bulk_loop urls now [] w in
        respond 200 (JobHandles "processing" jobIds
                       ("Started scraping " ++ decimal (List.length jobIds)
                        ++ " recipes. Use the status endpoints to check progress.")%string) w1
  | _ => respond 400 (ErrorBody "Array of URLs is required") w
  end.

End ScrapingController.

(* ================================================================== *)
(** ** Notions used to state the properties *)

(** [t] occurs in [s]. *)
Definition contains (s t : string) : Prop :=
  exists pre post, s = (pre ++ t ++ post)%string.

(** Every character of [s] satisfies [p]. *)
Fixpoint all_chars (p : ascii -> bool) (s : string) : bool :=
  match s with
  | EmptyString => true
  | String c s' => p c && all_chars p s'
  end.

(** [s] is empty or starts with a character that does not satisfy [p]:
    a run of [p]-characters stops here. *)
Definition stops (p : ascii -> bool) (s : string) : bool :=
  match s with
  | EmptyString => true
  | String c _ => negb (p c)
  end.

(** The last character of [d], or [c] when [d] is empty. *)
Fixpoint last_char (d : string) (c : option ascii) : option ascii :=
  match d with
  | EmptyString => c
  | String a d' => last_char d' (Some a)
  end.

(** The matcher state after reading [d] from [s], [tl] being left. *)
Definition moved (d tl : string) (s : mstate) : mstate :=
  {| prev := last_char d (prev s); rest := tl; caps := caps s |}.

(** [body] matches one character of the class [p]. *)
Definition class_step (p : ascii -> bool)
           (body : (mstate -> option mstate) -> mstate -> option mstate) : Prop :=
  forall k s, body k s = match rest s with
                         | String d t => if p d then k (advance d t s) else None
                         | EmptyString => None
                         end.

Definition no_terminator (c : ascii) : bool := negb (is_line_terminator c).

(** [pre] is empty or ends with a character that is not a word character. *)
Definition ends_nonword (pre : string) : bool :=
  match last_char pre None with
  | Some c => negb (is_word c)
  | None => true
  end.

(** [w] starts and ends with a word character. *)
Definition word_edged (w : string) : bool :=
  match w with String c _ => is_word c | EmptyString => false end
  && match last_char w None with Some c => is_word c | None => false end.

(** [w] occurs in [s] between two word boundaries. *)
Definition whole_word_in (w s : string) : Prop :=
  exists pre post,
    s = (pre ++ w ++ post)%string
    /\ ends_nonword pre = true /\ stops is_word post = true.

(** A title is present: defined and not empty. *)
Definition title_present (r : ScrapingResult) : Prop :=
  exists t, title r = Some t /\ t <> "".

(** The acceptance rule of the validity gate, as the specification words it. *)
Definition gate_rule (r : ScrapingResult) : Prop :=
  (title_present r /\ (ingredients r <> [] \/ instructions r <> []))
  \/ (ingredients r <> [] /\ instructions r <> []).

(** A candidate with a title and nothing else. *)
Definition title_only (t : string) : ScrapingResult :=
  {| title := Some t; image := None; summary := None; sourceUrl := "";
     sourceName := None; readyInMinutes := None; servings := None;
     ingredients := []; instructions := [] |}.

(** The two lines of the navigation-filter regression. *)
Definition subscribe_line : string := "Subscribe to our newsletter".
Definition cook_line : string := "Cook for about 30 minutes, stirring occasionally".

(** A rendered page on which only the title selector [.recipe-name] matches. *)
Definition title_only_page (selector : string) : list string :=
  if String.eqb selector ".recipe-name" then ["Pancakes"] else [].

(** A rendered page whose [.instructions li] items are a short heading
    and one real step. *)
Definition heading_then_step_page (selector : string) : list string :=
  if String.eqb selector ".instructions li"
  then ["Method"; "Whisk the eggs with the sugar until pale."]
  else [].

(** A recipe element whose instruction items are a short heading and
    one real step. *)
Definition heading_then_step : SimpleScrapingService.MicrodataSelection :=
  {| SimpleScrapingService.ms_name := "Pancakes";
     SimpleScrapingService.ms_imageSrc := None;
     SimpleScrapingService.ms_description := "";
     SimpleScrapingService.ms_ingredients := [];
     SimpleScrapingService.ms_instructions :=
       ["Method"; "Whisk the eggs with the sugar until pale."];
     SimpleScrapingService.ms_totalTime := "";
     SimpleScrapingService.ms_recipeYield := "" |}.

(** A store with one job, for [https://example.com/cake], in the given
    status and pointing at the one stored recipe. *)
Definition cake_url : string := "https://example.com/cake".

Definition cake_recipe : ScrapingController.Recipe :=
  {| ScrapingController.recipe_id := "recipe0";
     ScrapingController.recipe_data :=
       {| r_title := "Cake"; r_image := None; r_summary := None;
          r_sourceUrl := cake_url; r_sourceName := "example.com";
          r_readyInMinutes := None; r_servings := None;
          r_ingredients := []; r_instructions := [] |} |}.

Definition cake_job (st : string) (rid : option string) : ScrapingController.ScrapedUrl :=
  {| ScrapingController.id := "job0";
     ScrapingController.url := cake_url;
     ScrapingController.status := st;
     ScrapingController.retryCount := 0;
     ScrapingController.errorMessage := None;
     ScrapingController.recipeId := rid;
     ScrapingController.scrapedAt := 100;
     ScrapingController.updatedAt := 100 |}.

Definition cake_world (st : string) (rid : option string) : ScrapingController.World :=
  {| ScrapingController.db :=
       {| ScrapingController.scrapedUrls := [cake_job st rid];
          ScrapingController.recipes := [cake_recipe];
          ScrapingController.idCounter := 1 |};
     ScrapingController.events := [] |}.

(* ================================================================== *)
(** ** More of the job orchestrator: polling and completion *)

Module JobLifecycle.
Import ScrapingController.

(** The body [getScrapingStatus] answers with for a job it found. *)
Record StatusReport : Type := mkStatusReport {
  s_jobId : string;
  s_url : string;
  s_status : string;
  s_scrapedAt : Z;
  s_updatedAt : Z;
  s_errorMessage : option string;
  s_retryCount : Z;
  s_recipe : option ClientRecipe
}.

Inductive StatusAnswer : Type :=
| StatusError (code : nat) (error : string)
| StatusOk (report : StatusReport).

(** [getScrapingStatus]: [jobId] is [req.params.jobId]. *)
Definition getScrapingStatus (jobId : string) (w : World) : StatusAnswer * World :=
  match findById jobId (db w) with
  | None => (StatusError 404 "Scraping job not found", w)
  | Some scrapingJob =>
      let recipe :=
        if String.eqb (status scrapingJob) "success"
           && truthy_opt (recipeId scrapingJob)
        then match recipeId scrapingJob with
             | Some rid => option_map transformRecipeForClient (findRecipe rid (db w))
             | None => None
             end
        else None in
      (StatusOk {| s_jobId := id scrapingJob;
                   s_url := url scrapingJob;
                   s_status := status scrapingJob;
                   s_scrapedAt := scrapedAt scrapingJob;
                   s_updatedAt := updatedAt scrapingJob;
                   s_errorMessage := errorMessage scrapingJob;
                   s_retryCount := retryCount scrapingJob;
                   s_recipe := recipe |}, w)
  end.

(** How a launched [scrapingService.scrapeRecipe(url, jobId)] settles,
    as its [then] and [catch] callbacks see it: it resolved with data
    that [recipeService.createRecipe] stored as [recipe]; it resolved
    with data and [createRecipe] threw; it resolved with [null]; it was
    rejected. *)
Inductive Settled : Type :=
| Stored (recipe : Recipe)
| NotStored (message : string)
| NothingFound
| Threw (message : string).

(** [data: { status: 'success', recipeId: recipe?.id, updatedAt: new Date() }] *)
Definition succeeded (rid : string) (now : Z) (j : ScrapedUrl) : ScrapedUrl :=
  {| id := id j; url := url j;
     status := "success";
     retryCount := retryCount j;
     errorMessage := errorMessage j;
     recipeId := Some rid;
     scrapedAt := scrapedAt j;
     updatedAt := now |}.

(** [data: { status: 'failed', errorMessage, updatedAt: new Date() }] *)
Definition failed (message : string) (now : Z) (j : ScrapedUrl) : ScrapedUrl :=
  {| id := id j; url := url j;
     status := "failed";
     retryCount := retryCount j;
     errorMessage := Some message;
     recipeId := recipeId j;
     scrapedAt := scrapedAt j;
     updatedAt := now |}.

(** The row [createRecipe] adds to the [recipe] table. *)
Definition storeRecipe (recipe : Recipe) (w : World) : World :=
  {| db := {| scrapedUrls := scrapedUrls (db w);
              recipes := recipes (db w) ++ [recipe];
              idCounter := idCounter (db w) |};
     events := events w |}.

(** The [then] and [catch] callbacks that the three handlers attach to
    a launched extraction, for the job [jobId]. *)
Definition onSettled (jobId : string) (outcome : Settled) (now : Z) (w : World) : World :=
  match outcome with
  | Stored recipe =>
      updateById jobId (succeeded (recipe_id recipe) now) (storeRecipe recipe w)
  | NotStored message => updateById jobId (failed message now) w
  | NothingFound => updateById jobId (failed "Could not extract recipe data" now) w
  | Threw message => updateById jobId (failed message now) w
  end.

(** The extractions launched so far, in order, as pairs of url and job id. *)
Fixpoint launches (evs : list Event) : list (string * string) :=
  match evs with
  | [] => []
  | Launched u i :: evs' => (u, i) :: launches evs'
  | Wrote _ :: evs' => launches evs'
  end.

(** The entries of [urls] that are strings, in order. *)
Fixpoint strings_of (urls : list jsval) : list string :=
  match urls with
  | [] => []
  | VStr u :: urls' => u :: strings_of urls'
  | _ :: urls' => strings_of urls'
  end.

(** [j'] is the row [j] after a handler: same id, same url, and a
    [retryCount] that is not lower. *)
Definition kept (j j' : ScrapedUrl) : Prop :=
  id j' = id j /\ url j' = url j /\ (retryCount j <= retryCount j')%Z.

(** [rows'] holds every row of [rows], in place and [kept], followed
    by new rows. *)
Definition grown (rows rows' : list ScrapedUrl) : Prop :=
  exists old new, rows' = old ++ new /\ Forall2 kept rows old.

(** No two rows have the same url. *)
Definition unique_urls (st : Store) : Prop := NoDup (map url (scrapedUrls st)).

(** What a handler may do to the [scrapedUrl] table. *)
Definition table_step (w w' : World) : Prop :=
  grown (scrapedUrls (db w)) (scrapedUrls (db w'))
  /\ (unique_urls (db w) -> unique_urls (db w')).

(** The world after a first submission of [u] has settled with [outcome]. *)
Definition submitted_and_settled (u : string) (outcome : Settled) (now later : Z)
           (w : World) : World :=
  onSettled (newId (db w)) outcome later (snd (scrapeRecipe (VStr u) now w)).

(** The extraction ended without a stored recipe. *)
Definition fruitless (outcome : Settled) : Prop :=
  match outcome with Stored _ => False | _ => True end.

End JobLifecycle.

(* ================================================================== *)
(** ** More of the rendered tier: the heuristic layer and the chain *)

Module Heuristics.

(** [(?:a|b|...)] for literal alternatives, the first tried first. *)
Fixpoint AltStr (l : list string) : regex :=
  match l with
  | [] => Class (fun _ => false)
  | [s] => Str s
  | s :: l' => Alt (Str s) (AltStr l')
  end.

Definition recipeKeywords : list string :=
  [ "recipe"; "how to make"; "easy"; "best"; "homemade" ].

Definition badKeywords : list string :=
  [ "home"; "about"; "contact"; "menu"; "subscribe" ].

Definition scoreTitle (text : string) : Z :=
  let score := 0%Z in
  let score :=
    fold_left (fun score keyword =>
                 if includes (toLowerCase text) keyword then (score + 2)%Z else score)
              recipeKeywords score in
  let score :=
    if (10 <? String.length text)%nat && (String.length text <? 60)%nat
    then (score + 3)%Z else score in
  fold_left (fun score keyword =>
               if includes (toLowerCase text) keyword then (score - 5)%Z else score)
            badKeywords score.

Definition unitWords : list string :=
  [ "cup"; "tbsp"; "tsp"; "lb"; "oz"; "g"; "kg"; "ml"; "l"; "pound"; "ounce";
    "tablespoon"; "teaspoon" ].

(** Each pattern with its [i] flag:
    [/^\d+.*(?:cup|tbsp|...)/i], [/^\d+\/\d+/], [/(?:cup|tbsp|...)/i]. *)
Definition ingredientPatterns : list (bool * regex) :=
  [ (true,  Cat [ Bol; Plus digit; Star any; AltStr unitWords ]);
    (false, Cat [ Bol; Plus digit; Lit "/"; Plus digit ]);
    (true,  AltStr unitWords) ].

Definition looksLikeIngredient (text : string) : bool :=
  existsb (fun p : bool * regex =>
             if fst p then test_i (snd p) text else test (snd p) text)
          ingredientPatterns
  && (String.length text <? 200)%nat.

Definition instructionKeywords : list string :=
  [ "heat"; "cook"; "bake"; "mix"; "stir"; "add"; "combine"; "place"; "remove";
    "preheat"; "season"; "serve"; "garnish"; "chop"; "slice"; "dice"; "mince" ].

Definition looksLikeInstruction (text : string) : bool :=
  let hasInstructionKeyword :=
    existsb (fun keyword => includes (toLowerCase text) keyword) instructionKeywords in
  hasInstructionKeyword
  && (20 <? String.length text)%nat
  && (String.length text <? 500)%nat
  && negb (includes (toLowerCase text) "subscribe")
  && negb (includes (toLowerCase text) "advertisement").

(** [arr.sort((a, b) => score(b) - score(a))]: a stable sort, highest
    score first.  [insert_by_score x l] puts [x], which comes before the
    elements of the sorted [l] in the array, in its place. *)
Fixpoint insert_by_score (score : string -> Z) (x : string) (l : list string) : list string :=
  match l with
  | [] => [x]
  | y :: l' => if (score x <? score y)%Z then y :: insert_by_score score x l'
               else x :: l
  end.

Definition sort_by_score (score : string -> Z) (l : list string) : list string :=
  fold_right (insert_by_score score) [] l.

(** What the queries of [tryIntelligentScraping] select on the rendered
    document: the texts of the [h1, h2, h3] elements, of the text nodes,
    and of the [p, li, div] elements. *)
Record PageTexts : Type := mkPageTexts {
  headings : list string;
  textNodes : list string;
  blocks : list string
}.

Definition tryIntelligentScraping (page : PageTexts) (url domain : string)
  : option ScrapingResult :=
  let potentialTitles :=
    sort_by_score scoreTitle
      (filter (fun text => (0 <? String.length text)%nat && (String.length text <? 100)%nat)
              (map trim (headings page))) in
  let title := match potentialTitles with t :: _ => t | [] => "" end in
  let allText :=
    filter (fun text => (5 <? String.length text)%nat && looksLikeIngredient text)
           (map trim (textNodes page)) in
  let ingredients := map ingredient_of (firstn 20 allText) in
  let potentialInstructions :=
    firstn 15 (filter looksLikeInstruction (map trim (blocks page))) in
  let instructions :=
    mapi (fun text (index : nat) => {| number := Z.of_nat index + 1; step := text |})
         potentialInstructions in
  if (List.length ingredients =? 0)%nat && (List.length instructions =? 0)%nat
  then None
  else Some {| title := Some (or_else title "Recipe");
               image := None;
               summary := None;
               sourceUrl := url;
               sourceName := Some domain;
               readyInMinutes := None;
               servings := None;
               ingredients := ingredients;
               instructions := instructions |}.

End Heuristics.

Module RenderedChain.

(** The five layers that [scrapeRecipe] tries after the lightweight
    tier, in its order. *)
Inductive Layer : Type :=
| JsonLd | Microdata | PatternMatching | SiteSpecific | Intelligent.

(** [puppeteerResult && this.isValidRecipe(puppeteerResult)] *)
Definition valid (result : option ScrapingResult) : option ScrapingResult :=
  match result with
  | Some r => if RecipeScrapingService.isValidRecipe r then Some r else None
  | None => None
  end.

(** [RecipeScrapingService.scrapeRecipe].  [simple] is what
    [simpleScrapingService.scrapeWithFetch(url)] resolved with and
    [layer l] what the method of layer [l] would resolve with on this
    url; beside the result, the layers that were run, in order.
    [formatRecipeData] has the same text in the two services. *)
Definition scrapeRecipe (extractDomain : string -> string) (url : string)
           (simple : option CreateRecipeData)
           (layer : Layer -> option ScrapingResult)
  : option CreateRecipeData * list Layer :=
  let format r := SimpleScrapingService.formatRecipeData extractDomain r url in
  match simple with
  | Some result => (Some result, [])
  | None =>
      match valid (layer JsonLd) with
      | Some r => (Some (format r), [JsonLd])
      | None =>
      match valid (layer Microdata) with
      | Some r => (Some (format r), [JsonLd; Microdata])
      | None =>
      match valid (layer PatternMatching) with
      | Some r => (Some (format r), [JsonLd; Microdata; PatternMatching])
      | None =>
      match valid (layer SiteSpecific) with
      | Some r => (Some (format r), [JsonLd; Microdata; PatternMatching; SiteSpecific])
      | None =>
      match valid (layer Intelligent) with
      | Some r =>
          (Some (format r),
           [JsonLd; Microdata; PatternMatching; SiteSpecific; Intelligent])
      | None =>
          (None, [JsonLd; Microdata; PatternMatching; SiteSpecific; Intelligent])
      end end end end end
  end.

(** The layers in the order in which [scrapeRecipe] tries them. *)
Definition order : list Layer := [JsonLd; Microdata; PatternMatching; SiteSpecific; Intelligent].

End RenderedChain.

(* ================================================================== *)
(** ** More of the lightweight tier: pattern matching on the fetched page *)

Module SimplePatternMatching.

(** [:contains("word")], the double quotes included. *)
Definition has_text (word : string) : string :=
  let dq := String (ascii_of_nat 34) EmptyString in
  (":contains(" ++ dq ++ word ++ dq ++ ")")%string.

Definition titleSelectors : list string :=
  [ "h1.recipe-title"; "h1.entry-title"; "h2.recipe-title"; ".recipe-name";
    ".recipe-header h1"; ".post-title";
    ("h1" ++ RecipeScrapingService.class_has "title")%string;
    ("h1" ++ RecipeScrapingService.class_has "recipe")%string ].

Definition ingredientSelectors : list string :=
  [ ".ingredients li"; ".recipe-ingredients li"; ".ingredient-list li";
    ".ingredients ul li"; ".recipe-ingredient";
    RecipeScrapingService.class_has "ingredient";
    ".wp-block-recipe-card-ingredients li";
    ".recipe-ingredients p"; ".recipe-ingredients > p" ].

Definition instructionSelectors : list string :=
  [ ".recipe-process-wrapper .recipe-process"; ".recipe-process-wrapper p";
    RecipeScrapingService.class_has "recipe-process";
    RecipeScrapingService.class_has "process";
    ".recipe-process"; ".process-wrapper p"; ".recipe-method p";
    ".instructions li"; ".directions li"; ".method li"; ".recipe-instructions li";
    ".instructions ol li"; ".recipe-method li";
    ".wp-block-recipe-card-instructions li";
    "[data-process]"; ".step"; ".recipe-step"; ".cooking-step";
    RecipeScrapingService.class_has "instruction";
    RecipeScrapingService.class_has "direction";
    ("p" ++ RecipeScrapingService.class_has "recipe")%string;
    ("div" ++ RecipeScrapingService.class_has "recipe" ++ " p")%string;
    ".recipe-content p";
    ("p" ++ RecipeScrapingService.class_has "step")%string;
    ("div" ++ RecipeScrapingService.class_has "step")%string;
    RecipeScrapingService.class_has "preparation" ].

Definition imageSelectors : list string :=
  [ ".recipe-image img"; ".recipe-photo img"; ".recipe-img img";
    ".wp-post-image"; ".attachment-post-thumbnail";
    ".post-thumbnail img"; ("img" ++ RecipeScrapingService.class_has "recipe")%string;
    ".recipe-header img"; ".recipe-content img" ].

Definition timeSelectors : list string :=
  [ ".recipe-time"; ".cook-time"; ".prep-time"; ".total-time";
    RecipeScrapingService.class_has "time"; ".recipe-meta"; ".recipe-info";
    has_text "min"; has_text "minutes"; has_text "hours" ].

Definition servingSelectors : list string :=
  [ ".recipe-servings"; ".servings"; ".serves"; ".yield";
    RecipeScrapingService.class_has "serving"; RecipeScrapingService.class_has "yield";
    ".recipe-meta";
    has_text "serves"; has_text "servings"; has_text "portions" ].

(** All with the [i] flag:
    [/clock.*\.svg/], [/icon.*\.svg/], [/\.svg$/], [/clock.*\.png/],
    [/icon.*\.png/], [/time.*\.svg/], [/time.*\.png/], [/solid\.svg/],
    [/regular\.svg/]. *)
Definition iconPatterns : list regex :=
  [ Cat [ Str "clock"; Star any; Str ".svg" ];
    Cat [ Str "icon"; Star any; Str ".svg" ];
    Cat [ Str ".svg"; Eol ];
    Cat [ Str "clock"; Star any; Str ".png" ];
    Cat [ Str "icon"; Star any; Str ".png" ];
    Cat [ Str "time"; Star any; Str ".svg" ];
    Cat [ Str "time"; Star any; Str ".png" ];
    Str "solid.svg";
    Str "regular.svg" ].

Definition isIconImage (src : string) : bool :=
  existsb (fun pattern => test_i pattern src) iconPatterns.

(** An [img] element: its [src] and [data-src] attributes. *)
Record ImageElement : Type := mkImageElement {
  attr_src : option string;
  attr_data_src : option string
}.

(** What the queries of [tryPatternMatching] select on the fetched
    document: [texts selector] is the texts of the elements of
    [$(selector)] and [images selector] the same elements seen as
    images, both in document order. *)
Record Page : Type := mkPage {
  texts : string -> list string;
  images : string -> list ImageElement
}.

(** The title loop: the trimmed text of the first element of the first
    selector whose first element has text; [""] otherwise. *)
Fixpoint find_title (page : Page) (selectors : list string) : string :=
  match selectors with
  | [] => ""
  | selector :: selectors' =>
      match texts page selector with
      | element :: _ =>
          if JsString.truthy (trim element) then trim element
          else find_title page selectors'
      | [] => find_title page selectors'
      end
  end.

(** What the ingredient loop pushes for one selector. *)
Definition ingredients_of (page : Page) (selector : string) : list Ingredient :=
  each (fun (i : nat) raw =>
          let text := trim raw in
          if JsString.truthy text && (2 <? String.length text)%nat
             && negb (SimpleScrapingService.isNavigationText text false)
          then [ingredient_of text] else [])
       (texts page selector).

(** [for (const selector of selectors) { push; if (ingredients.length > 2) break; }] *)
Fixpoint ingredient_loop (collect : string -> list Ingredient)
         (selectors : list string) (ingredients : list Ingredient) : list Ingredient :=
  match selectors with
  | [] => ingredients
  | selector :: selectors' =>
      let ingredients' := ingredients ++ collect selector in
      if (2 <? List.length ingredients')%nat then ingredients'
      else ingredient_loop collect selectors' ingredients'
  end.

(** [for (const selector of selectors) { temp = ...; if (temp.length > 0) { push(...temp); break; } }] *)
Fixpoint instruction_loop (collect : string -> list Instruction)
         (selectors : list string) : list Instruction :=
  match selectors with
  | [] => []
  | selector :: selectors' =>
      let tempInstructions := collect selector in
      if (0 <? List.length tempInstructions)%nat then tempInstructions
      else instruction_loop collect selectors'
  end.

(** [img.attr('src') || img.attr('data-src')] *)
Definition src_of (img : ImageElement) : option string :=
  if truthy_opt (attr_src img) then attr_src img else attr_data_src img.

(** The image loop: the address of the first element of the first
    selector whose first element has an address that is not an icon. *)
Fixpoint find_image (page : Page) (selectors : list string) : option string :=
  match selectors with
  | [] => None
  | selector :: selectors' =>
      match images page selector with
      | img :: _ =>
          match src_of img with
          | Some src =>
              if JsString.truthy src && negb (isIconImage src)
              then extractImageUrl (Some src)
              else find_image page selectors'
          | None => find_image page selectors'
          end
      | [] => find_image page selectors'
      end
  end.

(** [if (time)] on what a parser returned: defined and not 0. *)
Definition truthy_number (value : option Z) : bool :=
  match value with
  | Some z => negb (z =? 0)%Z
  | None => false
  end.

(** [$(selector).each((i, el) => { v = parse(text); if (v) { found = v; return false; } })] *)
Fixpoint first_parsed (parse : string -> option Z) (els : list string) : option Z :=
  match els with
  | [] => None
  | el :: els' =>
      let value := parse (trim el) in
      if truthy_number value then value else first_parsed parse els'
  end.

(** [for (const selector of selectors) { each ...; if (found) break; }] *)
Fixpoint find_parsed (parse : string -> option Z) (page : Page)
         (selectors : list string) : option Z :=
  match selectors with
  | [] => None
  | selector :: selectors' =>
      let found := first_parsed parse (texts page selector) in
      if truthy_number found then found else find_parsed parse page selectors'
  end.

Section Blocks.

(** [parseBongEatsInstructionBlock], which cuts a block of more than
    1000 characters into steps, is left open: its patterns (a lazy
    quantifier, a lookbehind) are outside the matcher above. *)
Variable parseBongEatsInstructionBlock : string -> list Instruction.

Definition parseInstructionBlock (text selector : string) : list Instruction :=
  if includes selector "recipe-process" && (1000 <? String.length text)%nat
  then parseBongEatsInstructionBlock text
  else [ {| number := 1; step := text |} ].

(** What the instruction loop collects for one selector. *)
Definition instructions_of (page : Page) (selector : string) : list Instruction :=
  each (fun (i : nat) raw =>
          let text := trim raw in
          if JsString.truthy text && (15 <? String.length text)%nat
             && negb (SimpleScrapingService.isNavigationText text true)
          then parseInstructionBlock text selector else [])
       (texts page selector).

Definition tryPatternMatching (page : Page) : option ScrapingResult :=
  let title := find_title page titleSelectors in
  let ingredients := ingredient_loop (ingredients_of page) ingredientSelectors [] in
  let instructions := instruction_loop (instructions_of page) instructionSelectors in
  let image := find_image page imageSelectors in
  let readyInMinutes := find_parsed parseTimeFromText page timeSelectors in
  let servings := find_parsed parseServingsFromText page servingSelectors in
  if negb (JsString.truthy title)
     && (List.length ingredients =? 0)%nat
     && (List.length instructions =? 0)%nat
  then None
  else Some {| title := Some (or_else title "Recipe");
               image := image;
               summary := None;
               sourceUrl := "";
               sourceName := Some "";
               readyInMinutes := readyInMinutes;
               servings := servings;
               ingredients := ingredients;
               instructions := instructions |}.

End Blocks.

End SimplePatternMatching.

(* ================================================================== *)
(** ** More of the rendered tier: the site-specific layer *)

Module SiteSpecific.

(** [scrapeAllRecipes].  [rendered] is [$] on the document the browser
    gave for the url, [None] when loading it threw. *)
Definition scrapeAllRecipes (rendered : option (string -> list string)) (url : string)
  : option ScrapingResult :=
  match rendered with
  | None => None
  | Some query =>
      let title := trim (String.concat "" (query ".recipe-summary__h1")) in
      let ingredients :=
        each (fun (i : nat) raw =>
                let text := trim raw in
                if JsString.truthy text then [ingredient_of text] else [])
             (query ".recipe-ingred_txt") in
      let instructions :=
        each (fun (i : nat) raw =>
                let text := trim raw in
                if JsString.truthy text
                then [{| number := Z.of_nat i + 1; step := text |}] else [])
             (query ".recipe-directions__list--item") in
      Some {| title := Some title;
              image := None;
              summary := None;
              sourceUrl := url;
              sourceName := Some "AllRecipes";
              readyInMinutes := None;
              servings := None;
              ingredients := ingredients;
              instructions := instructions |}
  end.

Definition scrapeFoodCom (url : string) : option ScrapingResult := None.

Definition scrapeEpicurious (url : string) : option ScrapingResult := None.

(** [trySiteSpecificScraping]: the [switch] on the domain of the url. *)
Definition trySiteSpecificScraping (extractDomain : string -> string)
           (rendered : option (string -> list string)) (url : string)
  : option ScrapingResult :=
  let domain := extractDomain url in
  if String.eqb domain "allrecipes.com" then scrapeAllRecipes rendered url
  else if String.eqb domain "food.com" then scrapeFoodCom url
  else if String.eqb domain "epicurious.com" then scrapeEpicurious url
  else None.

End SiteSpecific.

(* ================================================================== *)
(** ** More of the job orchestrator: the history of jobs *)

Module JobHistory.
Import ScrapingController.

Record Pagination : Type := mkPagination {
  currentPage : Z;
  totalPages : Z;
  totalCount : Z;
  hasNextPage : bool;
  hasPreviousPage : bool
}.

Record History : Type := mkHistory {
  jobs : list ScrapedUrl;
  pagination : Pagination
}.

(** [parseInt(field) || fallback] for a query parameter, [None] when the
    request does not have it. *)
Definition int_or (field : option string) (fallback : Z) : Z :=
  match field with
  | Some s =>
      match parseInt s with
      | Some z => if (z =? 0)%Z then fallback else z
      | None => fallback
      end
  | None => fallback
  end.

(** [where]: the rows of the given status, all rows when the request
    names none. *)
Definition matches (statusField : option string) (j : ScrapedUrl) : bool :=
  match statusField with
  | Some s => if JsString.truthy s then String.eqb (status j) s else true
  | None => true
  end.

(** [orderBy: { scrapedAt: 'desc' }]: latest first.  The store leaves
    the order of rows of the same date open; here they stay in table
    order, and what is stated of the order of the answer is stated for
    rows of distinct dates, where this is the only order latest
    first. *)
Fixpoint insert_desc (j : ScrapedUrl) (l : list ScrapedUrl) : list ScrapedUrl :=
  match l with
  | [] => [j]
  | x :: l' => if (scrapedAt j <? scrapedAt x)%Z then x :: insert_desc j l'
               else j :: l
  end.

Definition latest_first (l : list ScrapedUrl) : list ScrapedUrl :=
  fold_right insert_desc [] l.

(** [Math.ceil(a / b)] for a positive [b]. *)
Definition ceil_div (a b : Z) : Z := ((a + b - 1) / b)%Z.

(** [getScrapingHistory]: the fields are [req.query.page],
    [req.query.limit] and [req.query.status]. *)
Definition getScrapingHistory (pageField limitField statusField : option string)
           (w : World) : History * World :=
  let page := int_or pageField 1 in
  let limit := int_or limitField 20 in
  let skip := ((page - 1) * limit)%Z in
  let found := latest_first (filter (matches statusField) (scrapedUrls (db w))) in
  let scrapingJobs := firstn (Z.to_nat limit) (skipn (Z.to_nat skip) found) in
  let totalCount := Z.of_nat (List.length (filter (matches statusField)
                                                  (scrapedUrls (db w)))) in
  let totalPages := ceil_div totalCount limit in
  ({| jobs := scrapingJobs;
      pagination := {| currentPage := page;
                       totalPages := totalPages;
                       totalCount := totalCount;
                       hasNextPage := (page <? totalPages)%Z;
                       hasPreviousPage := (1 <? page)%Z |} |}, w).

(** A query parameter as a client of the history gives it: absent, or
    at most four decimal digits. *)
Definition plain_number (field : option string) : Prop :=
  match field with
  | Some s => all_chars is_digit s = true /\ (String.length s <= 4)%nat
  | None => True
  end.

End JobHistory.

(* ================================================================== *)
(** ** Notions used to state further properties *)

(** The steps that the loops of [tryMicrodataExtraction] and of the
    rendered [tryPatternMatching] push for a selection: for each
    element whose trimmed text has more than 10 characters, that text
    under the element's position counted from 1. *)
Definition long_steps (els : list string) : list Instruction :=
  each (fun (i : nat) raw =>
          let text := trim raw in
          if JsString.truthy text && (10 <? String.length text)%nat
          then [{| number := Z.of_nat i + 1; step := text |}] else [])
       els.

(** The ingredient records that the same loops push for a selection:
    one for each element whose trimmed text has more than 2 characters. *)
Definition ingredient_lines (els : list string) : list Ingredient :=
  each (fun (i : nat) raw =>
          let text := trim raw in
          if JsString.truthy text && (2 <? String.length text)%nat
          then [ingredient_of text] else [])
       els.

(** [sel] is the first of [selectors] for which [collect] gives
    something. *)
Definition first_yielding {A : Type} (collect : string -> list A)
           (selectors : list string) (sel : string) : Prop :=
  exists before after,
    selectors = before ++ sel :: after
    /\ (forall s, In s before -> collect s = [])
    /\ collect sel <> [].

(** An ingredient record as every strategy builds it from the line
    [line]: the line is kept as [original], the amount is neither 0 nor
    [NaN], and the name is empty only if the line is. *)
Definition well_formed_ingredient (line : string) (ing : Ingredient) : Prop :=
  original ing = Some line
  /\ JsNumber.truthy (amount ing) = true
  /\ (line <> "" -> name ing <> "").

Definition non_digit (c : ascii) : bool := negb (is_digit c).

(** A character other than the period. *)
Definition not_period (c : ascii) : bool := negb (Ascii.eqb c ".").

(** The no-break space (U+00A0). *)
Definition nbsp : string := String (ascii_of_nat 160) EmptyString.

(** The string with the given code units. *)
Definition of_codes (codes : list nat) : string :=
  fold_right (fun n s => String (ascii_of_nat n) s) EmptyString codes.

(** Accented text: ['S\u00FC\u00DFes \u00D6l'] of 8 characters,
    ['caf\u00E9 caf\u00E9'] of 9 and ['R\u00F4tir \u00E0 200 \u00B0C.']
    of 15. *)
Definition suesses_oel : string := of_codes [83; 252; 223; 101; 115; 32; 214; 108]%nat.

Definition cafe_cafe : string := of_codes [99; 97; 102; 233; 32; 99; 97; 102; 233]%nat.

Definition rotir : string :=
  of_codes [82; 244; 116; 105; 114; 32; 224; 32; 50; 48; 48; 32; 176; 67; 46]%nat.

(** A fetched page whose recipe heading holds a no-break space only,
    with one ingredient and the step [rotir]. *)
Definition nbsp_heading_page : SimplePatternMatching.Page :=
  {| SimplePatternMatching.texts := fun selector =>
       if String.eqb selector "h1.recipe-title" then [nbsp]
       else if String.eqb selector ".ingredients li" then ["2 cups flour"]
       else if String.eqb selector ".instructions li" then [rotir]
       else [];
     SimplePatternMatching.images := fun _ => [] |}.

(** A recipe element whose name is a no-break space, without
    ingredients, with two instructions of 8 and of 9 characters after
    trimming. *)
Definition blank_microdata : SimpleScrapingService.MicrodataSelection :=
  {| SimpleScrapingService.ms_name := nbsp;
     SimpleScrapingService.ms_imageSrc := None;
     SimpleScrapingService.ms_description := "";
     SimpleScrapingService.ms_ingredients := [];
     SimpleScrapingService.ms_instructions :=
       [suesses_oel; ("Mix well." ++ nbsp ++ nbsp)%string];
     SimpleScrapingService.ms_totalTime := "";
     SimpleScrapingService.ms_recipeYield := "" |}.

(** The same element with an instruction of 15 characters. *)
Definition untitled_microdata : SimpleScrapingService.MicrodataSelection :=
  {| SimpleScrapingService.ms_name := nbsp;
     SimpleScrapingService.ms_imageSrc := None;
     SimpleScrapingService.ms_description := "";
     SimpleScrapingService.ms_ingredients := [];
     SimpleScrapingService.ms_instructions := [suesses_oel; rotir];
     SimpleScrapingService.ms_totalTime := "";
     SimpleScrapingService.ms_recipeYield := "" |}.

(** A fetched page whose first title selector selects a no-break
    space and whose fourth selects two names. *)
Definition named_page : SimplePatternMatching.Page :=
  {| SimplePatternMatching.texts := fun selector =>
       if String.eqb selector "h1.recipe-title" then [nbsp]
       else if String.eqb selector ".recipe-name"
       then [(nbsp ++ " Omelette ")%string; "Pancakes"]
       else [];
     SimplePatternMatching.images := fun _ => [] |}.

(** A rendered AllRecipes page with three direction items: a no-break
    space, a step that ends in one, and a step. *)
Definition padded_directions (selector : string) : list string :=
  if String.eqb selector ".recipe-directions__list--item"
  then [nbsp; ("Mix well." ++ nbsp)%string; "Bake."]
  else [].

(** A rendered page whose first instruction selector selects one item
    of 9 characters followed by two no-break spaces, and whose second
    selects a step. *)
Definition padded_query (selector : string) : list string :=
  if String.eqb selector ".instructions li" then [("Mix well." ++ nbsp ++ nbsp)%string]
  else if String.eqb selector ".directions li" then ["Whisk the eggs with the sugar."]
  else [].

(** The texts of a page whose only heading is a no-break space. *)
Definition nbsp_heading_texts : Heuristics.PageTexts :=
  {| Heuristics.headings := [nbsp];
     Heuristics.textNodes := [];
     Heuristics.blocks := ["Mix the flour with the eggs and bake for an hour."] |}.

(** The step that [parseJsonLdRecipe] makes of an entry of
    [recipeInstructions]: [typeof instruction === 'string' ? instruction
    : instruction.text || instruction.name || ''], trimmed. *)
Definition step_of_instruction (instruction : SimpleScrapingService.JsonInstruction)
           (st : Instruction) : Prop :=
  match instruction with
  | SimpleScrapingService.InstrString s => step st = trim s
  | SimpleScrapingService.InstrObject text name =>
      match text with
      | Some t => (t <> "" -> step st = trim t)
                  /\ (t = "" -> step st = trim match name with Some n => n | None => "" end)
      | None => step st = trim match name with Some n => n | None => "" end
      end
  end.

(** A [Recipe] object with two instructions: a string padded with
    spaces and a no-break space, and an object with an empty [text]
    and a [name]. *)
Definition two_steps_recipe : SimpleScrapingService.JsonLdRecipe :=
  {| SimpleScrapingService.ld_name := Some "Omelette";
     SimpleScrapingService.ld_image := None;
     SimpleScrapingService.ld_description := None;
     SimpleScrapingService.ld_totalTime := None;
     SimpleScrapingService.ld_cookTime := None;
     SimpleScrapingService.ld_prepTime := None;
     SimpleScrapingService.ld_recipeYield := None;
     SimpleScrapingService.ld_recipeIngredient := None;
     SimpleScrapingService.ld_recipeInstructions :=
       Some [ SimpleScrapingService.InstrString ("  Whisk the eggs." ++ nbsp)%string;
              SimpleScrapingService.InstrObject (Some "") (Some "Fry in butter.") ] |}.

(** A candidate with a title and one step. *)
Definition one_step_candidate : ScrapingResult :=
  {| title := Some "Cake"; image := None; summary := None; sourceUrl := "";
     sourceName := None; readyInMinutes := None; servings := None;
     ingredients := [];
     instructions := [ {| number := 1; step := "Bake for an hour." |} ] |}.

(** The first element that [selector] selects on [page], if any, has no
    text. *)
Definition first_text_empty (page : SimplePatternMatching.Page) (selector : string) : Prop :=
  match SimplePatternMatching.texts page selector with
  | element :: _ => trim element = ""
  | [] => True
  end.

(** A fetched page with two list items under [.ingredients li], two
    under [.instructions li] and an icon as its only image. *)
Definition two_by_two_page : SimplePatternMatching.Page :=
  {| SimplePatternMatching.texts := fun selector =>
       if String.eqb selector ".ingredients li" then ["2 cups flour"; "3 eggs"]
       else if String.eqb selector ".ingredients ul li" then ["2 cups flour"; "3 eggs"]
       else if String.eqb selector ".instructions li"
       then ["Whisk the eggs with the sugar until pale.";
             "Fold in the flour and bake for an hour."]
       else [];
     SimplePatternMatching.images := fun selector =>
       if String.eqb selector ".recipe-image img"
       then [ {| SimplePatternMatching.attr_src := Some "/img/clock.SVG";
                 SimplePatternMatching.attr_data_src := None |} ]
       else [] |}.

(** A block parser that finds no step. *)
Definition no_steps (text : string) : list Instruction := [].

(** A store with three jobs, written at the dates 1, 3 and 2, the
    second of which failed. *)
Definition three_jobs_world : ScrapingController.World :=
  let job (i u st : string) (at_ : Z) :=
    {| ScrapingController.id := i;
       ScrapingController.url := u;
       ScrapingController.status := st;
       ScrapingController.retryCount := 0;
       ScrapingController.errorMessage := None;
       ScrapingController.recipeId := None;
       ScrapingController.scrapedAt := at_;
       ScrapingController.updatedAt := at_ |} in
  {| ScrapingController.db :=
       {| ScrapingController.scrapedUrls :=
            [ job "job0" "https://example.com/a" "processing" 1%Z;
              job "job1" "https://example.com/b" "failed" 3%Z;
              job "job2" "https://example.com/c" "processing" 2%Z ];
          ScrapingController.recipes := [];
          ScrapingController.idCounter := 3 |};
     ScrapingController.events := [] |}.

(** The query parameter [page] for the page [p] of at most 3. *)
Definition page_field (p : nat) : option string :=
  match p with
  | 1 => Some "1"
  | 2 => Some "2"
  | _ => Some "3"
  end%nat.

(* ================================================================== *)
(** * Properties *)

(** ** Strings and the matcher *)

Module MatcherFacts.
Local Open Scope string_scope.

Lemma substring_none (n : nat) (s : string) : substring n 0 s = "".
Proof.
  revert s. induction n as [|n IH]; intros [|c s]; simpl; auto.
Qed.

Lemma str_length_app (a b : string) : String.length (a ++ b) = (String.length a + String.length b)%nat.
Proof. induction a; simpl; auto. Qed.


Lemma repeat_class_greedy (p : ascii -> bool)
      (body : (mstate -> option mstate) -> mstate -> option mstate)
      (k : mstate -> option mstate)
      (x : mstate) (d : string) :
  class_step p body ->
  forall (tl : string) (s : mstate) (fuel lo : nat),
    rest s = d ++ tl ->
    all_chars p d = true ->
    stops p tl = true ->
    (lo <= String.length d)%nat ->
    (String.length d < fuel)%nat ->
    k (moved d tl s) = Some x ->
    repeat_loop body k fuel lo None s = Some x.
Proof.
  intro Hbody.
  induction d as [|c d IH]; intros tl s fuel lo Hrest Hall Hstop Hlo Hfuel Hk.
  - destruct fuel as [|fuel]; [simpl in Hfuel; lia|].
    simpl in Hlo. assert (lo = 0)%nat by lia. subst lo.
    simpl in Hrest. cbn [repeat_loop Nat.eqb]. rewrite Hbody, Hrest.
    assert (Hs : moved "" tl s = s).
    { destruct s as [pv rs cs]. unfold moved. simpl in *. subst. reflexivity. }
    rewrite Hs in Hk.
    destruct tl as [|c tl]; simpl in Hstop |- *.
    + exact Hk.
    + apply negb_true_iff in Hstop. rewrite Hstop. exact Hk.
  - destruct fuel as [|fuel]; [simpl in Hfuel; lia|].
    simpl in Hall. apply andb_true_iff in Hall as [Hc Hall].
    simpl in Hrest. cbn [repeat_loop]. rewrite Hbody, Hrest, Hc.
    assert (Hlen : (String.length (rest (advance c (d ++ tl) s))
                    =? String.length (String c (d ++ tl)))%nat = false).
    { apply Nat.eqb_neq. simpl. lia. }
    rewrite Hlen, andb_false_r. cbn [option_map].
    rewrite (IH tl (advance c (d ++ tl) s) fuel (Nat.pred lo)); try assumption.
    + reflexivity.
    + reflexivity.
    + simpl in Hlo. lia.
    + simpl in Hfuel. lia.
Qed.

Lemma run_plus_class (icase : bool) (p : ascii -> bool) (k : mstate -> option mstate)
      (x : mstate) (d tl : string) (s : mstate) :
  rest s = d ++ tl -> d <> "" ->
  all_chars p d = true -> stops p tl = true ->
  k (moved d tl s) = Some x ->
  run icase (Plus (Class p)) k s = Some x.
Proof.
  intros Hrest Hd Hall Hstop Hk. unfold Plus. cbn [run].
  apply (repeat_class_greedy p (run icase (Class p)) k x d) with (tl := tl);
    try assumption.
  - intros k0 s0. reflexivity.
  - destruct d; [contradiction|simpl; lia].
  - rewrite Hrest, str_length_app. lia.
Qed.

Lemma run_star_class (icase : bool) (p : ascii -> bool) (k : mstate -> option mstate)
      (x : mstate) (d tl : string) (s : mstate) :
  rest s = d ++ tl ->
  all_chars p d = true -> stops p tl = true ->
  k (moved d tl s) = Some x ->
  run icase (Star (Class p)) k s = Some x.
Proof.
  intros Hrest Hall Hstop Hk. unfold Star. cbn [run].
  apply (repeat_class_greedy p (run icase (Class p)) k x d) with (tl := tl);
    try assumption.
  - intros k0 s0. reflexivity.
  - lia.
  - rewrite Hrest, str_length_app. lia.
Qed.

(** An optional part that matches. *)
Lemma run_opt_take (icase : bool) (r : regex) (k : mstate -> option mstate)
      (x : mstate) (s : mstate) :
  rest s <> "" ->
  run icase r (fun s' => if (String.length (rest s') =? String.length (rest s))%nat
                         then None else k s') s = Some x ->
  run icase (Opt r) k s = Some x.
Proof.
  intros Hne H. unfold Opt. cbn [run].
  assert (Hn : exists n, (0 + String.length (rest s))%nat = S n).
  { destruct (rest s); [contradiction|]. simpl. eauto. }
  destruct Hn as [n Hn]. rewrite Hn.
  cbn [repeat_loop Nat.eqb andb option_map Nat.pred].
  rewrite H. reflexivity.
Qed.

(** An optional part that does not match. *)
Lemma run_opt_skip (icase : bool) (r : regex) (k : mstate -> option mstate) (s : mstate) :
  (forall k', run icase r k' s = None) ->
  run icase (Opt r) k s = k s.
Proof.
  intros H. unfold Opt. cbn [run]. cbn [Nat.add repeat_loop Nat.eqb].
  rewrite H. reflexivity.
Qed.

Lemma substring_prefix (d tl : string) :
  substring 0 (String.length (d ++ tl) - String.length tl) (d ++ tl) = d.
Proof.
  rewrite str_length_app, Nat.add_sub.
  induction d as [|c d IH]; simpl.
  - destruct tl; reflexivity.
  - rewrite IH. reflexivity.
Qed.

Lemma all_digits_chars (a : string) :
  all_digits a = true -> all_chars is_digit a = true /\ a <> "".
Proof.
  unfold all_digits. rewrite andb_true_iff. intros [Ht He]. apply String.eqb_eq in He.
  split; [|destruct a; [discriminate|discriminate]].
  clear Ht. induction a as [|c a IH]; [reflexivity|].
  simpl in He |- *. destruct (is_digit c); [|discriminate].
  injection He as He. rewrite (IH He). reflexivity.
Qed.

Lemma str_app_assoc (a b c : string) : (a ++ b) ++ c = a ++ (b ++ c).
Proof. induction a as [|x a IH]; simpl; [reflexivity|]. rewrite IH. reflexivity. Qed.

Lemma str_app_nil_r (a : string) : a ++ "" = a.
Proof. induction a as [|x a IH]; simpl; [reflexivity|]. rewrite IH. reflexivity. Qed.

Lemma consumed_prefix (d : string) (s s' : mstate) :
  rest s = d ++ rest s' -> consumed s s' = d.
Proof. intro H. unfold consumed. rewrite H. apply substring_prefix. Qed.

Lemma shorter_suffix (c : ascii) (d tl : string) :
  (String.length tl =? String.length (String c (d ++ tl)))%nat = false.
Proof. apply Nat.eqb_neq. simpl. rewrite str_length_app. lia. Qed.

Lemma shorter_suffix' (d tl : string) :
  d <> "" -> (String.length tl =? String.length (d ++ tl))%nat = false.
Proof.
  intro H. destruct d as [|c d]; [contradiction|]. apply Nat.eqb_neq.
  simpl. rewrite str_length_app. lia.
Qed.

Lemma alpha_not_space (c : ascii) : is_alpha c = true -> is_space c = false.
Proof.
  destruct c as [[|] [|] [|] [|] [|] [|] [|] [|]]; vm_compute; intro H;
    solve [reflexivity | discriminate H].
Qed.

Lemma stops_app (p q : ascii -> bool) (u tl : string) :
  u <> "" -> all_chars q u = true ->
  (forall c, q c = true -> p c = false) ->
  stops p (u ++ tl) = true.
Proof.
  intros Hu Hq Hpq. destruct u as [|c u]; [contradiction|].
  simpl in Hq |- *. apply andb_true_iff in Hq as [Hc _].
  rewrite (Hpq c Hc). reflexivity.
Qed.

Lemma search_hit (icase : bool) (r : regex) (p : option ascii) (s : string)
      (i : nat) (m : result) :
  match_at icase r p s i = Some m -> search icase r p s i = Some m.
Proof. intro H. destruct s; simpl; rewrite H; reflexivity. Qed.


Lemma exec_ingredient_fraction (a b u n : string) :
  all_digits a = true -> all_digits b = true ->
  u <> "" -> all_chars is_alpha u = true ->
  n <> "" -> all_chars no_terminator n = true -> stops is_space n = true ->
  exists m,
    exec ingredient_re (a ++ "/" ++ b ++ " " ++ u ++ " " ++ n) = Some m
    /\ group 1 m = Some (a ++ "/" ++ b)
    /\ group 2 m = Some u
    /\ group 3 m = Some n.
Proof.
  intros Ha Hb Hu Hul Hn Hnl Hns.
  apply all_digits_chars in Ha as [Ha Hane], Hb as [Hb Hbne].
  set (line := a ++ "/" ++ b ++ " " ++ u ++ " " ++ n).
  set (s0 := {| prev := None; rest := line; caps := [] |}).
  assert (Hrun : exists p, run false ingredient_re Some s0
     = Some {| prev := p; rest := "";
               caps := [(3%nat, n); (2%nat, u); (1%nat, a ++ "/" ++ b)] |}).
  { eexists. unfold ingredient_re, Cat. cbn [run prev s0].
    unfold digit. eapply (run_plus_class false is_digit) with (d := a) (tl := "/" ++ b ++ " " ++ u ++ " " ++ n);
      [reflexivity | assumption | assumption | reflexivity | ].
    apply run_opt_take; [discriminate|].
    cbn [run rest moved append char_eq]. rewrite Ascii.eqb_refl.
    eapply (run_plus_class false is_digit) with (d := b) (tl := " " ++ u ++ " " ++ n);
      [reflexivity | assumption | assumption | reflexivity | ].
    cbn [rest moved advance]. rewrite shorter_suffix.
    rewrite run_opt_skip by (intro k'; reflexivity).
    unfold space.
    eapply (run_star_class false is_space) with (d := " ") (tl := u ++ " " ++ n);
      [reflexivity | reflexivity | | ].
    { apply (stops_app is_space is_alpha); [assumption|assumption|apply alpha_not_space]. }
    apply run_opt_take.
    { cbn [rest moved]. destruct u; [contradiction|discriminate]. }
    cbn [run]. unfold letter.
    eapply (run_plus_class false is_alpha) with (d := u) (tl := " " ++ n);
      [reflexivity | assumption | assumption | reflexivity | ].
    cbn [rest moved set_cap]. rewrite (shorter_suffix' u (" " ++ n) Hu).
    eapply (run_plus_class false is_space) with (d := " ") (tl := n);
      [reflexivity | discriminate | reflexivity | assumption | ].
    unfold any.
    eapply (run_plus_class false no_terminator) with (d := n) (tl := "");
      [cbn [rest moved]; symmetry; apply str_app_nil_r | assumption | assumption | reflexivity | ].
    cbn [rest moved set_cap prev caps].
    rewrite !consumed_prefix with (d := n) by (cbn [rest]; symmetry; apply str_app_nil_r).
    rewrite !consumed_prefix with (d := u) by reflexivity.
    rewrite !consumed_prefix with (d := a ++ "/" ++ b)
      by (cbn [rest moved s0]; unfold line; rewrite str_app_assoc; reflexivity).
    reflexivity. }
  destruct Hrun as [p Hrun].
  eexists. split.
  - unfold exec. apply search_hit. unfold match_at. fold s0. rewrite Hrun. reflexivity.
  - cbn [groups group lookup Nat.eqb]. repeat split.
Qed.

Lemma run_plus_class_fail (icase : bool) (p : ascii -> bool)
      (k : mstate -> option mstate) (s : mstate) :
  stops p (rest s) = true -> run icase (Plus (Class p)) k s = None.
Proof.
  intro H. unfold Plus. cbn [run repeat_loop Nat.add Nat.eqb].
  destruct (rest s) as [|c t]; [reflexivity|].
  simpl in H. apply negb_true_iff in H. rewrite H. reflexivity.
Qed.

(** A pattern that starts with [^] matches nowhere but at the start. *)
Lemma search_bol_later (icase : bool) (r : regex) (s : string) :
  forall (c : ascii) (i : nat), search icase (Seq Bol r) (Some c) s i = None.
Proof.
  induction s as [|d s IH]; intros c i; [reflexivity|].
  cbn [search match_at run prev]. apply IH.
Qed.

Lemma exec_ingredient_no_leading_digit (line : string) :
  stops is_digit line = true -> exec ingredient_re line = None.
Proof.
  intro H. unfold exec, ingredient_re, Cat.
  assert (H0 : match_at false
                 (Seq Bol
                    (Seq (Group 1
                            (Seq (Plus digit)
                               (Seq (Opt (Seq (Lit "/") (Plus digit)))
                                    (Opt (Seq (Lit ".") (Plus digit))))))
                       (Seq (Star space)
                          (Seq (Opt (Group 2 (Plus letter)))
                             (Seq (Plus space) (Seq (Group 3 (Plus any)) Eol))))))
                 None line 0 = None).
  { unfold match_at. cbn [run prev]. unfold digit.
    rewrite run_plus_class_fail by exact H. reflexivity. }
  destruct line as [|c line]; cbn [search]; rewrite H0; [reflexivity|].
  apply search_bol_later.
Qed.

Lemma parseTime_PT_no_component (tl : string) :
  stops is_digit tl = true -> parseTime (Some ("PT" ++ tl)) = Some 0%Z.
Proof.
  intro H. unfold parseTime. cbn [append JsString.truthy negb startsWith Ascii.eqb Bool.eqb andb].
  assert (Hm : exec iso_duration_re ("PT" ++ tl)
               = Some {| index := 0; matched := "PT"; groups := [] |}).
  { unfold exec. apply search_hit. unfold match_at, iso_duration_re, Cat.
    cbn [run Str rest append char_eq Ascii.eqb Bool.eqb advance caps].
    rewrite run_opt_skip.
    2:{ intro k'. cbn [run]. unfold digit. apply run_plus_class_fail. exact H. }
    rewrite run_opt_skip.
    2:{ intro k'. cbn [run]. unfold digit. apply run_plus_class_fail. exact H. }
    unfold consumed. cbn [rest caps advance String.length].
    replace (S (S (String.length tl)) - String.length tl)%nat with 2%nat by lia.
    cbn [substring]. rewrite substring_none. reflexivity. }
  cbn [append] in Hm. rewrite Hm.
  replace (startsWith tl "") with true by (destruct tl; reflexivity).
  reflexivity.
Qed.

Lemma moved_nil (tl : string) (s : mstate) : rest s = tl -> moved "" tl s = s.
Proof. intros <-. destruct s. reflexivity. Qed.

Lemma run_str_hit (w : string) :
  forall (post : string) (k : mstate -> option mstate) (s : mstate),
    rest s = w ++ post -> run false (Str w) k s = k (moved w post s).
Proof.
  induction w as [|c w IH]; intros post k s H.
  - simpl in H. cbn [Str run]. rewrite (moved_nil post s H). reflexivity.
  - simpl in H. destruct w as [|c' w].
    + cbn [Str run]. rewrite H. cbn [char_eq]. rewrite Ascii.eqb_refl. reflexivity.
    + change (Str (String c (String c' w))) with (Seq (Lit c) (Str (String c' w))).
      cbn [run]. rewrite H. cbn [char_eq]. rewrite Ascii.eqb_refl.
      rewrite (IH post k (advance c (String c' w ++ post) s)) by reflexivity.
      reflexivity.
Qed.

Lemma run_str_inv (w : string) :
  forall (k : mstate -> option mstate) (s x : mstate),
    run false (Str w) k s = Some x -> exists post, rest s = w ++ post.
Proof.
  induction w as [|c w IH]; intros k s x H.
  - exists (rest s). reflexivity.
  - destruct w as [|c' w].
    + cbn [Str run] in H. destruct (rest s) as [|d t]; [discriminate|].
      cbn [char_eq] in H. destruct (Ascii.eqb_spec c d) as [->|]; [|discriminate].
      exists t. reflexivity.
    + change (Str (String c (String c' w))) with (Seq (Lit c) (Str (String c' w))) in H.
      cbn [run] in H. destruct (rest s) as [|d t]; [discriminate|].
      cbn [char_eq] in H. destruct (Ascii.eqb_spec c d) as [->|]; [|discriminate].
      apply IH in H as [post H]. cbn [rest advance] in H. exists post.
      rewrite H. reflexivity.
Qed.

Lemma search_inv (icase : bool) (r : regex) (s : string) :
  forall (p : option ascii) (i : nat) (m : result),
    search icase r p s i = Some m ->
    exists pre post j,
      s = pre ++ post /\ match_at icase r (last_char pre p) post j = Some m.
Proof.
  induction s as [|c s IH]; intros p i m H; cbn [search] in H.
  - destruct (match_at icase r p "" i) eqn:E; [|discriminate].
    injection H as <-. exists "", "", i. split; [reflexivity|exact E].
  - destruct (match_at icase r p (String c s) i) eqn:E.
    + injection H as <-. exists "", (String c s), i. split; [reflexivity|exact E].
    + apply IH in H as [pre [post [j [Hs Hm]]]].
      exists (String c pre), post, j. split; [simpl; rewrite Hs; reflexivity|exact Hm].
Qed.

Lemma search_complete (icase : bool) (r : regex) (pre : string) :
  forall (post : string) (p : option ascii) (i j : nat),
    match_at icase r (last_char pre p) post j <> None ->
    search icase r p (pre ++ post) i <> None.
Proof.
  induction pre as [|c pre IH]; intros post p i j H.
  - simpl in *. destruct post; cbn [search].
    + unfold match_at in *. destruct (run icase r Some _); [discriminate|contradiction].
    + unfold match_at in *. destruct (run icase r Some _); [discriminate|contradiction].
  - simpl. cbn [search]. destruct (match_at icase r p (String c (pre ++ post)) i);
      [discriminate|]. apply (IH post (Some c) (S i) j). exact H.
Qed.


Lemma word_before_moved (w post : string) (s : mstate) :
  w <> "" ->
  word_before (moved w post s)
  = match last_char w None with Some c => is_word c | None => false end.
Proof.
  intro H. unfold word_before, moved. cbn [prev].
  destruct w as [|c w]; [contradiction|]. reflexivity.
Qed.

Lemma word_after_app (w post : string) (p : option ascii) (cs : list (nat * string)) :
  w <> "" ->
  word_after {| prev := p; rest := w ++ post; caps := cs |}
  = match w with String c _ => is_word c | EmptyString => false end.
Proof. intro H. destruct w; [contradiction|reflexivity]. Qed.

(** Where a navigation pattern matches: at a word that stands between
    two word boundaries. *)
Lemma nav_pattern_match_at (w : string) (pre s : string) (i : nat) :
  word_edged w = true ->
  (match_at false (SimpleScrapingService.nav_pattern w) (last_char pre None) s i <> None
   <-> exists post, s = w ++ post /\ ends_nonword pre = true /\ stops is_word post = true).
Proof.
  intro Hw. unfold word_edged in Hw. apply andb_true_iff in Hw as [Hfirst Hlast].
  assert (Hne : w <> "") by (destruct w; [discriminate|discriminate]).
  set (s0 := {| prev := last_char pre None; rest := s; caps := [] |}).
  assert (Hmatch : match_at false (SimpleScrapingService.nav_pattern w) (last_char pre None) s i <> None
                   <-> run false (SimpleScrapingService.nav_pattern w) Some s0 <> None).
  { unfold match_at. fold s0. destruct (run false (SimpleScrapingService.nav_pattern w) Some s0);
      split; intro H; try discriminate; exfalso; apply H; reflexivity. }
  rewrite Hmatch. clear Hmatch.
  unfold SimpleScrapingService.nav_pattern, Cat. cbn [run].
  split.
  - intro H.
    destruct (xorb (word_before s0) (word_after s0)) eqn:Hx; [|contradiction].
    destruct (run false (Str w) (run false WordB Some) s0) as [x|] eqn:Hr; [|contradiction].
    destruct (run_str_inv w _ s0 x Hr) as [post Hpost].
    rewrite (run_str_hit w post _ s0 Hpost) in Hr. cbn [run] in Hr.
    rewrite (word_before_moved w post s0 Hne), Hlast in Hr.
    cbn [rest s0] in Hpost. subst s.
    unfold s0 in Hx. rewrite (word_after_app w post _ _ Hne), Hfirst in Hx.
    exists post. split; [reflexivity|]. split.
    + unfold ends_nonword. unfold word_before in Hx. cbn [prev] in Hx.
      destruct (last_char pre None); [|reflexivity].
      destruct (is_word a); [discriminate|reflexivity].
    + unfold word_after, moved in Hr. cbn [rest] in Hr.
      destruct post as [|c post]; [reflexivity|]. simpl.
      destruct (is_word c); [discriminate|reflexivity].
  - intros [post [-> [Hpre Hpost]]].
    assert (Hb : word_before s0 = false).
    { unfold word_before, s0. cbn [prev]. unfold ends_nonword in Hpre.
      destruct (last_char pre None); [apply negb_true_iff in Hpre; exact Hpre|reflexivity]. }
    assert (Ha : word_after s0 = true).
    { unfold s0. rewrite (word_after_app w post _ _ Hne). exact Hfirst. }
    rewrite Hb, Ha. cbn [xorb].
    rewrite (run_str_hit w post) by reflexivity. cbn [run].
    rewrite (word_before_moved w post _ Hne), Hlast.
    unfold word_after, moved. cbn [rest].
    destruct post as [|c post]; [discriminate|].
    simpl in Hpost. apply negb_true_iff in Hpost. rewrite Hpost. discriminate.
Qed.

Lemma navWords_edged : forallb word_edged SimpleScrapingService.navWords = true.
Proof. vm_compute. reflexivity. Qed.

(** The navigation test holds exactly when one of the navigation words
    occurs in the lower-cased text between two word boundaries. *)
Lemma hasNavKeywords_whole_word (text : string) :
  SimpleScrapingService.hasNavKeywords text = true <->
  exists w, In w SimpleScrapingService.navWords /\ whole_word_in w (toLowerCase text).
Proof.
  unfold SimpleScrapingService.hasNavKeywords, whole_word_in.
  set (lower := toLowerCase text).
  assert (Htest : forall w, In w SimpleScrapingService.navWords ->
            (test (SimpleScrapingService.nav_pattern w) lower = true <->
             exists pre post, lower = pre ++ w ++ post
                              /\ ends_nonword pre = true /\ stops is_word post = true)).
  { intros w Hin.
    assert (Hw : word_edged w = true)
      by (exact (proj1 (forallb_forall _ _) navWords_edged w Hin)).
    unfold test, exec. split.
    - destruct (search false (SimpleScrapingService.nav_pattern w) None lower 0) as [m|] eqn:E; [|discriminate].
      intros _. apply search_inv in E as [pre [post0 [j [Hs Hm]]]].
      assert (Hm' : match_at false (SimpleScrapingService.nav_pattern w) (last_char pre None) post0 j <> None)
        by (rewrite Hm; discriminate).
      apply (nav_pattern_match_at w pre post0 j Hw) in Hm' as [post [-> [Hp Hq]]].
      exists pre, post. auto.
    - intros [pre [post [Hs [Hp Hq]]]].
      assert (Hm : match_at false (SimpleScrapingService.nav_pattern w) (last_char pre None) (w ++ post) 0 <> None)
        by (apply (nav_pattern_match_at w pre (w ++ post) 0 Hw); eauto).
      pose proof (search_complete false (SimpleScrapingService.nav_pattern w) pre (w ++ post) None 0 0 Hm) as Hc.
      rewrite <- Hs in Hc.
      destruct (search false (SimpleScrapingService.nav_pattern w) None lower 0); [reflexivity|contradiction]. }
  split.
  - destruct (find (fun pattern => test pattern lower) SimpleScrapingService.navPatterns) as [pat|] eqn:E;
      [|discriminate].
    intros _. apply find_some in E as [Hin Ht].
    unfold SimpleScrapingService.navPatterns in Hin. apply in_map_iff in Hin as [w [<- Hin]].
    exists w. split; [exact Hin|]. apply (Htest w Hin). exact Ht.
  - intros [w [Hin Hocc]].
    destruct (find (fun pattern => test pattern lower) SimpleScrapingService.navPatterns) as [pat|] eqn:E;
      [reflexivity|].
    pose proof (find_none _ _ E (SimpleScrapingService.nav_pattern w)) as Hn.
    assert (Hp : In (SimpleScrapingService.nav_pattern w) SimpleScrapingService.navPatterns)
      by (unfold SimpleScrapingService.navPatterns; apply in_map_iff; exists w; split; [reflexivity|exact Hin]).
    specialize (Hn Hp). cbv beta in Hn.
    rewrite (proj2 (Htest w Hin) Hocc) in Hn. discriminate.
Qed.

End MatcherFacts.

Import MatcherFacts.

(** ** The validity gate *)

Lemma nonempty_length {A : Type} (l : list A) :
  (0 <? List.length l)%nat = true <-> l <> [].
Proof.
  destruct l as [|x l]; simpl; split; intro H; try congruence; try reflexivity.
  discriminate.
Qed.

Lemma truthy_opt_present (r : ScrapingResult) :
  truthy_opt (title r) = true <-> title_present r.
Proof.
  unfold title_present. split.
  - destruct (title r) as [t|]; simpl; [|discriminate].
    destruct t; simpl; [discriminate|]. intros _. eexists; split; [reflexivity|discriminate].
  - intros [t [-> Ht]]. destruct t; [contradiction|reflexivity].
Qed.

(** The gate of the lightweight tier is the rule of the specification. *)
Lemma isValidResult_gate_rule (r : ScrapingResult) :
  SimpleScrapingService.isValidResult r = true <-> gate_rule r.
Proof.
  unfold SimpleScrapingService.isValidResult, gate_rule.
  rewrite orb_true_iff, !andb_true_iff, orb_true_iff.
  rewrite truthy_opt_present, !nonempty_length. tauto.
Qed.

(** The gate of the rendered tier accepts exactly the candidates with a
    title, or with both lists non-empty. *)
Lemma isValidRecipe_rule (r : ScrapingResult) :
  RecipeScrapingService.isValidRecipe r = true <->
  title_present r \/ (ingredients r <> [] /\ instructions r <> []).
Proof.
  unfold RecipeScrapingService.isValidRecipe.
  rewrite orb_true_iff, andb_true_iff.
  rewrite truthy_opt_present, !nonempty_length. tauto.
Qed.

(** C1.  The rule of the validity gate rejects a candidate that has a
    title, no ingredient and no instruction, and so does [isValidResult];
    [isValidRecipe], the gate of the rendered tier, accepts it, and the
    rendered pattern-matching strategy produces such a candidate from a
    page on which only a title selector matches. *)
Theorem isValidRecipe_accepts_title_only :
  ~ gate_rule (title_only "Pancakes")
  /\ SimpleScrapingService.isValidResult (title_only "Pancakes") = false
  /\ RecipeScrapingService.isValidRecipe (title_only "Pancakes") = true
  /\ exists r,
       RecipeScrapingService.tryPatternMatching title_only_page
         "https://example.com/p" "example.com" = Some r
       /\ ingredients r = [] /\ instructions r = []
       /\ RecipeScrapingService.isValidRecipe r = true.
Proof.
  split; [|split; [|split]].
  - rewrite <- isValidResult_gate_rule. vm_compute. discriminate.
  - reflexivity.
  - reflexivity.
  - eexists. split; [vm_compute; reflexivity|]. repeat split.
Qed.

(** ** Step numbering *)

Lemma numbers_mapi_from {A : Type} (f : A -> string) (l : list A) (i : nat) :
  numbers (mapi_from i (fun x (index : nat) =>
                          {| number := Z.of_nat index + 1; step := f x |}) l)
  = map (fun k => Z.of_nat k + 1)%Z (seq i (List.length l)).
Proof.
  revert i. induction l as [|x l IH]; intro i; simpl.
  - reflexivity.
  - f_equal. apply IH.
Qed.

Lemma length_mapi_from {A B : Type} (f : A -> nat -> B) (l : list A) (i : nat) :
  List.length (mapi_from i f l) = List.length l.
Proof.
  revert i. induction l as [|x l IH]; intro i; simpl; [reflexivity|].
  f_equal. apply IH.
Qed.

(** The structured-data strategy numbers its steps 1..M, one step for
    each entry of [recipeInstructions]. *)
Lemma parseJsonLdRecipe_sequential (data : SimpleScrapingService.JsonLdRecipe) :
  sequential (instructions (SimpleScrapingService.parseJsonLdRecipe data))
  /\ List.length (instructions (SimpleScrapingService.parseJsonLdRecipe data))
     = List.length (SimpleScrapingService.or_empty
                      (SimpleScrapingService.ld_recipeInstructions data)).
Proof.
  unfold sequential, SimpleScrapingService.parseJsonLdRecipe, mapi, one_to. simpl.
  rewrite length_mapi_from. split; [|reflexivity].
  apply (numbers_mapi_from
           (fun x => trim (SimpleScrapingService.instruction_text x))).
Qed.

(** C3.  When the length filter skips an element, the microdata strategy
    and the rendered pattern-matching strategy keep the element's index
    as the step number: a short heading followed by one real step gives
    a candidate whose only step carries number 2, not 1. *)
Theorem skipped_element_leaves_gap :
  (exists r,
     SimpleScrapingService.tryMicrodataExtraction (Some heading_then_step) = Some r
     /\ numbers (instructions r) = [2%Z]
     /\ ~ sequential (instructions r))
  /\ (exists r,
        RecipeScrapingService.tryPatternMatching heading_then_step_page
          "https://example.com/p" "example.com" = Some r
        /\ numbers (instructions r) = [2%Z]
        /\ ~ sequential (instructions r)).
Proof.
  split; eexists; (split; [vm_compute; reflexivity|]);
    (split; [reflexivity|]); unfold sequential; vm_compute; discriminate.
Qed.

(** ** The navigation filter *)

(** C5, as stated, fails: in the instruction context the second line is
    rejected. *)
Lemma cook_line_rejected_in_instruction_context :
  ~ (forall ctx : bool,
       SimpleScrapingService.isNavigationText subscribe_line ctx = true
       /\ SimpleScrapingService.isNavigationText cook_line ctx = false).
Proof.
  intro H. destruct (H true) as [_ Hc]. vm_compute in Hc. discriminate.
Qed.

(** C5, amended.  The navigation test uses word-boundary matching, not
    substring containment: it holds exactly when one of the navigation
    words occurs in the lower-cased line between two word boundaries.
    "Subscribe to our newsletter" is matched, and rejected in both
    contexts; "Cook for about 30 minutes, stirring occasionally" is not
    matched, and is not rejected in the non-instruction context; in the
    instruction context that line is rejected by the description filter,
    being a line of 10 to 100 characters without a period. *)
Theorem navigation_filter_regression :
  (forall text,
     SimpleScrapingService.hasNavKeywords text = true <->
     exists w, In w SimpleScrapingService.navWords
               /\ whole_word_in w (toLowerCase text))
  /\ (forall ctx : bool, SimpleScrapingService.isNavigationText subscribe_line ctx = true)
  /\ SimpleScrapingService.hasNavKeywords subscribe_line = true
  /\ SimpleScrapingService.hasNavKeywords cook_line = false
  /\ SimpleScrapingService.isNavigationText cook_line false = false
  /\ SimpleScrapingService.isRecipeDescription cook_line = true
  /\ SimpleScrapingService.isNavigationText cook_line true = true.
Proof.
  split; [exact hasNavKeywords_whole_word|].
  split; [intros [|]; vm_compute; reflexivity|].
  repeat split; vm_compute; reflexivity.
Qed.

Lemma navigation_filter_regression_witness :
  (exists w, In w SimpleScrapingService.navWords
             /\ whole_word_in w (toLowerCase subscribe_line))
  /\ SimpleScrapingService.hasNavKeywords "Back to Home page" = true.
Proof.
  split.
  - apply (proj1 (proj1 navigation_filter_regression subscribe_line)).
    vm_compute. reflexivity.
  - apply (proj2 (proj1 navigation_filter_regression "Back to Home page")).
    exists "home". split; [vm_compute; tauto|].
    exists "back to ", " page". repeat split.
Defined.

(** The patterns are bounded by word boundaries: "home" occurs in
    "homemade" and is not matched there. *)
Lemma nav_word_inside_word_not_matched :
  includes (toLowerCase "Use homemade stock.") "home" = true
  /\ SimpleScrapingService.hasNavKeywords "Use homemade stock." = false
  /\ SimpleScrapingService.hasNavKeywords "Back to home page" = true.
Proof. repeat split; vm_compute; reflexivity. Qed.

(** ** The duration parser *)

Lemma parseTime_examples :
  parseTime (Some "PT1H30M") = Some 90%Z
  /\ parseTime (Some "45 minutes") = Some 45%Z
  /\ parseTime (Some "PT15M") = Some 15%Z
  /\ parseTime (Some "1 hour 15 min") = Some 75%Z
  /\ parseTime None = None.
Proof. repeat split; vm_compute; reflexivity. Qed.

(** Away from the [PT] prefix, a text with no hour token and no minute
    token gives [undefined]. *)
Lemma parseTime_no_token (ts : string) :
  startsWith ts "PT" = false ->
  exec_i hour_re ts = None ->
  exec_i minute_re ts = None ->
  parseTime (Some ts) = None.
Proof.
  intros Hpt Hh Hm. unfold parseTime. rewrite Hpt.
  destruct (negb (JsString.truthy ts)); [reflexivity|].
  unfold parseTimeFromText. rewrite Hh, Hm.
  destruct (negb (JsString.truthy ts)); reflexivity.
Qed.

(** C7.  On ["PT"], where the duration pattern matches with neither an
    hour group nor a minute group and the text has no hour or minute
    token, [parseTime] returns 0, whereas [parseTimeFromText] on the
    same text returns [undefined]. *)
Theorem parseTime_bare_prefix_is_zero :
  (exists m, exec iso_duration_re "PT" = Some m
             /\ group 1 m = None /\ group 2 m = None)
  /\ exec_i hour_re "PT" = None
  /\ exec_i minute_re "PT" = None
  /\ parseTimeFromText "PT" = None
  /\ parseTime (Some "PT") = Some 0%Z.
Proof.
  split; [eexists; split; [vm_compute; reflexivity|split; reflexivity]|].
  repeat split; vm_compute; reflexivity.
Qed.

(** ** The ingredient line parser *)

Lemma leading_digits_all (s : string) :
  all_digits s = true -> leading_digits s = s /\ s <> "".
Proof.
  unfold all_digits. rewrite andb_true_iff. intros [Ht He].
  apply String.eqb_eq in He. split; [exact He|].
  destruct s; [discriminate|discriminate].
Qed.

Lemma digit_not_slash (c : ascii) : is_digit c = true -> Ascii.eqb c "/" = false.
Proof.
  intro H. destruct (Ascii.eqb_spec c "/") as [->|]; [|reflexivity].
  vm_compute in H. discriminate.
Qed.

Lemma leading_digits_fix (c : ascii) (s : string) :
  leading_digits (String c s) = String c s ->
  is_digit c = true /\ leading_digits s = s.
Proof.
  simpl. destruct (is_digit c); [|discriminate].
  intro H. injection H as H. split; [reflexivity|exact H].
Qed.

Lemma until_slash_digits (a : string) (tl : string) :
  leading_digits a = a ->
  until_slash (a ++ String "/" tl) = (a, Some tl).
Proof.
  induction a as [|c a IH]; simpl String.append.
  - intros _. reflexivity.
  - intro H. apply leading_digits_fix in H as [Hc Ha].
    simpl. rewrite (digit_not_slash c Hc), (IH Ha). reflexivity.
Qed.

Lemma until_slash_no_slash (b : string) :
  leading_digits b = b -> until_slash b = (b, None).
Proof.
  induction b as [|c b IH]; [reflexivity|].
  intro H. apply leading_digits_fix in H as [Hc Hb].
  simpl. rewrite (digit_not_slash c Hc), (IH Hb). reflexivity.
Qed.

Lemma includes_slash (a tl : string) : includes (a ++ String "/" tl) "/" = true.
Proof.
  induction a as [|c a IH]; simpl String.append.
  - destruct tl; reflexivity.
  - cbn [includes]. rewrite IH. apply orb_true_r.
Qed.

Lemma Qred_inject_Z (z : Z) : Qred (inject_Z z + inject_Z 0 / inject_Z (10 ^ 0)) = inject_Z z.
Proof.
  transitivity (Qred (inject_Z z)).
  - apply Qred_complete. change (10 ^ 0)%Z with 1%Z. field.
  - apply Qcanon.Qred_identity. simpl. apply Z.gcd_1_r.
Qed.

(** An integer below [2 ^ 53] is a binary64 value: rounding leaves it
    as it is. *)
Lemma round64_integer (z : Z) :
  (0 <= z < 2 ^ 53)%Z -> round64 (inject_Z z) = of_Z z.
Proof.
  intros [H0 H53]. unfold round64, of_Z. cbn [Qnum Qden inject_Z].
  destruct (Z.leb_spec z 0) as [Hz|Hz].
  { assert (z = 0%Z) as -> by lia. reflexivity. }
  assert (He : exponent z 1 = Z.log2 z).
  { unfold exponent. change (Z.log2 1) with 0%Z. rewrite Z.sub_0_r.
    pose proof (Z.log2_nonneg z) as Hn. pose proof (Z.log2_spec z Hz) as [Hl _].
    destruct (Z.leb_spec 0 (Z.log2 z)) as [_|Hc]; [|lia].
    destruct (Z.leb_spec (1 * 2 ^ Z.log2 z) z) as [_|Hc]; [reflexivity|lia]. }
  rewrite He.
  pose proof (Z.log2_nonneg z) as Hn.
  assert (Hlt : (Z.log2 z < 53)%Z) by (apply Z.log2_lt_pow2; lia).
  rewrite Z.max_l by lia.
  destruct (Z.leb_spec (Z.log2 z) 52) as [_|Hc]; [|lia].
  assert (Hm : nearest (z * 2 ^ (52 - Z.log2 z)) 1 = (z * 2 ^ (52 - Z.log2 z))%Z).
  { unfold nearest. rewrite Z.mod_1_r, Z.div_1_r. reflexivity. }
  rewrite Hm.
  destruct (Z.ltb_spec 1023 (Z.log2 z)) as [Hc|_]; [lia|].
  destruct (Z.eqb_spec (Z.log2 z) 1023) as [Hc|_]; [lia|]. cbn [orb andb].
  f_equal. unfold scale.
  destruct (Z.leb_spec 0 (Z.log2 z - 52)) as [Hge|Hneg].
  - assert (Z.log2 z = 52)%Z as -> by lia. simpl. f_equal. lia.
  - replace (- (Z.log2 z - 52))%Z with (52 - Z.log2 z)%Z by lia.
    assert (Hp : (0 < 2 ^ (52 - Z.log2 z))%Z) by (apply Z.pow_pos_nonneg; lia).
    transitivity (Qred (inject_Z z)).
    + apply Qred_complete. unfold Qeq. cbn [Qnum Qden inject_Z].
      rewrite Z2Pos.id by exact Hp. lia.
    + apply Qcanon.Qred_identity. simpl. apply Z.gcd_1_r.
Qed.

Lemma digits_value_bound (s : string) :
  forall acc, (0 <= acc)%Z ->
    (0 <= digits_value_from acc s < (acc + 1) * 10 ^ Z.of_nat (String.length s))%Z.
Proof.
  induction s as [|c s IH]; intros acc Hacc.
  - simpl. lia.
  - cbn [digits_value_from String.length]. rewrite Nat2Z.inj_succ, Z.pow_succ_r by lia.
    assert (Hp : (0 < 10 ^ Z.of_nat (String.length s))%Z) by (apply Z.pow_pos_nonneg; lia).
    destruct (is_digit c) eqn:Hc.
    + assert (Hv : (0 <= Z.of_nat (code c - 48) <= 9)%Z).
      { unfold is_digit, in_range in Hc. apply andb_true_iff in Hc as [H1 H2].
        apply Nat.leb_le in H1, H2. lia. }
      specialize (IH (10 * acc + Z.of_nat (code c - 48))%Z ltac:(lia)). nia.
    + nia.
Qed.

(** A run of at most 15 digits writes an integer below [2 ^ 53]. *)
Lemma digits_value_exact (d : string) :
  (String.length d <= 15)%nat -> (0 <= digits_value_from 0 d < 2 ^ 53)%Z.
Proof.
  intro H. pose proof (digits_value_bound d 0 (Z.le_refl 0)) as [H0 H1].
  split; [exact H0|].
  assert (Hle : (10 ^ Z.of_nat (String.length d) <= 10 ^ 15)%Z)
    by (apply Z.pow_le_mono_r; lia).
  assert (H15 : (10 ^ 15 < 2 ^ 53)%Z) by reflexivity. lia.
Qed.

(** [parseFloat] of a run of at most 15 digits is its value. *)
Lemma parseFloat_digits (d : string) :
  all_digits d = true -> (String.length d <= 15)%nat ->
  parseFloat d = of_Z (digits_value_from 0 d).
Proof.
  intros H Hlen. apply leading_digits_all in H as [Hd Hne].
  unfold parseFloat. rewrite Hd, Nat.sub_diag, substring_none.
  destruct d as [|c d]; [contradiction|].
  cbn [String.length Z.of_nat]. rewrite Qred_inject_Z.
  apply round64_integer. apply digits_value_exact. exact Hlen.
Qed.

(** [parseFraction] of [a/b], [a] and [b] runs of at most 15 digits, is
    the quotient of their values, as binary64 division gives it. *)
Lemma parseFraction_quotient (a b : string) :
  all_digits a = true -> all_digits b = true ->
  (String.length a <= 15)%nat -> (String.length b <= 15)%nat ->
  parseFraction (a ++ "/" ++ b)
  = div (of_Z (digits_value_from 0 a)) (of_Z (digits_value_from 0 b)).
Proof.
  intros Ha Hb Hla Hlb. unfold parseFraction.
  change (a ++ "/" ++ b)%string with (a ++ String "/" b)%string.
  rewrite includes_slash. unfold split_slash.
  rewrite (until_slash_digits a b (proj1 (leading_digits_all a Ha))).
  rewrite (until_slash_no_slash b (proj1 (leading_digits_all b Hb))). simpl fst.
  rewrite (parseFloat_digits a Ha Hla), (parseFloat_digits b Hb Hlb). reflexivity.
Qed.

(** C8.  ["1/2 cup sugar"] parses to amount 1/2, unit ["cup"], name
    ["sugar"].  A fraction [a/b] (two runs of at most 15 digits, which
    binary64 holds exactly) in the amount position becomes the float
    [a/b], the binary64 value nearest to the quotient of [a] by [b]
    (for [1/3], 6004799503160661 / 2^54, which prints as
    0.3333333333333333): whenever the pattern matches with [a/b] as its
    first group, and in particular on every line [a/b unit name].  A
    line the pattern does not match, such as any line that does not
    start with a digit, comes back as its own name with amount 1 and no
    unit. *)
Theorem parseIngredient_spec :
  parseIngredient "1/2 cup sugar"
  = {| p_name := "sugar"; p_amount := Num (1 # 2); p_unit := Some "cup" |}
  /\ p_amount (parseIngredient "1/3 cup milk")
     = Num (6004799503160661 # 18014398509481984)
  /\ (forall line m a b,
        exec ingredient_re line = Some m ->
        group 1 m = Some (a ++ "/" ++ b)%string ->
        all_digits a = true -> all_digits b = true ->
        (String.length a <= 15)%nat -> (String.length b <= 15)%nat ->
        p_amount (parseIngredient line)
        = div (of_Z (digits_value_from 0 a)) (of_Z (digits_value_from 0 b))
        /\ (digits_value_from 0 b <> 0%Z ->
            p_amount (parseIngredient line)
            = round64 (Qred (inject_Z (digits_value_from 0 a)
                             / inject_Z (digits_value_from 0 b)))))
  /\ (forall a b u n,
        all_digits a = true -> all_digits b = true ->
        (String.length a <= 15)%nat -> (String.length b <= 15)%nat ->
        u <> "" -> all_chars is_alpha u = true ->
        n <> "" -> all_chars no_terminator n = true -> stops is_space n = true ->
        parseIngredient (a ++ "/" ++ b ++ " " ++ u ++ " " ++ n)%string
        = {| p_name := trim n;
             p_amount := div (of_Z (digits_value_from 0 a)) (of_Z (digits_value_from 0 b));
             p_unit := Some u |})
  /\ (forall line,
        exec ingredient_re line = None ->
        parseIngredient line
        = {| p_name := line; p_amount := of_Z 1; p_unit := None |})
  /\ (forall line,
        stops is_digit line = true ->
        parseIngredient line
        = {| p_name := line; p_amount := of_Z 1; p_unit := None |}).
Proof.
  split; [vm_compute; reflexivity|]. split; [vm_compute; reflexivity|].
  split; [|split; [|split]].
  - intros line m a b Hm Hg Ha Hb Hla Hlb.
    assert (H : p_amount (parseIngredient line)
                = div (of_Z (digits_value_from 0 a)) (of_Z (digits_value_from 0 b))).
    { unfold parseIngredient. rewrite Hm.
      cbn [p_amount]. unfold group_text. rewrite Hg.
      apply parseFraction_quotient; assumption. }
    split; [exact H|]. intro Hb0. rewrite H. unfold div, of_Z, is_zero.
    cbn [Qnum inject_Z]. destruct (Z.eqb_spec (digits_value_from 0 b) 0); [contradiction|].
    reflexivity.
  - intros a b u n Ha Hb Hla Hlb Hu Hul Hn Hnl Hns.
    destruct (exec_ingredient_fraction a b u n Ha Hb Hu Hul Hn Hnl Hns)
      as [m [Hm [H1 [H2 H3]]]].
    unfold parseIngredient. rewrite Hm. unfold group_text. rewrite H1, H2, H3.
    rewrite (parseFraction_quotient a b Ha Hb Hla Hlb). reflexivity.
  - intros line Hm. unfold parseIngredient. rewrite Hm. reflexivity.
  - intros line H. unfold parseIngredient.
    rewrite (exec_ingredient_no_leading_digit line H). reflexivity.
Qed.

Lemma parseIngredient_spec_witness :
  (exists m, exec ingredient_re "3/4 tsp salt" = Some m
             /\ group 1 m = Some ("3" ++ "/" ++ "4")%string
             /\ p_amount (parseIngredient "3/4 tsp salt") = Num (3 # 4))
  /\ parseIngredient ("2" ++ "/" ++ "3" ++ " " ++ "cup" ++ " " ++ "brown sugar ")%string
     = {| p_name := "brown sugar";
          p_amount := Num (6004799503160661 # 9007199254740992);
          p_unit := Some "cup" |}
  /\ exec ingredient_re "12" = None
  /\ parseIngredient "12" = {| p_name := "12"; p_amount := of_Z 1; p_unit := None |}
  /\ parseIngredient "a pinch of salt"
     = {| p_name := "a pinch of salt"; p_amount := of_Z 1; p_unit := None |}.
Proof.
  destruct parseIngredient_spec as [_ [_ [Hfrac [Hline [Hnone Hnodigit]]]]].
  split; [|split; [|split; [|split]]].
  - destruct (exec ingredient_re "3/4 tsp salt") as [m|] eqn:E;
      [|vm_compute in E; discriminate E].
    exists m. split; [reflexivity|].
    assert (Hg : group 1 m = Some ("3" ++ "/" ++ "4")%string)
      by (vm_compute in E; injection E as <-; reflexivity).
    split; [exact Hg|].
    rewrite (proj1 (Hfrac "3/4 tsp salt" m "3" "4" E Hg eq_refl eq_refl
                      ltac:(simpl; lia) ltac:(simpl; lia))).
    vm_compute. reflexivity.
  - rewrite (Hline "2" "3" "cup" "brown sugar ");
      [vm_compute; reflexivity | reflexivity | reflexivity | simpl; lia | simpl; lia
       | discriminate | reflexivity
       | discriminate | reflexivity | reflexivity].
  - vm_compute. reflexivity.
  - apply Hnone. vm_compute. reflexivity.
  - apply Hnodigit. reflexivity.
Defined.

(** ** The error-page test of the lightweight tier *)

Lemma startsWith_prefix (t s : string) :
  startsWith s t = true <-> exists post, s = (t ++ post)%string.
Proof.
  revert s. induction t as [|a t IH]; intro s.
  - destruct s; simpl; split; intros; eauto.
  - destruct s as [|b s]; simpl.
    + split; [discriminate|]. intros [post H]. discriminate.
    + rewrite andb_true_iff, IH. split.
      * intros [Hab [post ->]]. apply Ascii.eqb_eq in Hab. subst. eauto.
      * intros [post H]. injection H as -> ->. split; [apply Ascii.eqb_refl|eauto].
Qed.

Lemma includes_contains (s t : string) : includes s t = true <-> contains s t.
Proof.
  unfold contains. induction s as [|c s IH].
  - cbn [includes]. rewrite orb_false_r, startsWith_prefix. split.
    + intros [post H]. exists "", post. exact H.
    + intros [pre [post H]]. destruct pre; [eauto|discriminate].
  - cbn [includes]. rewrite orb_true_iff, startsWith_prefix, IH. split.
    + intros [[post H]|[pre [post H]]].
      * exists "", post. exact H.
      * exists (String c pre), post. simpl. rewrite H. reflexivity.
    + intros [pre [post H]]. destruct pre as [|c' pre].
      * left. eauto.
      * right. injection H as _ H. eauto.
Qed.

Lemma not_includes_contains (s t : string) : includes s t = false <-> ~ contains s t.
Proof.
  rewrite <- includes_contains. destruct (includes s t); split; intros; congruence.
Qed.

(** C9.  A fetched page is classified as an error page exactly when its
    lower-cased text contains one of the failure indicators and contains
    neither "recipe" nor "ingredients"; the tier then returns no result,
    whatever its strategies would extract; and a page that contains
    "recipe" or "ingredients" is not classified as an error page. *)
Theorem isErrorPage_classification (html : string) :
  (SimpleScrapingService.isErrorPage html = true <->
     (exists indicator,
        In indicator SimpleScrapingService.errorIndicators
        /\ contains (toLowerCase html) indicator)
     /\ ~ contains (toLowerCase html) "recipe"
     /\ ~ contains (toLowerCase html) "ingredients")
  /\ (SimpleScrapingService.isErrorPage html = true ->
      forall jsonLd microdata patternMatching extractDomain url,
        SimpleScrapingService.scrapeWithFetch jsonLd microdata patternMatching
          extractDomain url (SimpleScrapingService.FetchResponse true html) = None)
  /\ (contains (toLowerCase html) "recipe" \/ contains (toLowerCase html) "ingredients" ->
      SimpleScrapingService.isErrorPage html = false).
Proof.
  assert (Hiff :
    SimpleScrapingService.isErrorPage html = true <->
     (exists indicator,
        In indicator SimpleScrapingService.errorIndicators
        /\ contains (toLowerCase html) indicator)
     /\ ~ contains (toLowerCase html) "recipe"
     /\ ~ contains (toLowerCase html) "ingredients").
  { unfold SimpleScrapingService.isErrorPage.
    rewrite !andb_true_iff, !negb_true_iff, !not_includes_contains, existsb_exists.
    split.
    - intros [[[x [Hin Hx]] Hr] Hi]. split; [|tauto].
      exists x. split; [exact Hin|]. apply includes_contains. exact Hx.
    - intros [[x [Hin Hx]] [Hr Hi]]. split; [split|]; try assumption.
      exists x. split; [exact Hin|]. apply includes_contains. exact Hx. }
  split; [exact Hiff|]. split.
  - intros H jsonLd microdata patternMatching extractDomain url.
    unfold SimpleScrapingService.scrapeWithFetch. simpl negb. cbv iota.
    rewrite H. reflexivity.
  - intros Hc. apply not_true_is_false. intro E.
    apply Hiff in E. tauto.
Qed.

Lemma isErrorPage_classification_witness :
  SimpleScrapingService.isErrorPage "<h1>404 Not Found</h1>" = true
  /\ (forall jsonLd microdata patternMatching extractDomain,
        SimpleScrapingService.scrapeWithFetch jsonLd microdata patternMatching
          extractDomain "https://example.com/gone"
          (SimpleScrapingService.FetchResponse true "<h1>404 Not Found</h1>") = None)
  /\ SimpleScrapingService.isErrorPage "<h1>404</h1> <p>Try our Recipes</p>" = false.
Proof.
  split; [vm_compute; reflexivity|]. split.
  - intros jsonLd microdata patternMatching extractDomain.
    apply (proj1 (proj2 (isErrorPage_classification "<h1>404 Not Found</h1>"))).
    vm_compute. reflexivity.
  - apply (proj2 (proj2 (isErrorPage_classification "<h1>404</h1> <p>Try our Recipes</p>"))).
    left. apply includes_contains. vm_compute. reflexivity.
Defined.

(** ** The job orchestrator *)

Module ControllerFacts.
Import ScrapingController.

Lemma truthy_nonempty (s : string) : s <> "" -> JsString.truthy s = true.
Proof. destruct s; [contradiction|reflexivity]. Qed.

Lemma find_replace (i : string) (f : ScrapedUrl -> ScrapedUrl) (rows : list ScrapedUrl) :
  (forall j, id (f j) = id j) ->
  find (fun j => String.eqb (id j) i)
       (map (fun j => if String.eqb (id j) i then f j else j) rows)
  = option_map f (find (fun j => String.eqb (id j) i) rows).
Proof.
  intro Hid. induction rows as [|j rows IH]; [reflexivity|].
  simpl. destruct (String.eqb (id j) i) eqn:E.
  - rewrite Hid, E. reflexivity.
  - rewrite E. exact IH.
Qed.

(** Rows with another id are left as they are by [updateById]. *)
Lemma updateById_other (i : string) (f : ScrapedUrl -> ScrapedUrl) (w : World) (j : ScrapedUrl) :
  In j (scrapedUrls (db w)) -> id j <> i ->
  In j (scrapedUrls (db (updateById i f w))).
Proof.
  intros Hin Hne. unfold updateById, replace_rows. simpl.
  apply in_map_iff. exists j. split; [|exact Hin].
  destruct (String.eqb_spec (id j) i); [contradiction|reflexivity].
Qed.

(** Whatever the job of a url is, a bulk submission of that url writes
    it back as [processing] with one more retry and launches an
    extraction. *)
Lemma bulk_relaunches_existing (u : string) (now : Z) (w : World) (j : ScrapedUrl) :
  findByUrl u (db w) = Some j ->
  exists resp w',
    bulkScrapeRecipes (VArr [VStr u]) now w = (resp, w')
    /\ events w' = events w ++ [Wrote (id j); Launched u (id j)].
Proof.
  intro Hj. unfold bulkScrapeRecipes. simpl. unfold upsertByUrl. rewrite Hj.
  simpl. do 2 eexists. split; [reflexivity|]. simpl.
  rewrite <- app_assoc. reflexivity.
Qed.

End ControllerFacts.

(** C4.  When the job of a submitted url is [success] and the recipe it
    refers to is in the store, [scrapeRecipe] answers with that recipe
    (the answer carries the id that the job refers to and the title and
    the source url stored under it), marked cached, and leaves the
    world as it was: no row is written (the job keeps its
    [retryCount]) and no extraction is launched. *)
Theorem scrapeRecipe_cache_hit
  (u : string) (now : Z) (w : ScrapingController.World)
  (j : ScrapingController.ScrapedUrl) (rid : string) (r : ScrapingController.Recipe) :
  u <> "" ->
  ScrapingController.findByUrl u (ScrapingController.db w) = Some j ->
  ScrapingController.status j = "success" ->
  ScrapingController.recipeId j = Some rid ->
  rid <> "" ->
  ScrapingController.findRecipe rid (ScrapingController.db w) = Some r ->
  exists c,
    ScrapingController.scrapeRecipe (ScrapingController.VStr u) now w
    = ({| ScrapingController.code := 200;
          ScrapingController.body := ScrapingController.CachedRecipe "success" c true |},
       w)
    /\ ScrapingController.c_id c = rid
    /\ ScrapingController.c_title c = r_title (ScrapingController.recipe_data r)
    /\ ScrapingController.c_sourceUrl c = r_sourceUrl (ScrapingController.recipe_data r).
Proof.
  intros Hu Hj Hs Hr Hrid Hrec.
  exists {| ScrapingController.c_id := rid;
            ScrapingController.c_title := r_title (ScrapingController.recipe_data r);
            ScrapingController.c_sourceUrl :=
              r_sourceUrl (ScrapingController.recipe_data r) |}.
  split; [|repeat split].
  assert (Hid : ScrapingController.recipe_id r = rid).
  { unfold ScrapingController.findRecipe in Hrec.
    apply find_some in Hrec as [_ Hrec]. apply String.eqb_eq in Hrec. exact Hrec. }
  unfold ScrapingController.scrapeRecipe.
  rewrite (ControllerFacts.truthy_nonempty u Hu). simpl negb. cbv iota.
  rewrite Hj, Hs, Hr. simpl.
  rewrite (ControllerFacts.truthy_nonempty rid Hrid), Hrec.
  unfold ScrapingController.transformRecipeForClient. rewrite Hid. reflexivity.
Qed.

Lemma scrapeRecipe_cache_hit_witness :
  exists c,
    ScrapingController.scrapeRecipe (ScrapingController.VStr cake_url) 200
      (cake_world "success" (Some "recipe0"))
    = ({| ScrapingController.code := 200;
          ScrapingController.body := ScrapingController.CachedRecipe "success" c true |},
       cake_world "success" (Some "recipe0"))
    /\ ScrapingController.c_id c = "recipe0"
    /\ ScrapingController.c_title c = "Cake"
    /\ ScrapingController.c_sourceUrl c = cake_url.
Proof.
  apply (scrapeRecipe_cache_hit cake_url 200 (cake_world "success" (Some "recipe0"))
           (cake_job "success" (Some "recipe0")) "recipe0" cake_recipe).
  - discriminate.
  - reflexivity.
  - reflexivity.
  - reflexivity.
  - discriminate.
  - reflexivity.
Defined.

(** C6.  [retryScrapingJob] on a job that is [processing] answers with
    the error "Job is already processing" and leaves the world as it was;
    on a job in any other status it writes the job back as [processing]
    with [retryCount] one higher, then launches the extraction for the
    job's url, and answers with the job handle. *)
Theorem retryScrapingJob_spec
  (jobId : string) (now : Z) (w : ScrapingController.World)
  (j : ScrapingController.ScrapedUrl) :
  ScrapingController.findById jobId (ScrapingController.db w) = Some j ->
  (ScrapingController.status j = "processing" ->
   ScrapingController.retryScrapingJob jobId now w
   = ({| ScrapingController.code := 400;
         ScrapingController.body :=
           ScrapingController.ErrorBody "Job is already processing" |}, w))
  /\ (ScrapingController.status j <> "processing" ->
      exists w' j',
        ScrapingController.retryScrapingJob jobId now w
        = ({| ScrapingController.code := 200;
              ScrapingController.body :=
                ScrapingController.JobHandle "processing" (ScrapingController.id j)
                  "Scraping retry started" |}, w')
        /\ ScrapingController.findById jobId (ScrapingController.db w') = Some j'
        /\ ScrapingController.status j' = "processing"
        /\ ScrapingController.retryCount j' = (ScrapingController.retryCount j + 1)%Z
        /\ ScrapingController.url j' = ScrapingController.url j
        /\ ScrapingController.events w'
           = ScrapingController.events w
             ++ [ScrapingController.Wrote jobId;
                 ScrapingController.Launched (ScrapingController.url j)
                   (ScrapingController.id j)]).
Proof.
  intro Hj. unfold ScrapingController.retryScrapingJob. rewrite Hj. split.
  - intros ->. reflexivity.
  - intro Hs. destruct (String.eqb_spec (ScrapingController.status j) "processing") as [E|_];
      [contradiction|].
    eexists. exists (ScrapingController.reprocess now j).
    split; [reflexivity|]. simpl. split.
    + unfold ScrapingController.findById, ScrapingController.replace_rows. simpl.
      rewrite ControllerFacts.find_replace by reflexivity.
      unfold ScrapingController.findById in Hj. rewrite Hj. reflexivity.
    + repeat split. rewrite <- app_assoc. reflexivity.
Qed.

Lemma retryScrapingJob_spec_witness :
  ScrapingController.retryScrapingJob "job0" 200 (cake_world "processing" None)
  = ({| ScrapingController.code := 400;
        ScrapingController.body :=
          ScrapingController.ErrorBody "Job is already processing" |},
     cake_world "processing" None)
  /\ exists w' j',
       ScrapingController.retryScrapingJob "job0" 200 (cake_world "failed" None)
       = ({| ScrapingController.code := 200;
             ScrapingController.body :=
               ScrapingController.JobHandle "processing" "job0"
                 "Scraping retry started" |}, w')
       /\ ScrapingController.findById "job0" (ScrapingController.db w') = Some j'
       /\ ScrapingController.status j' = "processing"
       /\ ScrapingController.retryCount j' = 1%Z
       /\ ScrapingController.url j' = cake_url
       /\ ScrapingController.events w'
          = [ScrapingController.Wrote "job0";
             ScrapingController.Launched cake_url "job0"].
Proof.
  split.
  - apply (proj1 (retryScrapingJob_spec "job0" 200 (cake_world "processing" None)
                    (cake_job "processing" None) eq_refl)).
    reflexivity.
  - apply (proj2 (retryScrapingJob_spec "job0" 200 (cake_world "failed" None)
                    (cake_job "failed" None) eq_refl)).
    discriminate.
Defined.

(** C10.  When the body has no [url], or one that is not a string,
    [scrapeRecipe] answers 400 "Valid URL is required" and leaves the
    world as it was: no job is created or updated, no extraction is
    launched. *)
Theorem scrapeRecipe_rejects_missing_url
  (urlField : ScrapingController.jsval) (now : Z) (w : ScrapingController.World) :
  (forall s, urlField <> ScrapingController.VStr s) ->
  ScrapingController.scrapeRecipe urlField now w
  = ({| ScrapingController.code := 400;
        ScrapingController.body := ScrapingController.ErrorBody "Valid URL is required" |},
     w).
Proof.
  intro H. destruct urlField; try reflexivity.
  exfalso. apply (H s). reflexivity.
Qed.

Lemma scrapeRecipe_rejects_missing_url_witness :
  ScrapingController.scrapeRecipe ScrapingController.VUndefined 200
    (cake_world "failed" None)
  = ({| ScrapingController.code := 400;
        ScrapingController.body := ScrapingController.ErrorBody "Valid URL is required" |},
     cake_world "failed" None)
  /\ ScrapingController.scrapeRecipe (ScrapingController.VNum 42) 200
       (cake_world "failed" None)
     = ({| ScrapingController.code := 400;
           ScrapingController.body := ScrapingController.ErrorBody "Valid URL is required" |},
        cake_world "failed" None).
Proof.
  split.
  - apply (scrapeRecipe_rejects_missing_url ScrapingController.VUndefined).
    intros s H. discriminate H.
  - apply (scrapeRecipe_rejects_missing_url (ScrapingController.VNum 42)).
    intros s H. discriminate H.
Defined.

(** C2.  On a url whose job is [processing], and on a url whose job is
    [success] with its recipe still stored, [scrapeRecipe] answers
    without touching the world, while [bulkScrapeRecipes] writes the job
    back as [processing] with [retryCount] one higher and launches an
    extraction. *)
Theorem bulkScrapeRecipes_skips_job_check :
  (snd (ScrapingController.scrapeRecipe (ScrapingController.VStr cake_url) 200
          (cake_world "processing" None))
   = cake_world "processing" None
   /\ exists resp w',
        ScrapingController.bulkScrapeRecipes
          (ScrapingController.VArr [ScrapingController.VStr cake_url]) 200
          (cake_world "processing" None) = (resp, w')
        /\ option_map ScrapingController.retryCount
             (ScrapingController.findByUrl cake_url (ScrapingController.db w')) = Some 1%Z
        /\ ScrapingController.events w'
           = [ScrapingController.Wrote "job0";
              ScrapingController.Launched cake_url "job0"])
  /\ (ScrapingController.scrapeRecipe (ScrapingController.VStr cake_url) 200
        (cake_world "success" (Some "recipe0"))
      = ({| ScrapingController.code := 200;
            ScrapingController.body :=
              ScrapingController.CachedRecipe "success"
                (ScrapingController.transformRecipeForClient cake_recipe) true |},
         cake_world "success" (Some "recipe0"))
      /\ exists resp w',
           ScrapingController.bulkScrapeRecipes
             (ScrapingController.VArr [ScrapingController.VStr cake_url]) 200
             (cake_world "success" (Some "recipe0")) = (resp, w')
           /\ option_map ScrapingController.status
                (ScrapingController.findByUrl cake_url (ScrapingController.db w'))
              = Some "processing"
           /\ option_map ScrapingController.retryCount
                (ScrapingController.findByUrl cake_url (ScrapingController.db w')) = Some 1%Z
           /\ ScrapingController.events w'
              = [ScrapingController.Wrote "job0";
                 ScrapingController.Launched cake_url "job0"]).
Proof.
  split; (split; [reflexivity|]); do 2 eexists;
    (split; [vm_compute; reflexivity|]); repeat split.
Qed.

(* ================================================================== *)
(** * Further properties *)

(** ** The job orchestrator *)

Module LifecycleFacts.
Import ScrapingController JobLifecycle.

Lemma find_map_key (key : ScrapedUrl -> string) (k : string)
      (g : ScrapedUrl -> ScrapedUrl) (rows : list ScrapedUrl) :
  (forall j, key (g j) = key j) ->
  find (fun j => String.eqb (key j) k) (map g rows)
  = option_map g (find (fun j => String.eqb (key j) k) rows).
Proof.
  intro Hkey. induction rows as [|j rows IH]; [reflexivity|].
  simpl. rewrite Hkey. destruct (String.eqb (key j) k); [reflexivity|exact IH].
Qed.

Lemma find_app_none {A : Type} (p : A -> bool) (l l' : list A) :
  find p l = None -> find p (l ++ l') = find p l'.
Proof.
  induction l as [|x l IH]; [reflexivity|]. simpl.
  destruct (p x); [discriminate|exact IH].
Qed.

Lemma find_app_some {A : Type} (p : A -> bool) (l l' : list A) (x : A) :
  find p l = Some x -> find p (l ++ l') = Some x.
Proof.
  induction l as [|y l IH]; [discriminate|]. simpl.
  destruct (p y); [auto|exact IH].
Qed.

Lemma launches_app (a b : list Event) : launches (a ++ b) = launches a ++ launches b.
Proof.
  induction a as [|e a IH]; [reflexivity|]. destruct e; simpl; rewrite IH; reflexivity.
Qed.

(** *** Rows are kept *)

Lemma kept_refl (j : ScrapedUrl) : kept j j.
Proof. unfold kept. repeat split. lia. Qed.

Lemma kept_trans (a b c : ScrapedUrl) : kept a b -> kept b c -> kept a c.
Proof.
  unfold kept. intros [H1 [H2 H3]] [H4 [H5 H6]].
  repeat split; [congruence|congruence|lia].
Qed.

Lemma kept_reprocess (now : Z) (j : ScrapedUrl) : kept j (reprocess now j).
Proof. unfold kept. simpl. repeat split. lia. Qed.

Lemma kept_succeeded (rid : string) (now : Z) (j : ScrapedUrl) : kept j (succeeded rid now j).
Proof. unfold kept. simpl. repeat split. lia. Qed.

Lemma kept_failed (msg : string) (now : Z) (j : ScrapedUrl) : kept j (failed msg now j).
Proof. unfold kept. simpl. repeat split. lia. Qed.

Lemma Forall2_kept_map (p : ScrapedUrl -> bool) (g : ScrapedUrl -> ScrapedUrl)
      (rows : list ScrapedUrl) :
  (forall j, kept j (g j)) ->
  Forall2 kept rows (map (fun j => if p j then g j else j) rows).
Proof.
  intro Hg. induction rows as [|j rows IH]; simpl; constructor; [|exact IH].
  destruct (p j); [apply Hg|apply kept_refl].
Qed.

Lemma Forall2_kept_trans (a : list ScrapedUrl) :
  forall b c, Forall2 kept a b -> Forall2 kept b c -> Forall2 kept a c.
Proof.
  induction a as [|x a IH]; intros b c Hab Hbc.
  - inversion Hab; subst. inversion Hbc; subst. constructor.
  - inversion Hab as [|? y ? b' Hxy Hab']; subst.
    inversion Hbc as [|? z ? c' Hyz Hbc']; subst.
    constructor; [exact (kept_trans _ _ _ Hxy Hyz)|exact (IH _ _ Hab' Hbc')].
Qed.

Lemma Forall2_kept_refl (rows : list ScrapedUrl) : Forall2 kept rows rows.
Proof. induction rows; constructor; [apply kept_refl|assumption]. Qed.

Lemma grown_refl (rows : list ScrapedUrl) : grown rows rows.
Proof.
  exists rows, []. split; [symmetry; apply app_nil_r|apply Forall2_kept_refl].
Qed.

Lemma grown_trans (a b c : list ScrapedUrl) : grown a b -> grown b c -> grown a c.
Proof.
  intros [o1 [n1 [-> H1]]] [o2 [n2 [-> H2]]].
  apply Forall2_app_inv_l in H2 as [o21 [o22 [H21 [H22 ->]]]].
  exists o21, (o22 ++ n2). split; [symmetry; apply app_assoc|].
  exact (Forall2_kept_trans _ _ _ H1 H21).
Qed.

Lemma grown_map (p : ScrapedUrl -> bool) (g : ScrapedUrl -> ScrapedUrl)
      (rows : list ScrapedUrl) :
  (forall j, kept j (g j)) ->
  grown rows (map (fun j => if p j then g j else j) rows).
Proof.
  intro Hg. exists (map (fun j => if p j then g j else j) rows), [].
  split; [symmetry; apply app_nil_r|apply Forall2_kept_map; exact Hg].
Qed.

Lemma grown_upsert (u : string) (now : Z) (w : World) :
  grown (scrapedUrls (db w)) (scrapedUrls (db (snd (upsertByUrl u now w)))).
Proof.
  unfold upsertByUrl. destruct (findByUrl u (db w)); simpl.
  - apply grown_map. apply kept_reprocess.
  - exists (scrapedUrls (db w)), [created (newId (db w)) u now]. split; [reflexivity|].
    apply Forall2_kept_refl.
Qed.

Lemma grown_bulk_loop (urls : list jsval) (now : Z) :
  forall (ids : list string) (w : World),
    grown (scrapedUrls (db w)) (scrapedUrls (db (snd (bulk_loop urls now ids w)))).
Proof.
  induction urls as [|v urls IH]; intros ids w; [apply grown_refl|].
  destruct v; simpl; try apply IH.
  pose proof (grown_upsert s now w) as Hu.
  destruct (upsertByUrl s now w) as [j w1]. simpl in Hu.
  eapply grown_trans; [exact Hu|]. apply (IH _ (launch s (id j) w1)).
Qed.

(** *** Urls stay unique *)

Lemma NoDup_snoc {A : Type} (l : list A) (a : A) :
  NoDup l -> ~ In a l -> NoDup (l ++ [a]).
Proof.
  induction l as [|x l IH]; intros Hl Ha; simpl.
  - constructor; [intros []|constructor].
  - inversion Hl as [|? ? Hx Hl']; subst. constructor.
    + intro Hin. apply in_app_or in Hin as [Hin|[->|[]]]; [contradiction|].
      apply Ha. left. reflexivity.
    + apply IH; [assumption|]. intro Hin. apply Ha. right. assumption.
Qed.

Lemma map_url_map (p : ScrapedUrl -> bool) (g : ScrapedUrl -> ScrapedUrl)
      (rows : list ScrapedUrl) :
  (forall j, url (g j) = url j) ->
  map url (map (fun j => if p j then g j else j) rows) = map url rows.
Proof.
  intro Hg. induction rows as [|j rows IH]; [reflexivity|]. simpl.
  rewrite IH. destruct (p j); [rewrite Hg|]; reflexivity.
Qed.

Lemma findByUrl_none_not_in (u : string) (st : Store) :
  findByUrl u st = None -> ~ In u (map url (scrapedUrls st)).
Proof.
  unfold findByUrl. intros H Hin. apply in_map_iff in Hin as [j [Hj Hin]].
  pose proof (find_none _ _ H j Hin) as Hn. cbv beta in Hn.
  rewrite Hj, String.eqb_refl in Hn. discriminate.
Qed.

Lemma unique_upsert (u : string) (now : Z) (w : World) :
  unique_urls (db w) -> unique_urls (db (snd (upsertByUrl u now w))).
Proof.
  unfold unique_urls, upsertByUrl. intro H.
  destruct (findByUrl u (db w)) eqn:E; simpl.
  - rewrite map_url_map by reflexivity. exact H.
  - rewrite map_app. simpl. apply NoDup_snoc; [exact H|].
    apply findByUrl_none_not_in. exact E.
Qed.

Lemma unique_bulk_loop (urls : list jsval) (now : Z) :
  forall (ids : list string) (w : World),
    unique_urls (db w) -> unique_urls (db (snd (bulk_loop urls now ids w))).
Proof.
  induction urls as [|v urls IH]; intros ids w H; [exact H|].
  destruct v; simpl; try (apply IH; exact H).
  pose proof (unique_upsert s now w H) as Hu.
  destruct (upsertByUrl s now w) as [j w1]. simpl in Hu.
  apply (IH _ (launch s (id j) w1)). exact Hu.
Qed.

End LifecycleFacts.

Module OrchestratorProperties.
Import ScrapingController JobLifecycle LifecycleFacts.

(** X1.  A submission of a url whose job is [processing] answers with the
    handle of that job and leaves the world as it was. *)
Theorem scrapeRecipe_processing_handle
  (u : string) (now : Z) (w : World) (j : ScrapedUrl) :
  u <> "" ->
  findByUrl u (db w) = Some j ->
  status j = "processing" ->
  scrapeRecipe (VStr u) now w
  = ({| code := 200;
        body := JobHandle "processing" (id j) "Recipe is currently being scraped" |}, w).
Proof.
  intros Hu Hj Hs. unfold scrapeRecipe.
  rewrite (ControllerFacts.truthy_nonempty u Hu). simpl negb. cbv iota.
  rewrite Hj, Hs. reflexivity.
Qed.

Lemma scrapeRecipe_processing_handle_witness :
  scrapeRecipe (VStr cake_url) 200 (cake_world "processing" None)
  = ({| code := 200;
        body := JobHandle "processing" "job0" "Recipe is currently being scraped" |},
     cake_world "processing" None).
Proof.
  apply (scrapeRecipe_processing_handle cake_url 200 (cake_world "processing" None)
           (cake_job "processing" None)).
  - discriminate.
  - reflexivity.
  - reflexivity.
Defined.

(** X2.  A submission of a url that has no job adds one row at the end
    of the table, for that url, under the new id and [processing],
    leaves the other rows and the recipes as they are, launches one
    extraction for the url under the new id and answers with that id;
    the url now finds the new row. *)
Theorem scrapeRecipe_new_url (u : string) (now : Z) (w : World) :
  u <> "" ->
  findByUrl u (db w) = None ->
  exists w' row,
    scrapeRecipe (VStr u) now w
    = ({| code := 200;
          body := JobHandle "processing" (newId (db w))
                    "Recipe scraping started. Check status endpoint for progress." |}, w')
    /\ scrapedUrls (db w') = scrapedUrls (db w) ++ [row]
    /\ id row = newId (db w) /\ url row = u /\ status row = "processing"
    /\ recipes (db w') = recipes (db w)
    /\ findByUrl u (db w') = Some row
    /\ events w' = events w ++ [Wrote (newId (db w)); Launched u (newId (db w))].
Proof.
  intros Hu Hn. unfold scrapeRecipe.
  rewrite (ControllerFacts.truthy_nonempty u Hu). simpl negb. cbv iota.
  rewrite Hn. unfold upsertByUrl. rewrite Hn. simpl.
  eexists. exists (created (newId (db w)) u now).
  split; [reflexivity|]. simpl. repeat split.
  - unfold findByUrl in *. simpl. rewrite (find_app_none _ _ _ Hn). simpl.
    rewrite String.eqb_refl. reflexivity.
  - rewrite <- app_assoc. reflexivity.
Qed.

Lemma scrapeRecipe_new_url_witness :
  exists w' row,
    scrapeRecipe (VStr "https://example.com/pie") 200 (cake_world "failed" None)
    = ({| code := 200;
          body := JobHandle "processing" "job1"
                    "Recipe scraping started. Check status endpoint for progress." |}, w')
    /\ scrapedUrls (db w') = [cake_job "failed" None; row]
    /\ url row = "https://example.com/pie"
    /\ events w' = [Wrote "job1"; Launched "https://example.com/pie" "job1"].
Proof.
  destruct (scrapeRecipe_new_url "https://example.com/pie" 200 (cake_world "failed" None))
    as [w' [row [H1 [H2 [_ [H3 [_ [_ [_ H5]]]]]]]]].
  - discriminate.
  - reflexivity.
  - exists w', row. split; [exact H1|]. split; [exact H2|]. split; [exact H3|exact H5].
Defined.

(** X3.  A submission of a url whose job is [failed], or is [success]
    with a recipe that is no longer stored, writes the job back as
    [processing] with [retryCount] one higher, launches one extraction
    under the job's id and answers with that id. *)
Theorem scrapeRecipe_resubmission
  (u : string) (now : Z) (w : World) (j : ScrapedUrl) :
  u <> "" ->
  findByUrl u (db w) = Some j ->
  (status j = "failed"
   \/ (status j = "success" /\ exists rid, recipeId j = Some rid
                                            /\ findRecipe rid (db w) = None)) ->
  exists w',
    scrapeRecipe (VStr u) now w
    = ({| code := 200;
          body := JobHandle "processing" (id j)
                    "Recipe scraping started. Check status endpoint for progress." |}, w')
    /\ findByUrl u (db w') = Some (reprocess now j)
    /\ recipes (db w') = recipes (db w)
    /\ events w' = events w ++ [Wrote (id j); Launched u (id j)].
Proof.
  intros Hu Hj Hcase.
  assert (Hstart :
    exists w',
      (let (scrapingJob, w1) := upsertByUrl u now w in
       respond 200 (JobHandle "processing" (id scrapingJob)
                      "Recipe scraping started. Check status endpoint for progress.")
               (launch u (id scrapingJob) w1))
      = ({| code := 200;
            body := JobHandle "processing" (id j)
                      "Recipe scraping started. Check status endpoint for progress." |}, w')
      /\ findByUrl u (db w') = Some (reprocess now j)
      /\ recipes (db w') = recipes (db w)
      /\ events w' = events w ++ [Wrote (id j); Launched u (id j)]).
  { unfold upsertByUrl. rewrite Hj. simpl. eexists. split; [reflexivity|].
    simpl. repeat split.
    - unfold findByUrl in *. simpl.
      rewrite (find_map_key url u
                 (fun j' => if String.eqb (url j') u then reprocess now j' else j'))
        by (intro j0; destruct (String.eqb (url j0) u); reflexivity).
      rewrite Hj. simpl. apply find_some in Hj as [_ Hj]. cbv beta in Hj.
      rewrite Hj. reflexivity.
    - rewrite <- app_assoc. reflexivity. }
  unfold scrapeRecipe.
  rewrite (ControllerFacts.truthy_nonempty u Hu). simpl negb. cbv iota. rewrite Hj.
  destruct Hcase as [Hs|[Hs [rid [Hr Hf]]]].
  - rewrite Hs. simpl. exact Hstart.
  - rewrite Hs, Hr. simpl. destruct (JsString.truthy rid); simpl.
    + rewrite Hf. exact Hstart.
    + exact Hstart.
Qed.

Lemma scrapeRecipe_resubmission_witness :
  (exists w',
     scrapeRecipe (VStr cake_url) 200 (cake_world "failed" None)
     = ({| code := 200;
           body := JobHandle "processing" "job0"
                     "Recipe scraping started. Check status endpoint for progress." |}, w')
     /\ option_map retryCount (findByUrl cake_url (db w')) = Some 1%Z)
  /\ (exists w',
        scrapeRecipe (VStr cake_url) 200 (cake_world "success" (Some "gone"))
        = ({| code := 200;
              body := JobHandle "processing" "job0"
                        "Recipe scraping started. Check status endpoint for progress." |}, w')
        /\ option_map status (findByUrl cake_url (db w')) = Some "processing").
Proof.
  split.
  - destruct (scrapeRecipe_resubmission cake_url 200 (cake_world "failed" None)
                (cake_job "failed" None)) as [w' [H1 [H2 _]]].
    + discriminate.
    + reflexivity.
    + left. reflexivity.
    + exists w'. split; [exact H1|]. rewrite H2. reflexivity.
  - destruct (scrapeRecipe_resubmission cake_url 200 (cake_world "success" (Some "gone"))
                (cake_job "success" (Some "gone"))) as [w' [H1 [H2 _]]].
    + discriminate.
    + reflexivity.
    + right. split; [reflexivity|]. exists "gone". split; reflexivity.
    + exists w'. split; [exact H1|]. rewrite H2. reflexivity.
Defined.

(** X4.  [bulkScrapeRecipes] answers 400 and leaves the world as it was
    when [urls] is not an array, is an empty array, or has more than 10
    entries. *)
Theorem bulkScrapeRecipes_limits (urlsField : jsval) (now : Z) (w : World) :
  ((forall l, urlsField <> VArr l) \/ urlsField = VArr [] ->
   bulkScrapeRecipes urlsField now w
   = ({| code := 400; body := ErrorBody "Array of URLs is required" |}, w))
  /\ (forall l, urlsField = VArr l -> (10 < List.length l)%nat ->
      bulkScrapeRecipes urlsField now w
      = ({| code := 400; body := ErrorBody "Maximum 10 URLs allowed per batch" |}, w)).
Proof.
  split.
  - intros [H| ->]; [|reflexivity].
    destruct urlsField; try reflexivity. exfalso. apply (H l). reflexivity.
  - intros l -> Hl. unfold bulkScrapeRecipes.
    destruct (Nat.eqb_spec (List.length l) 0) as [E|_]; [lia|].
    destruct (Nat.ltb_spec 10 (List.length l)) as [_|E]; [reflexivity|lia].
Qed.

Lemma bulkScrapeRecipes_limits_witness :
  bulkScrapeRecipes (VStr cake_url) 200 (cake_world "failed" None)
  = ({| code := 400; body := ErrorBody "Array of URLs is required" |},
     cake_world "failed" None)
  /\ bulkScrapeRecipes (VArr (repeat (VStr cake_url) 11)) 200 (cake_world "failed" None)
     = ({| code := 400; body := ErrorBody "Maximum 10 URLs allowed per batch" |},
        cake_world "failed" None).
Proof.
  split.
  - apply (proj1 (bulkScrapeRecipes_limits (VStr cake_url) 200 (cake_world "failed" None))).
    left. intros l H. discriminate H.
  - apply (proj2 (bulkScrapeRecipes_limits (VArr (repeat (VStr cake_url) 11)) 200
                    (cake_world "failed" None)) (repeat (VStr cake_url) 11) eq_refl).
    simpl. lia.
Defined.

Lemma bulk_loop_launches (urls : list jsval) (now : Z) :
  forall (ids : list string) (w : World),
    exists new,
      fst (bulk_loop urls now ids w) = ids ++ new
      /\ List.length new = List.length (strings_of urls)
      /\ launches (events (snd (bulk_loop urls now ids w)))
         = launches (events w) ++ combine (strings_of urls) new.
Proof.
  induction urls as [|v urls IH]; intros ids w.
  - exists []. simpl. rewrite !app_nil_r. auto.
  - destruct v; simpl; try apply IH.
    destruct (upsertByUrl s now w) as [j w1] eqn:E.
    destruct (IH (ids ++ [id j]) (launch s (id j) w1)) as [new [H1 [H2 H3]]].
    exists (id j :: new). split; [rewrite H1, <- app_assoc; reflexivity|].
    split; [simpl; rewrite H2; reflexivity|].
    rewrite H3. unfold launch. simpl. rewrite launches_app. simpl.
    assert (Hw : launches (events w1) = launches (events w)).
    { unfold upsertByUrl in E. destruct (findByUrl s (db w)); injection E as _ <-;
        simpl; rewrite launches_app; simpl; apply app_nil_r. }
    rewrite Hw, <- app_assoc. reflexivity.
Qed.

(** A job that a url finds is still found, under the same id, after an
    upsert for any url, and stays [processing] if it was. *)
Lemma upsert_keeps_found (u' u : string) (now : Z) (w : World) (j : ScrapedUrl) :
  findByUrl u (db w) = Some j ->
  exists j',
    findByUrl u (db (snd (upsertByUrl u' now w))) = Some j'
    /\ id j' = id j
    /\ (status j = "processing" -> status j' = "processing").
Proof.
  intro H. unfold upsertByUrl. destruct (findByUrl u' (db w)) as [j0|] eqn:E.
  - cbn [snd db replace_rows]. unfold findByUrl, replace_rows. cbn [scrapedUrls].
    rewrite (find_map_key url u
               (fun j1 => if String.eqb (url j1) u' then reprocess now j1 else j1))
      by (intro j1; destruct (String.eqb (url j1) u'); reflexivity).
    unfold findByUrl in H. rewrite H. cbn [option_map].
    eexists. split; [reflexivity|].
    destruct (String.eqb (url j) u'); [split; [reflexivity|intros _; reflexivity]|].
    split; [reflexivity|auto].
  - cbn [snd db]. unfold findByUrl. cbn [scrapedUrls].
    unfold findByUrl in H. rewrite (find_app_some _ _ _ j H).
    exists j. auto.
Qed.

(** The row an upsert returns is the one its url finds afterwards; it
    is [processing], under the id of the job the url had, if any. *)
Lemma upsert_found (u : string) (now : Z) (w : World) :
  findByUrl u (db (snd (upsertByUrl u now w))) = Some (fst (upsertByUrl u now w))
  /\ status (fst (upsertByUrl u now w)) = "processing"
  /\ url (fst (upsertByUrl u now w)) = u
  /\ (forall j0, findByUrl u (db w) = Some j0 -> id (fst (upsertByUrl u now w)) = id j0).
Proof.
  unfold upsertByUrl. destruct (findByUrl u (db w)) as [j0|] eqn:E.
  - cbn [fst snd db]. unfold findByUrl, replace_rows. cbn [scrapedUrls].
    rewrite (find_map_key url u
               (fun j1 => if String.eqb (url j1) u then reprocess now j1 else j1))
      by (intro j1; destruct (String.eqb (url j1) u); reflexivity).
    unfold findByUrl in E. rewrite E. cbn [option_map].
    apply find_some in E as [_ E]. rewrite E.
    split; [reflexivity|]. split; [reflexivity|].
    split; [apply String.eqb_eq in E; exact E|].
    intros j1 H1. injection H1 as <-. reflexivity.
  - cbn [fst snd db]. unfold findByUrl. cbn [scrapedUrls].
    unfold findByUrl in E. rewrite (find_app_none _ _ _ E).
    cbn [find url created]. rewrite String.eqb_refl.
    split; [reflexivity|]. split; [reflexivity|]. split; [reflexivity|].
    intros j1 H1. discriminate.
Qed.

Lemma bulk_loop_keeps_found (u : string) (now : Z) (urls : list jsval) :
  forall (ids : list string) (w : World) (j : ScrapedUrl),
    findByUrl u (db w) = Some j ->
    exists j',
      findByUrl u (db (snd (bulk_loop urls now ids w))) = Some j'
      /\ id j' = id j
      /\ (status j = "processing" -> status j' = "processing").
Proof.
  induction urls as [|v urls IH]; intros ids w j H.
  - exists j. auto.
  - destruct v; simpl; try (apply IH; exact H).
    destruct (upsert_keeps_found s u now w j H) as [j1 [H1 [H2 H3]]].
    destruct (upsertByUrl s now w) as [j0 w1]. cbn [snd] in H1.
    destruct (IH (ids ++ [id j0]) (launch s (id j0) w1) j1 H1) as [j' [H4 [H5 H6]]].
    exists j'. split; [exact H4|]. split; [congruence|auto].
Qed.

(** Each id that the loop answers with is the id of the job that its
    url finds in the store afterwards, which is [processing]; it is the
    id of the job the url had before the batch, if it had one. *)
Lemma bulk_loop_jobs (now : Z) (urls : list jsval) :
  forall (ids : list string) (w : World),
    exists new,
      fst (bulk_loop urls now ids w) = ids ++ new
      /\ Forall2 (fun u i =>
                    (exists j, findByUrl u (db (snd (bulk_loop urls now ids w))) = Some j
                               /\ id j = i /\ status j = "processing")
                    /\ (forall j0, findByUrl u (db w) = Some j0 -> i = id j0))
                 (strings_of urls) new.
Proof.
  induction urls as [|v urls IH]; intros ids w.
  - exists []. simpl. rewrite app_nil_r. split; [reflexivity|constructor].
  - destruct v; simpl; try apply IH.
    pose proof (upsert_found s now w) as [Hf [Hs [_ Hold]]].
    pose proof (fun u j => upsert_keeps_found s u now w j) as Hkeep.
    destruct (upsertByUrl s now w) as [j0 w1]. cbn [fst snd] in *.
    destruct (IH (ids ++ [id j0]) (launch s (id j0) w1)) as [new [H1 H2]].
    exists (id j0 :: new). split; [rewrite H1, <- app_assoc; reflexivity|].
    constructor.
    + split; [|intros j1 Hj1; apply Hold; exact Hj1].
      destruct (bulk_loop_keeps_found s now urls (ids ++ [id j0])
                  (launch s (id j0) w1) j0 Hf) as [j' [H3 [H4 H5]]].
      exists j'. split; [exact H3|]. split; [exact H4|exact (H5 Hs)].
    + eapply Forall2_impl; [|exact H2]. intros u i [Hfound Hprev].
      split; [exact Hfound|]. intros j1 Hj1.
      destruct (Hkeep u j1 Hj1) as [j2 [Hj2 [Hid _]]].
      rewrite (Hprev j2 Hj2). exact Hid.
Qed.

(** X5.  A batch of 1 to 10 entries is accepted: it answers with one job
    id for each entry that is a string, entries that are not strings
    being skipped.  Each id is the id of the job that its url finds in
    the store after the batch, which is [processing], and the id of the
    job the url had before the batch if it had one; one extraction is
    launched for each of these urls under that id, in the order of the
    batch. *)
Theorem bulkScrapeRecipes_accepts (urls : list jsval) (now : Z) (w : World) :
  (1 <= List.length urls <= 10)%nat ->
  exists jobIds message w',
    bulkScrapeRecipes (VArr urls) now w
    = ({| code := 200; body := JobHandles "processing" jobIds message |}, w')
    /\ List.length jobIds = List.length (strings_of urls)
    /\ Forall2 (fun u i =>
                  (exists j, findByUrl u (db w') = Some j
                             /\ id j = i /\ status j = "processing")
                  /\ (forall j0, findByUrl u (db w) = Some j0 -> i = id j0))
               (strings_of urls) jobIds
    /\ launches (events w') = launches (events w) ++ combine (strings_of urls) jobIds.
Proof.
  intros [Hlo Hhi]. unfold bulkScrapeRecipes.
  destruct (Nat.eqb_spec (List.length urls) 0) as [E|_]; [lia|].
  destruct (Nat.ltb_spec 10 (List.length urls)) as [E|_]; [lia|].
  destruct (bulk_loop_launches urls now [] w) as [new [H1 [H2 H3]]].
  destruct (bulk_loop_jobs now urls [] w) as [new' [H4 H5]].
  destruct (bulk_loop urls now [] w) as [jobIds w1]. simpl in H1, H3, H4, H5.
  subst jobIds. subst new'.
  do 3 eexists. split; [reflexivity|]. split; [exact H2|]. split; [exact H5|exact H3].
Qed.

Lemma bulkScrapeRecipes_accepts_witness :
  exists jobIds message w',
    bulkScrapeRecipes (VArr [VStr cake_url; VNum 7; VStr "https://example.com/pie"]) 200
      (cake_world "failed" None)
    = ({| code := 200; body := JobHandles "processing" jobIds message |}, w')
    /\ List.length jobIds = 2%nat
    /\ Forall2 (fun u i =>
                  (exists j, findByUrl u (db w') = Some j
                             /\ id j = i /\ status j = "processing")
                  /\ (forall j0, findByUrl u (db (cake_world "failed" None)) = Some j0 ->
                                 i = id j0))
               [cake_url; "https://example.com/pie"] jobIds
    /\ launches (events w')
       = combine [cake_url; "https://example.com/pie"] jobIds.
Proof.
  apply (bulkScrapeRecipes_accepts
           [VStr cake_url; VNum 7; VStr "https://example.com/pie"] 200
           (cake_world "failed" None)).
  simpl. lia.
Defined.

Lemma table_step_refl (w : World) : table_step w w.
Proof. split; [apply grown_refl|auto]. Qed.

Lemma table_step_upsert_launch (u : string) (now : Z) (w : World)
      (b : ScrapedUrl -> Body) :
  table_step w
    (snd (let (scrapingJob, w1) := upsertByUrl u now w in
          respond 200 (b scrapingJob) (launch u (id scrapingJob) w1))).
Proof.
  pose proof (grown_upsert u now w) as Hg.
  pose proof (unique_upsert u now w) as Hu.
  destruct (upsertByUrl u now w) as [j w1]. simpl in *. split; assumption.
Qed.

Lemma table_step_updateById (i : string) (g : ScrapedUrl -> ScrapedUrl) (w : World) :
  (forall j, kept j (g j)) ->
  table_step w (updateById i g w).
Proof.
  intro Hg. split.
  - simpl. apply grown_map. exact Hg.
  - unfold unique_urls. simpl. intro H. rewrite map_url_map; [exact H|].
    intro j. apply (Hg j).
Qed.

Lemma handlers_table_step (now : Z) (w : World) :
  (forall urlField, table_step w (snd (scrapeRecipe urlField now w)))
  /\ (forall jobId, table_step w (snd (retryScrapingJob jobId now w)))
  /\ (forall urlsField, table_step w (snd (bulkScrapeRecipes urlsField now w)))
  /\ (forall jobId, table_step w (snd (getScrapingStatus jobId w)))
  /\ (forall jobId outcome, table_step w (onSettled jobId outcome now w)).
Proof.
  split; [|split; [|split; [|split]]].
  - intro urlField. unfold scrapeRecipe.
    destruct urlField; try apply table_step_refl.
    destruct (negb (JsString.truthy s)); [apply table_step_refl|].
    destruct (findByUrl s (db w)) as [j|].
    + destruct (String.eqb (status j) "success" && truthy_opt (recipeId j)).
      * destruct (recipeId j) as [rid|].
        -- destruct (findRecipe rid (db w)); [apply table_step_refl|].
           apply (table_step_upsert_launch s now w
                    (fun scrapingJob => JobHandle "processing" (id scrapingJob)
                       "Recipe scraping started. Check status endpoint for progress.")).
        -- apply (table_step_upsert_launch s now w
                    (fun scrapingJob => JobHandle "processing" (id scrapingJob)
                       "Recipe scraping started. Check status endpoint for progress.")).
      * destruct (String.eqb (status j) "processing"); [apply table_step_refl|].
        apply (table_step_upsert_launch s now w
                 (fun scrapingJob => JobHandle "processing" (id scrapingJob)
                    "Recipe scraping started. Check status endpoint for progress.")).
    + apply (table_step_upsert_launch s now w
               (fun scrapingJob => JobHandle "processing" (id scrapingJob)
                  "Recipe scraping started. Check status endpoint for progress.")).
  - intro jobId. unfold retryScrapingJob.
    destruct (findById jobId (db w)) as [j|]; [|apply table_step_refl].
    destruct (String.eqb (status j) "processing"); [apply table_step_refl|].
    simpl. apply (table_step_updateById jobId (reprocess now) w). apply kept_reprocess.
  - intro urlsField. unfold bulkScrapeRecipes.
    destruct urlsField; try apply table_step_refl.
    destruct (List.length l =? 0)%nat; [apply table_step_refl|].
    destruct (10 <? List.length l)%nat; [apply table_step_refl|].
    pose proof (grown_bulk_loop l now [] w) as Hg.
    pose proof (unique_bulk_loop l now [] w) as Hu.
    destruct (bulk_loop l now [] w) as [ids w1]. simpl in *. split; assumption.
  - intro jobId. unfold getScrapingStatus.
    destruct (findById jobId (db w)); apply table_step_refl.
  - intros jobId outcome. destruct outcome; simpl.
    + destruct (table_step_updateById jobId (succeeded (recipe_id recipe) now)
                  (storeRecipe recipe w) (kept_succeeded _ _)) as [Hg Hu].
      split; [exact Hg|exact Hu].
    + apply table_step_updateById. apply kept_failed.
    + apply table_step_updateById. apply kept_failed.
    + apply table_step_updateById. apply kept_failed.
Qed.

(** X6.  No handler and no completion callback deletes a job, moves it,
    changes its id or its url, or lowers its [retryCount]. *)
Theorem handlers_keep_jobs (now : Z) (w : World) :
  (forall urlField,
     grown (scrapedUrls (db w)) (scrapedUrls (db (snd (scrapeRecipe urlField now w)))))
  /\ (forall jobId,
        grown (scrapedUrls (db w)) (scrapedUrls (db (snd (retryScrapingJob jobId now w)))))
  /\ (forall urlsField,
        grown (scrapedUrls (db w))
              (scrapedUrls (db (snd (bulkScrapeRecipes urlsField now w)))))
  /\ (forall jobId outcome,
        grown (scrapedUrls (db w)) (scrapedUrls (db (onSettled jobId outcome now w)))).
Proof.
  destruct (handlers_table_step now w) as [H1 [H2 [H3 [_ H5]]]].
  split; [|split; [|split]].
  - intro x. apply (H1 x).
  - intro x. apply (H2 x).
  - intro x. apply (H3 x).
  - intros x o. apply (H5 x o).
Qed.

(** X7.  When no two jobs have the same url, none have after a handler
    or a completion callback has run: a submission never makes a second
    job for a url that has one. *)
Theorem handlers_keep_urls_unique (now : Z) (w : World) :
  unique_urls (db w) ->
  (forall urlField, unique_urls (db (snd (scrapeRecipe urlField now w))))
  /\ (forall jobId, unique_urls (db (snd (retryScrapingJob jobId now w))))
  /\ (forall urlsField, unique_urls (db (snd (bulkScrapeRecipes urlsField now w))))
  /\ (forall jobId outcome, unique_urls (db (onSettled jobId outcome now w))).
Proof.
  intro H. destruct (handlers_table_step now w) as [H1 [H2 [H3 [_ H5]]]].
  split; [|split; [|split]].
  - intro x. apply (H1 x). exact H.
  - intro x. apply (H2 x). exact H.
  - intro x. apply (H3 x). exact H.
  - intros x o. apply (H5 x o). exact H.
Qed.

Lemma handlers_keep_urls_unique_witness :
  unique_urls
    (db (snd (bulkScrapeRecipes
                (VArr [VStr cake_url; VStr "https://example.com/pie"; VStr cake_url])
                200 (cake_world "failed" None)))).
Proof.
  apply (handlers_keep_urls_unique 200 (cake_world "failed" None)).
  unfold unique_urls. simpl. constructor; [intros []|constructor].
Defined.

Lemma findById_after_create (u : string) (now : Z) (w : World) :
  findById (newId (db w)) (db w) = None ->
  find (fun j => String.eqb (id j) (newId (db w)))
       (scrapedUrls (db w) ++ [created (newId (db w)) u now])
  = Some (created (newId (db w)) u now).
Proof.
  intro H. unfold findById in H. rewrite (find_app_none _ _ _ H). simpl.
  rewrite String.eqb_refl. reflexivity.
Qed.

(** X8.  Polling after a first submission: when the url has no job and
    the id given to the new job is not in use, [getScrapingStatus] on
    the id that [scrapeRecipe] answered with finds the job and reports
    that id, the submitted url, status [processing] and no recipe, and
    changes nothing. *)
Theorem status_after_first_submission (u : string) (now : Z) (w : World) :
  u <> "" ->
  findByUrl u (db w) = None ->
  findById (newId (db w)) (db w) = None ->
  exists jobId message w1 report,
    scrapeRecipe (VStr u) now w
    = ({| code := 200; body := JobHandle "processing" jobId message |}, w1)
    /\ getScrapingStatus jobId w1 = (StatusOk report, w1)
    /\ s_jobId report = jobId
    /\ s_url report = u
    /\ s_status report = "processing"
    /\ s_recipe report = None.
Proof.
  intros Hu Hn Hid. unfold scrapeRecipe.
  rewrite (ControllerFacts.truthy_nonempty u Hu). simpl negb. cbv iota.
  rewrite Hn. unfold upsertByUrl. rewrite Hn. simpl.
  do 4 eexists. split; [reflexivity|].
  unfold getScrapingStatus, findById. simpl.
  rewrite (findById_after_create u now w Hid). simpl.
  split; [reflexivity|]. repeat split.
Qed.

Lemma status_after_first_submission_witness :
  exists jobId message w1 report,
    scrapeRecipe (VStr "https://example.com/pie") 200 (cake_world "failed" None)
    = ({| code := 200; body := JobHandle "processing" jobId message |}, w1)
    /\ getScrapingStatus jobId w1 = (StatusOk report, w1)
    /\ s_jobId report = jobId
    /\ s_url report = "https://example.com/pie"
    /\ s_status report = "processing"
    /\ s_recipe report = None.
Proof.
  apply (status_after_first_submission "https://example.com/pie" 200
           (cake_world "failed" None)).
  - discriminate.
  - reflexivity.
  - reflexivity.
Defined.

Lemma scrapeRecipe_new_url_rows (u : string) (now : Z) (w : World) :
  u <> "" ->
  findByUrl u (db w) = None ->
  scrapedUrls (db (snd (scrapeRecipe (VStr u) now w)))
  = scrapedUrls (db w) ++ [created (newId (db w)) u now]
  /\ recipes (db (snd (scrapeRecipe (VStr u) now w))) = recipes (db w).
Proof.
  intros Hu Hn. unfold scrapeRecipe.
  rewrite (ControllerFacts.truthy_nonempty u Hu). simpl negb. cbv iota.
  rewrite Hn. unfold upsertByUrl. rewrite Hn. simpl. split; reflexivity.
Qed.

Lemma findByUrl_after_settle (u : string) (now later : Z) (w : World)
      (g : ScrapedUrl -> ScrapedUrl) (w0 : World) :
  (forall j, url (g j) = url j) ->
  findByUrl u (db w) = None ->
  scrapedUrls (db w0) = scrapedUrls (db w) ++ [created (newId (db w)) u now] ->
  findByUrl u (db (updateById (newId (db w)) g w0))
  = Some (g (created (newId (db w)) u now)).
Proof.
  intros Hg Hn Hrows. unfold findByUrl, updateById, replace_rows. simpl.
  rewrite (find_map_key url u
             (fun j => if String.eqb (id j) (newId (db w)) then g j else j))
    by (intro j; destruct (String.eqb (id j) (newId (db w))); [apply Hg|reflexivity]).
  rewrite Hrows. unfold findByUrl in Hn. rewrite (find_app_none _ _ _ Hn).
  cbn [find url created]. rewrite String.eqb_refl.
  cbn [option_map id created]. rewrite String.eqb_refl. reflexivity.
Qed.

(** X9.  Submit, extract, submit again: when a first submission of a url
    has settled with a recipe that was stored under an id not in use
    before, a second submission of the url answers with that recipe
    (its id, its title and its source url), marked cached, writes
    nothing and launches nothing. *)
Theorem resubmission_after_success_is_cached
  (u : string) (recipe : Recipe) (now later again : Z) (w : World) :
  u <> "" ->
  findByUrl u (db w) = None ->
  recipe_id recipe <> "" ->
  findRecipe (recipe_id recipe) (db w) = None ->
  exists c,
    scrapeRecipe (VStr u) again (submitted_and_settled u (Stored recipe) now later w)
    = ({| code := 200; body := CachedRecipe "success" c true |},
       submitted_and_settled u (Stored recipe) now later w)
    /\ c_id c = recipe_id recipe
    /\ c_title c = r_title (recipe_data recipe)
    /\ c_sourceUrl c = r_sourceUrl (recipe_data recipe).
Proof.
  intros Hu Hn Hrid Hfresh.
  exists {| c_id := recipe_id recipe;
            c_title := r_title (recipe_data recipe);
            c_sourceUrl := r_sourceUrl (recipe_data recipe) |}.
  split; [|repeat split].
  destruct (scrapeRecipe_new_url_rows u now w Hu Hn) as [Hrows Hrec].
  set (w2 := submitted_and_settled u (Stored recipe) now later w).
  assert (Hjob : findByUrl u (db w2)
                 = Some (succeeded (recipe_id recipe) later
                           (created (newId (db w)) u now))).
  { unfold w2, submitted_and_settled, onSettled.
    apply (findByUrl_after_settle u now later w (succeeded (recipe_id recipe) later));
      [reflexivity|exact Hn|exact Hrows]. }
  assert (Hrecipe : findRecipe (recipe_id recipe) (db w2) = Some recipe).
  { unfold w2, submitted_and_settled, onSettled, updateById, storeRecipe, findRecipe.
    cbn [db recipes replace_rows]. rewrite Hrec.
    unfold findRecipe in Hfresh. rewrite (find_app_none _ _ _ Hfresh).
    cbn [find]. rewrite String.eqb_refl. reflexivity. }
  unfold scrapeRecipe.
  rewrite (ControllerFacts.truthy_nonempty u Hu). simpl negb. cbv iota.
  rewrite Hjob. cbn [status recipeId succeeded String.eqb Ascii.eqb Bool.eqb andb truthy_opt].
  rewrite (ControllerFacts.truthy_nonempty _ Hrid), Hrecipe. reflexivity.
Qed.

Lemma resubmission_after_success_is_cached_witness :
  exists c,
    scrapeRecipe (VStr "https://example.com/pie") 400
      (submitted_and_settled "https://example.com/pie"
         (Stored {| recipe_id := "recipe1"; recipe_data := recipe_data cake_recipe |})
         200 300 (cake_world "failed" None))
    = ({| code := 200; body := CachedRecipe "success" c true |},
       submitted_and_settled "https://example.com/pie"
         (Stored {| recipe_id := "recipe1"; recipe_data := recipe_data cake_recipe |})
         200 300 (cake_world "failed" None))
    /\ c_id c = "recipe1"
    /\ c_title c = "Cake"
    /\ c_sourceUrl c = cake_url.
Proof.
  apply (resubmission_after_success_is_cached "https://example.com/pie"
           {| recipe_id := "recipe1"; recipe_data := recipe_data cake_recipe |}
           200 300 400 (cake_world "failed" None)).
  - discriminate.
  - reflexivity.
  - discriminate.
  - reflexivity.
Defined.

(** X10.  Between a first submission and its completion the job cannot be
    retried: [retryScrapingJob] answers "Job is already processing" and
    changes nothing.  Once the extraction has ended without a stored
    recipe, the job is [failed], and [retryScrapingJob] takes it back to
    [processing] with a [retryCount] one higher and launches the
    extraction of the same url under the same id. *)
Theorem retry_only_after_completion
  (u : string) (outcome : Settled) (now later again : Z) (w : World) :
  u <> "" ->
  findByUrl u (db w) = None ->
  findById (newId (db w)) (db w) = None ->
  fruitless outcome ->
  retryScrapingJob (newId (db w)) later (snd (scrapeRecipe (VStr u) now w))
  = ({| code := 400; body := ErrorBody "Job is already processing" |},
     snd (scrapeRecipe (VStr u) now w))
  /\ exists j0 w3 j,
       findById (newId (db w)) (db (submitted_and_settled u outcome now later w)) = Some j0
       /\ status j0 = "failed"
       /\ retryScrapingJob (newId (db w)) again (submitted_and_settled u outcome now later w)
          = ({| code := 200;
                body := JobHandle "processing" (newId (db w)) "Scraping retry started" |}, w3)
       /\ findById (newId (db w)) (db w3) = Some j
       /\ status j = "processing" /\ retryCount j = (retryCount j0 + 1)%Z
       /\ launches (events w3)
          = launches (events w) ++ [(u, newId (db w)); (u, newId (db w))].
Proof.
  intros Hu Hn Hid Hout.
  destruct (scrapeRecipe_new_url_rows u now w Hu Hn) as [Hrows _].
  assert (Hev : events (snd (scrapeRecipe (VStr u) now w))
                = events w ++ [Wrote (newId (db w)); Launched u (newId (db w))]).
  { unfold scrapeRecipe.
    rewrite (ControllerFacts.truthy_nonempty u Hu). simpl negb. cbv iota.
    rewrite Hn. unfold upsertByUrl. rewrite Hn. simpl.
    rewrite <- app_assoc. reflexivity. }
  set (w1 := snd (scrapeRecipe (VStr u) now w)) in *.
  assert (H1 : findById (newId (db w)) (db w1) = Some (created (newId (db w)) u now)).
  { unfold findById. rewrite Hrows. apply findById_after_create. exact Hid. }
  split.
  - unfold retryScrapingJob. rewrite H1. reflexivity.
  - assert (Hf : forall msg,
              exists j0 w3 j,
                findById (newId (db w))
                  (db (updateById (newId (db w)) (failed msg later) w1)) = Some j0
                /\ status j0 = "failed"
                /\ retryScrapingJob (newId (db w)) again
                  (updateById (newId (db w)) (failed msg later) w1)
                = ({| code := 200;
                      body := JobHandle "processing" (newId (db w))
                                "Scraping retry started" |}, w3)
                /\ findById (newId (db w)) (db w3) = Some j
                /\ status j = "processing" /\ retryCount j = (retryCount j0 + 1)%Z
                /\ launches (events w3)
                   = launches (events w) ++ [(u, newId (db w)); (u, newId (db w))]).
    { intro msg.
      assert (Hj : findById (newId (db w))
                     (db (updateById (newId (db w)) (failed msg later) w1))
                   = Some (failed msg later (created (newId (db w)) u now))).
      { unfold findById, updateById, replace_rows. cbn [db scrapedUrls].
        rewrite ControllerFacts.find_replace by reflexivity.
        unfold findById in H1. rewrite H1. reflexivity. }
      exists (failed msg later (created (newId (db w)) u now)).
      unfold retryScrapingJob.
      rewrite Hj. cbn [status failed String.eqb Ascii.eqb Bool.eqb].
      do 2 eexists. split; [reflexivity|]. split; [reflexivity|].
      split; [reflexivity|]. split.
      - unfold findById, updateById, replace_rows, launch. cbn [db scrapedUrls].
        rewrite ControllerFacts.find_replace by reflexivity.
        unfold findById in Hj. cbn [updateById replace_rows db scrapedUrls] in Hj.
        rewrite Hj. reflexivity.
      - split; [reflexivity|]. split; [reflexivity|].
        unfold launch, updateById. cbn [events]. rewrite !launches_app, Hev, launches_app.
        cbn [launches url id failed created]. rewrite !app_nil_r, <- app_assoc.
        reflexivity. }
    unfold submitted_and_settled. fold w1.
    destruct outcome; [contradiction| | |]; cbn [onSettled]; apply Hf.
Qed.

Lemma retry_only_after_completion_witness :
  retryScrapingJob "job1" 300
    (snd (scrapeRecipe (VStr "https://example.com/pie") 200 (cake_world "failed" None)))
  = ({| code := 400; body := ErrorBody "Job is already processing" |},
     snd (scrapeRecipe (VStr "https://example.com/pie") 200 (cake_world "failed" None))).
Proof.
  destruct (retry_only_after_completion "https://example.com/pie" NothingFound
              200 300 400 (cake_world "failed" None)) as [H _].
  - discriminate.
  - reflexivity.
  - reflexivity.
  - exact I.
  - exact H.
Defined.

End OrchestratorProperties.

(** ** The extraction strategies *)

Module ExtractionFacts.

Section Steps.
Variable ok : string -> bool.
Variable f : nat -> string -> list Instruction.
Hypothesis f_eq : forall i raw,
  f i raw = if ok (trim raw)
            then [{| number := Z.of_nat i + 1; step := trim raw |}] else [].

Lemma each_from_in (els : list string) :
  forall (i : nat) (st : Instruction),
    In st (each_from i f els) <->
    exists k raw, nth_error els k = Some raw /\ ok (trim raw) = true
                  /\ st = {| number := Z.of_nat (i + k) + 1; step := trim raw |}.
Proof.
  induction els as [|el els IH]; intros i st; simpl.
  - split; [intros []|]. intros [k [raw [H _]]]. destruct k; discriminate.
  - rewrite in_app_iff, IH, f_eq. split.
    + intros [H|[k [raw [H1 [H2 H3]]]]].
      * destruct (ok (trim el)) eqn:E; [|destruct H].
        destruct H as [<-|[]]. exists 0%nat, el. rewrite Nat.add_0_r. auto.
      * exists (S k), raw. rewrite Nat.add_succ_r. auto.
    + intros [k [raw [H1 [H2 H3]]]]. destruct k as [|k].
      * simpl in H1. injection H1 as ->. left. rewrite H2.
        rewrite Nat.add_0_r in H3. left. symmetry. exact H3.
      * right. exists k, raw. rewrite Nat.add_succ_r in H3. auto.
Qed.

Lemma each_from_above (els : list string) :
  forall (i : nat),
    Forall (fun n => Z.of_nat i < n)%Z (numbers (each_from i f els)).
Proof.
  induction els as [|el els IH]; intro i; simpl; [constructor|].
  unfold numbers in *. rewrite map_app. apply Forall_app. split.
  - rewrite f_eq. destruct (ok (trim el)); simpl; constructor; [lia|constructor].
  - eapply Forall_impl; [|apply (IH (S i))]. intros n Hn. simpl in Hn. lia.
Qed.

Lemma each_from_sorted (els : list string) :
  forall (i : nat), StronglySorted Z.lt (numbers (each_from i f els)).
Proof.
  induction els as [|el els IH]; intro i; simpl; [constructor|].
  unfold numbers in *. rewrite map_app, f_eq.
  destruct (ok (trim el)); simpl; [|apply IH].
  constructor; [apply IH|].
  eapply Forall_impl; [|apply (each_from_above els (S i))].
  intros n Hn. simpl in *. lia.
Qed.

End Steps.

Lemma long_steps_in (els : list string) (st : Instruction) :
  In st (long_steps els) <->
  exists k raw, nth_error els k = Some raw
                /\ (10 < String.length (trim raw))%nat
                /\ st = {| number := Z.of_nat k + 1; step := trim raw |}.
Proof.
  unfold long_steps, each.
  rewrite (each_from_in (fun t => JsString.truthy t && (10 <? String.length t)%nat)
             _ (fun i raw => eq_refl)).
  split; intros [k [raw [H1 [H2 H3]]]]; exists k, raw; (split; [exact H1|]); split;
    try exact H3.
  - apply andb_true_iff in H2 as [_ H2]. apply Nat.ltb_lt. exact H2.
  - apply andb_true_iff. split; [|apply Nat.ltb_lt; exact H2].
    destruct (trim raw); [simpl in H2; lia|reflexivity].
Qed.

Lemma long_steps_sorted (els : list string) :
  StronglySorted Z.lt (numbers (long_steps els)).
Proof.
  unfold long_steps, each.
  apply (each_from_sorted (fun t => JsString.truthy t && (10 <? String.length t)%nat)
           _ (fun i raw => eq_refl)).
Qed.

Lemma selector_loop_first {A : Type} (collect : string -> list A)
      (selectors : list string) :
  (exists sel, first_yielding collect selectors sel
               /\ selector_loop collect selectors [] = collect sel)
  \/ ((forall s, In s selectors -> collect s = [])
      /\ selector_loop collect selectors [] = []).
Proof.
  induction selectors as [|sel selectors IH].
  - right. split; [intros s []|reflexivity].
  - simpl. destruct (collect sel) as [|x l] eqn:E.
    + simpl. destruct IH as [[s [[b [a [Hs [Hb Hc]]]] Hl]]|[Hall Hl]].
      * left. exists s. split; [|exact Hl].
        exists (sel :: b), a. split; [rewrite Hs; reflexivity|]. split; [|exact Hc].
        intros s0 [<-|Hin]; [exact E|apply Hb; exact Hin].
      * right. split; [|exact Hl]. intros s0 [<-|Hin]; [exact E|apply Hall; exact Hin].
    + left. exists sel. split; [|rewrite E; reflexivity].
      exists [], selectors. split; [reflexivity|]. split; [intros s []|].
      rewrite E. discriminate.
Qed.

End ExtractionFacts.

Module ExtractionProperties.
Import ExtractionFacts.

(** X11.  The steps of a microdata candidate are exactly the instruction
    elements whose trimmed text has more than 10 characters, each with
    that text and with the element's position (from 1) as its number;
    so the numbers are strictly increasing and at most the number of
    elements. *)
Theorem microdata_steps_are_positions
  (el : SimpleScrapingService.MicrodataSelection) (r : ScrapingResult) :
  SimpleScrapingService.tryMicrodataExtraction (Some el) = Some r ->
  (forall st,
     In st (instructions r) <->
     exists k raw,
       nth_error (SimpleScrapingService.ms_instructions el) k = Some raw
       /\ (10 < String.length (trim raw))%nat
       /\ st = {| number := Z.of_nat k + 1; step := trim raw |})
  /\ StronglySorted Z.lt (numbers (instructions r))
  /\ Forall (fun n => 1 <= n
                      <= Z.of_nat (List.length (SimpleScrapingService.ms_instructions el)))%Z
            (numbers (instructions r)).
Proof.
  intro H. unfold SimpleScrapingService.tryMicrodataExtraction in H.
  fold (long_steps (SimpleScrapingService.ms_instructions el)) in H.
  fold (ingredient_lines (SimpleScrapingService.ms_ingredients el)) in H.
  match type of H with (if ?c then _ else _) = _ => destruct c end; [discriminate|].
  injection H as <-. cbn [instructions].
  split; [apply long_steps_in|]. split; [apply long_steps_sorted|].
  apply Forall_forall. intros n Hn. unfold numbers in Hn.
  apply in_map_iff in Hn as [st [<- Hst]].
  apply long_steps_in in Hst as [k [raw [Hk [_ ->]]]]. cbn [number].
  assert (k < List.length (SimpleScrapingService.ms_instructions el))%nat
    by (apply nth_error_Some; congruence).
  lia.
Qed.

Lemma microdata_steps_are_positions_witness :
  exists r,
    SimpleScrapingService.tryMicrodataExtraction (Some heading_then_step) = Some r
    /\ StronglySorted Z.lt (numbers (instructions r))
    /\ In {| number := 2; step := "Whisk the eggs with the sugar until pale." |}
          (instructions r).
Proof.
  eexists. split; [vm_compute; reflexivity|].
  destruct (microdata_steps_are_positions heading_then_step _ eq_refl) as [Hin [Hs _]].
  split; [exact Hs|].
  apply Hin. exists 1%nat, "Whisk the eggs with the sugar until pale.".
  split; [reflexivity|]. split; [vm_compute; lia|reflexivity].
Defined.

Lemma each_from_nil {A : Type} (f : nat -> string -> list A) (small : string -> Prop) :
  (forall i raw, f i raw = [] <-> small raw) ->
  forall els i, each_from i f els = [] <-> forall raw, In raw els -> small raw.
Proof.
  intro Hf. induction els as [|el els IH]; intro i; simpl.
  - split; [intros _ raw []|reflexivity].
  - split.
    + intro H. apply app_eq_nil in H as [H1 H2].
      intros raw [<-|Hin]; [apply (Hf i); exact H1|].
      apply (proj1 (IH (S i)) H2). exact Hin.
    + intro H. rewrite (proj2 (Hf i el) (H el (or_introl eq_refl))). simpl.
      apply IH. intros raw Hin. apply H. right. exact Hin.
Qed.

Lemma filtered_nil {A : Type} (n : nat) (text : string) (a : A) :
  (if JsString.truthy text && (n <? String.length text)%nat then [a] else []) = []
  <-> (String.length text <= n)%nat.
Proof.
  destruct text as [|c s]; simpl JsString.truthy; cbn [andb].
  - simpl. split; [lia|reflexivity].
  - destruct (Nat.ltb_spec n (String.length (String c s))) as [L|L]; split; intro H0;
      try discriminate; try reflexivity; try exact L; lia.
Qed.

(** X12.  [tryMicrodataExtraction] gives no candidate when there is no
    recipe element, or when the element has no title text, no
    ingredient element with more than 2 characters and no instruction
    element with more than 10.  A candidate it gives always has a title
    ("Scraped Recipe" when the element has none), so it passes
    [isValidResult] exactly when it has an ingredient or a step. *)
Theorem microdata_candidate (recipeElement : option SimpleScrapingService.MicrodataSelection) :
  (SimpleScrapingService.tryMicrodataExtraction recipeElement = None <->
   recipeElement = None
   \/ exists el,
        recipeElement = Some el
        /\ trim (SimpleScrapingService.ms_name el) = ""
        /\ (forall raw, In raw (SimpleScrapingService.ms_ingredients el) ->
                        (String.length (trim raw) <= 2)%nat)
        /\ (forall raw, In raw (SimpleScrapingService.ms_instructions el) ->
                        (String.length (trim raw) <= 10)%nat))
  /\ (forall r,
        SimpleScrapingService.tryMicrodataExtraction recipeElement = Some r ->
        title_present r
        /\ (trim match recipeElement with
                 | Some el => SimpleScrapingService.ms_name el
                 | None => ""
                 end = "" -> title r = Some "Scraped Recipe")
        /\ (SimpleScrapingService.isValidResult r = true <->
            ingredients r <> [] \/ instructions r <> [])).
Proof.
  destruct recipeElement as [el|].
  2:{ split; [split; [auto|reflexivity]|]. intros r H. discriminate. }
  unfold SimpleScrapingService.tryMicrodataExtraction.
  fold (long_steps (SimpleScrapingService.ms_instructions el)).
  fold (ingredient_lines (SimpleScrapingService.ms_ingredients el)).
  cbv iota beta.
  remember (trim (SimpleScrapingService.ms_name el)) as t eqn:Et.
  assert (Hing : ingredient_lines (SimpleScrapingService.ms_ingredients el) = [] <->
                 forall raw, In raw (SimpleScrapingService.ms_ingredients el) ->
                             (String.length (trim raw) <= 2)%nat).
  { unfold ingredient_lines, each.
    apply (each_from_nil _ (fun raw => (String.length (trim raw) <= 2)%nat)).
    intros i raw. apply filtered_nil. }
  assert (Hins : long_steps (SimpleScrapingService.ms_instructions el) = [] <->
                 forall raw, In raw (SimpleScrapingService.ms_instructions el) ->
                             (String.length (trim raw) <= 10)%nat).
  { unfold long_steps, each.
    apply (each_from_nil _ (fun raw => (String.length (trim raw) <= 10)%nat)).
    intros i raw. apply filtered_nil. }
  split.
  - split.
    + intro H. right. exists el. split; [reflexivity|].
      match type of H with (if ?c then _ else _) = _ => destruct c eqn:E end;
        [|discriminate].
      apply andb_true_iff in E as [E E3]. apply andb_true_iff in E as [E1 E2].
      split; [destruct t; [symmetry; exact Et|discriminate]|]. split.
      * apply Hing. apply Nat.eqb_eq in E2.
        destruct (ingredient_lines _); [reflexivity|discriminate].
      * apply Hins. apply Nat.eqb_eq in E3.
        destruct (long_steps _); [reflexivity|discriminate].
    + intros [H|[el' [H [Ht [Hi Hs]]]]]; [discriminate|]. injection H as <-.
      rewrite <- Et in Ht. rewrite Ht, (proj2 Hing Hi), (proj2 Hins Hs). reflexivity.
  - intros r H.
    match type of H with (if ?c then _ else _) = _ => destruct c end; [discriminate|].
    injection H as <-.
    assert (Hp : title_present
                   {| title := Some (or_else t "Scraped Recipe");
                      image := Normalizer.extractImageUrl
                                 (Some match SimpleScrapingService.ms_imageSrc el with
                                       | Some s => or_else s ""
                                       | None => ""
                                       end);
                      summary := Some (trim (SimpleScrapingService.ms_description el));
                      sourceUrl := ""; sourceName := Some "";
                      readyInMinutes :=
                        parseTimeFromText (SimpleScrapingService.ms_totalTime el);
                      servings :=
                        parseServingsFromText (SimpleScrapingService.ms_recipeYield el);
                      ingredients :=
                        ingredient_lines (SimpleScrapingService.ms_ingredients el);
                      instructions :=
                        long_steps (SimpleScrapingService.ms_instructions el) |}).
    { unfold title_present. cbn [title]. eexists. split; [reflexivity|].
      destruct t; simpl; discriminate. }
    split; [exact Hp|]. split.
    + intro Ht. cbn [title]. rewrite Ht. reflexivity.
    + rewrite isValidResult_gate_rule. unfold gate_rule. tauto.
Qed.

(** An element with no name and nothing long enough gives no candidate;
    with one step of 15 characters it gives an untitled, valid one. *)
Lemma microdata_candidate_witness :
  SimpleScrapingService.tryMicrodataExtraction (Some blank_microdata) = None
  /\ match SimpleScrapingService.tryMicrodataExtraction (Some untitled_microdata) with
     | Some r => title r = Some "Scraped Recipe"
                 /\ SimpleScrapingService.isValidResult r = true
     | None => False
     end.
Proof.
  split.
  - apply (proj2 (proj1 (microdata_candidate (Some blank_microdata)))). right.
    exists blank_microdata. split; [reflexivity|]. split; [reflexivity|].
    split; simpl; intros raw H; [contradiction|].
    destruct H as [<-|[<-|[]]]; vm_compute; lia.
  - destruct (SimpleScrapingService.tryMicrodataExtraction (Some untitled_microdata))
      as [r|] eqn:E; [|vm_compute in E; discriminate E].
    destruct (proj2 (microdata_candidate (Some untitled_microdata)) r E) as [_ [Ht Hv]].
    split; [apply Ht; reflexivity|]. apply (proj2 Hv). right.
    vm_compute in E. injection E as <-. discriminate.
Defined.

Lemma or_one_truthy (a : jsnumber) : JsNumber.truthy (or_one a) = true.
Proof. unfold or_one. destruct (JsNumber.truthy a) eqn:E; [exact E|reflexivity]. Qed.

Lemma or_else_nonempty (a b : string) : b <> "" -> or_else a b <> "".
Proof. unfold or_else. destruct a; simpl; [auto|discriminate]. Qed.

Lemma ingredient_of_well_formed (line : string) :
  well_formed_ingredient line (ingredient_of line).
Proof.
  unfold well_formed_ingredient, ingredient_of. cbn [original amount name].
  split; [reflexivity|]. split; [apply or_one_truthy|apply or_else_nonempty].
Qed.

Lemma mapi_from_Forall2 {A B : Type} (f : A -> nat -> B) (R : A -> B -> Prop) (l : list A) :
  (forall x i, R x (f x i)) -> forall i, Forall2 R l (mapi_from i f l).
Proof.
  intro H. induction l as [|x l IH]; intro i; simpl; constructor; [apply H|apply IH].
Qed.

(** X13.  From a [Recipe] object with N ingredient lines and M
    instructions, [parseJsonLdRecipe] makes N ingredient records and M
    steps, in order; each record keeps its line as [original], has an
    amount that is neither 0 nor [NaN], and a name that is empty only if
    the line is; the step of an instruction is, trimmed, the
    instruction itself when it is a string, else its [text] when that
    is not empty, else its [name], else the empty string; the steps are
    numbered 1..M. *)
Theorem parseJsonLdRecipe_counts (data : SimpleScrapingService.JsonLdRecipe) :
  Forall2 well_formed_ingredient
          (SimpleScrapingService.or_empty (SimpleScrapingService.ld_recipeIngredient data))
          (ingredients (SimpleScrapingService.parseJsonLdRecipe data))
  /\ Forall2 step_of_instruction
             (SimpleScrapingService.or_empty
                (SimpleScrapingService.ld_recipeInstructions data))
             (instructions (SimpleScrapingService.parseJsonLdRecipe data))
  /\ numbers (instructions (SimpleScrapingService.parseJsonLdRecipe data))
     = one_to (List.length (SimpleScrapingService.or_empty
                              (SimpleScrapingService.ld_recipeInstructions data))).
Proof.
  unfold SimpleScrapingService.parseJsonLdRecipe. cbn [ingredients instructions].
  split; [|split].
  - unfold mapi. apply mapi_from_Forall2. intros line i.
    apply (ingredient_of_well_formed line).
  - unfold mapi. apply mapi_from_Forall2. intros x i.
    unfold step_of_instruction. cbn [step].
    destruct x as [s|[t|] [n|]]; cbn [SimpleScrapingService.instruction_text];
      try reflexivity.
    + destruct t; cbn [JsString.truthy];
        [|split; [intros _; reflexivity|intro H; discriminate H]].
      split; [intro H; contradiction|]. intros _. destruct n; reflexivity.
    + destruct t; cbn [JsString.truthy];
        [|split; [intros _; reflexivity|intro H; discriminate H]].
      split; [intro H; contradiction|]. intros _. reflexivity.
    + destruct n; reflexivity.
  - unfold mapi, one_to.
    apply (numbers_mapi_from
             (fun x => trim (SimpleScrapingService.instruction_text x))).
Qed.

Lemma parseJsonLdRecipe_counts_witness :
  Forall2 step_of_instruction
          [ SimpleScrapingService.InstrString ("  Whisk the eggs." ++ nbsp)%string;
            SimpleScrapingService.InstrObject (Some "") (Some "Fry in butter.") ]
          (instructions (SimpleScrapingService.parseJsonLdRecipe two_steps_recipe))
  /\ map step (instructions (SimpleScrapingService.parseJsonLdRecipe two_steps_recipe))
     = ["Whisk the eggs."; "Fry in butter."]
  /\ numbers (instructions (SimpleScrapingService.parseJsonLdRecipe two_steps_recipe))
     = [1%Z; 2%Z].
Proof.
  destruct (parseJsonLdRecipe_counts two_steps_recipe) as [_ [H1 H2]].
  split; [exact H1|]. split; [reflexivity|exact H2].
Defined.

(** X14.  In the rendered pattern-matching strategy the first selector of
    each list that yields something wins: the candidate's steps (its
    ingredients) are those of the first instruction (ingredient)
    selector, in the order of the list, with an element that passes the
    length filter, and the later selectors are not used; they are empty
    only when no selector has such an element. *)
Theorem tryPatternMatching_first_selector
  (query : string -> list string) (url domain : string) (r : ScrapingResult) :
  RecipeScrapingService.tryPatternMatching query url domain = Some r ->
  ((exists sel,
      first_yielding (fun s => long_steps (query s))
                     RecipeScrapingService.instructionSelectors sel
      /\ instructions r = long_steps (query sel))
   \/ ((forall s, In s RecipeScrapingService.instructionSelectors ->
                  long_steps (query s) = [])
       /\ instructions r = []))
  /\ ((exists sel,
         first_yielding (fun s => ingredient_lines (query s))
                        RecipeScrapingService.ingredientSelectors sel
         /\ ingredients r = ingredient_lines (query sel))
      \/ ((forall s, In s RecipeScrapingService.ingredientSelectors ->
                     ingredient_lines (query s) = [])
          /\ ingredients r = [])).
Proof.
  intro H. unfold RecipeScrapingService.tryPatternMatching in H.
  match type of H with (if ?c then _ else _) = _ => destruct c end; [discriminate|].
  injection H as <-. cbn [instructions ingredients]. split.
  - apply (selector_loop_first (fun s => long_steps (query s))).
  - apply (selector_loop_first (fun s => ingredient_lines (query s))).
Qed.

Lemma tryPatternMatching_first_selector_witness :
  match RecipeScrapingService.tryPatternMatching heading_then_step_page
          "https://example.com/p" "example.com" with
  | Some r =>
      (exists sel,
         first_yielding (fun s => long_steps (heading_then_step_page s))
                        RecipeScrapingService.instructionSelectors sel
         /\ instructions r = long_steps (heading_then_step_page sel))
      \/ ((forall s, In s RecipeScrapingService.instructionSelectors ->
                     long_steps (heading_then_step_page s) = [])
          /\ instructions r = [])
  | None => False
  end.
Proof.
  destruct (RecipeScrapingService.tryPatternMatching heading_then_step_page
              "https://example.com/p" "example.com") as [r|] eqn:E.
  - exact (proj1 (tryPatternMatching_first_selector heading_then_step_page
                    "https://example.com/p" "example.com" r E)).
  - vm_compute in E. discriminate E.
Defined.

Import Heuristics.

Lemma insert_by_score_in (score : string -> Z) (x : string) (l : list string) (z : string) :
  In z (insert_by_score score x l) <-> z = x \/ In z l.
Proof.
  induction l as [|y l IH]; simpl.
  - split; [intros [H|[]]; auto|intros [H|[]]; auto].
  - destruct (score x <? score y)%Z; simpl; [rewrite IH|]; split; intro H;
      repeat match goal with H : _ \/ _ |- _ => destruct H end; subst; auto.
Qed.

Lemma sort_by_score_in (score : string -> Z) (l : list string) (z : string) :
  In z (sort_by_score score l) <-> In z l.
Proof.
  induction l as [|x l IH]; simpl; [reflexivity|].
  rewrite insert_by_score_in, IH. split; intros [H|H]; auto.
Qed.

(** The first element of the sorted array has the highest score. *)
Lemma sort_by_score_head (score : string -> Z) (l : list string) (t : string)
      (rest : list string) :
  sort_by_score score l = t :: rest ->
  In t l /\ forall x, In x l -> (score x <= score t)%Z.
Proof.
  revert t rest. induction l as [|x l IH]; intros t rest H; [discriminate|].
  simpl in H. destruct (sort_by_score score l) as [|y l'] eqn:E.
  - simpl in H. injection H as <- <-. split; [left; reflexivity|].
    intros z [<-|Hz]; [lia|].
    apply (sort_by_score_in score l z) in Hz. rewrite E in Hz. destruct Hz.
  - destruct (IH y l' eq_refl) as [Hy Hmax]. simpl in H.
    destruct (Z.ltb_spec (score x) (score y)) as [L|L]; injection H as <- <-.
    + split; [right; exact Hy|]. intros z [<-|Hz]; [lia|apply Hmax; exact Hz].
    + split; [left; reflexivity|]. intros z [<-|Hz]; [lia|].
      specialize (Hmax z Hz). lia.
Qed.

Lemma Forall_firstn {A : Type} (P : A -> Prop) (n : nat) (l : list A) :
  Forall P l -> Forall P (firstn n l).
Proof.
  revert l. induction n as [|n IH]; intros l H; [constructor|].
  destruct l as [|x l]; [constructor|]. simpl. inversion H; subst.
  constructor; [assumption|apply IH; assumption].
Qed.

Lemma Forall_filter {A : Type} (p : A -> bool) (l : list A) :
  Forall (fun x => p x = true) (filter p l).
Proof.
  apply Forall_forall. intros x H. apply filter_In in H as [_ H]. exact H.
Qed.

Lemma steps_mapi (l : list string) :
  map step (mapi (fun text (index : nat) =>
                    {| number := Z.of_nat index + 1; step := text |}) l) = l.
Proof.
  unfold mapi. generalize 0%nat. induction l as [|x l IH]; intro i; simpl;
    [reflexivity|]. rewrite IH. reflexivity.
Qed.

(** X15.  A candidate of the heuristic layer has at most 20 ingredients
    and at most 15 steps; its steps are numbered 1..M; every step is a
    text of more than 20 and fewer than 500 characters in which
    "subscribe" and "advertisement" do not occur, whatever the case; it
    has a title and at least one ingredient or step, so it meets the
    rule of the validity gate and [isValidRecipe] accepts it. *)
Theorem tryIntelligentScraping_candidate
  (page : PageTexts) (url domain : string) (r : ScrapingResult) :
  tryIntelligentScraping page url domain = Some r ->
  (List.length (ingredients r) <= 20)%nat
  /\ (List.length (instructions r) <= 15)%nat
  /\ sequential (instructions r)
  /\ Forall (fun st => (20 < String.length (step st) < 500)%nat
                       /\ ~ contains (toLowerCase (step st)) "subscribe"
                       /\ ~ contains (toLowerCase (step st)) "advertisement")
            (instructions r)
  /\ title_present r
  /\ gate_rule r
  /\ RecipeScrapingService.isValidRecipe r = true.
Proof.
  intro H. unfold tryIntelligentScraping in H.
  set (steps := firstn 15 (filter looksLikeInstruction (map trim (blocks page)))) in *.
  set (lines := firstn 20
                  (filter (fun text => (5 <? String.length text)%nat
                                       && looksLikeIngredient text)
                          (map trim (textNodes page)))) in *.
  match type of H with (if ?c then _ else _) = _ => destruct c eqn:E end; [discriminate|].
  injection H as <-. cbn [ingredients instructions title].
  assert (Hne : map ingredient_of lines <> []
                \/ mapi (fun text (index : nat) =>
                           {| number := Z.of_nat index + 1; step := text |}) steps <> []).
  { apply andb_false_iff in E as [E|E]; apply Nat.eqb_neq in E; [left|right];
      intro H0; rewrite H0 in E; apply E; reflexivity. }
  assert (Ht : title_present
                 {| title := Some (or_else
                                     match sort_by_score scoreTitle
                                             (filter (fun text =>
                                                        (0 <? String.length text)%nat
                                                        && (String.length text <? 100)%nat)
                                                     (map trim (headings page))) with
                                     | [] => ""
                                     | t :: _ => t
                                     end "Recipe");
                    image := None; summary := None; sourceUrl := url;
                    sourceName := Some domain; readyInMinutes := None; servings := None;
                    ingredients := map ingredient_of lines;
                    instructions :=
                      mapi (fun text (index : nat) =>
                              {| number := Z.of_nat index + 1; step := text |}) steps |}).
  { unfold title_present. cbn [title]. eexists. split; [reflexivity|].
    apply or_else_nonempty. discriminate. }
  split; [rewrite length_map; apply firstn_le_length|].
  split; [unfold mapi; rewrite length_mapi_from; apply firstn_le_length|].
  split; [unfold sequential, mapi, one_to; rewrite length_mapi_from;
          apply (numbers_mapi_from (fun x => x))|].
  split.
  - apply Forall_forall. intros st Hst.
    assert (Hs : In (step st) steps).
    { rewrite <- (steps_mapi steps). apply in_map. exact Hst. }
    assert (Hl : looksLikeInstruction (step st) = true).
    { unfold steps in Hs.
      pose proof (Forall_firstn _ 15 _ (Forall_filter looksLikeInstruction
                                          (map trim (blocks page)))) as HF.
      rewrite Forall_forall in HF. apply HF. exact Hs. }
    unfold looksLikeInstruction in Hl.
    rewrite !andb_true_iff, !negb_true_iff, !not_includes_contains in Hl.
    destruct Hl as [[[[_ H1] H2] H3] H4].
    apply Nat.ltb_lt in H1, H2. auto.
  - split; [exact Ht|]. split.
    + left. split; [exact Ht|exact Hne].
    + apply isValidRecipe_rule. left. exact Ht.
Qed.

Lemma tryIntelligentScraping_candidate_witness :
  match tryIntelligentScraping
          {| headings := ["Home"; " Best Chicken Soup "];
             textNodes := ["2 cups flour"; "  "; "1 tsp salt"];
             blocks := ["Mix the flour and the water well."; "short";
                        "Bake for twenty minutes at 180 degrees."] |}
          "https://example.com/soup" "example.com" with
  | Some r => (List.length (ingredients r) <= 20)%nat
              /\ (List.length (instructions r) <= 15)%nat
              /\ sequential (instructions r)
  | None => False
  end.
Proof.
  destruct (tryIntelligentScraping _ _ _) as [r|] eqn:E.
  - destruct (tryIntelligentScraping_candidate _ _ _ r E) as [H1 [H2 [H3 _]]].
    split; [exact H1|]. split; [exact H2|exact H3].
  - vm_compute in E. discriminate E.
Defined.

(** X16.  The title of a heuristic candidate is, when the page has a
    heading whose trimmed text has 1 to 99 characters, one of these
    texts with the highest [scoreTitle] among them; it is "Recipe" when
    the page has none. *)
Theorem tryIntelligentScraping_title
  (page : PageTexts) (url domain : string) (r : ScrapingResult) :
  tryIntelligentScraping page url domain = Some r ->
  let candidates :=
    filter (fun text => (0 <? String.length text)%nat && (String.length text <? 100)%nat)
           (map trim (headings page)) in
  (candidates = [] -> title r = Some "Recipe")
  /\ (candidates <> [] ->
      exists t, title r = Some t /\ In t candidates
                /\ forall x, In x candidates -> (scoreTitle x <= scoreTitle t)%Z).
Proof.
  intros H candidates. unfold tryIntelligentScraping in H. fold candidates in H.
  match type of H with (if ?c then _ else _) = _ => destruct c end; [discriminate|].
  injection H as <-. cbn [title]. split.
  - intros ->. reflexivity.
  - intro Hne. destruct (sort_by_score scoreTitle candidates) as [|t rest] eqn:E.
    + exfalso. destruct candidates as [|c cs]; [apply Hne; reflexivity|].
      assert (Hin : In c (sort_by_score scoreTitle (c :: cs)))
        by (apply sort_by_score_in; left; reflexivity).
      rewrite E in Hin. destruct Hin.
    + destruct (sort_by_score_head scoreTitle candidates t rest E) as [Hin Hmax].
      exists t. split; [|split; [exact Hin|exact Hmax]].
      assert (Ht : t <> "").
      { unfold candidates in Hin. apply filter_In in Hin as [_ Hin].
        apply andb_true_iff in Hin as [Hin _]. apply Nat.ltb_lt in Hin.
        destruct t; [simpl in Hin; lia|discriminate]. }
      unfold or_else. destruct t; [contradiction|reflexivity].
Qed.

Lemma tryIntelligentScraping_title_witness :
  match tryIntelligentScraping
          {| headings := ["Home"; " Best Chicken Soup "; "Easy Chicken Soup"];
             textNodes := ["2 cups flour"];
             blocks := [] |}
          "https://example.com/soup" "example.com" with
  | Some r => title r = Some "Best Chicken Soup"
  | None => False
  end.
Proof.
  destruct (tryIntelligentScraping _ _ _) as [r|] eqn:E.
  - destruct (tryIntelligentScraping_title _ _ _ r E) as [_ H].
    destruct H as [t [Ht _]]; [vm_compute; discriminate|].
    rewrite Ht. vm_compute in E. injection E as <-. cbn [title] in Ht.
    symmetry. exact Ht.
  - vm_compute in E. discriminate E.
Defined.

Lemma formatRecipeData_title (extractDomain : string -> string) (r : ScrapingResult)
      (url : string) :
  r_title (SimpleScrapingService.formatRecipeData extractDomain r url) <> "".
Proof.
  unfold SimpleScrapingService.formatRecipeData. cbn [r_title].
  destruct (title r) as [t|]; [apply or_else_nonempty|]; discriminate.
Qed.

Lemma accepted_valid (o : option ScrapingResult) (r : ScrapingResult) :
  SimpleScrapingService.accepted o = Some r ->
  o = Some r /\ SimpleScrapingService.isValidResult r = true.
Proof.
  destruct o as [r0|]; simpl; [|discriminate].
  destruct (SimpleScrapingService.isValidResult r0) eqn:E; [|discriminate].
  intro H. injection H as <-. auto.
Qed.

(** X17.  Whatever the lightweight tier returns comes from a 2xx response
    that is not an error page and from a candidate that passed
    [isValidResult]: it has a non-empty title, the submitted url as
    [sourceUrl], and at least one ingredient or one step. *)
Theorem scrapeWithFetch_result
  (jsonLd microdata patternMatching : string -> option ScrapingResult)
  (extractDomain : string -> string) (url : string)
  (fetched : SimpleScrapingService.FetchOutcome) (d : CreateRecipeData) :
  SimpleScrapingService.scrapeWithFetch jsonLd microdata patternMatching extractDomain
    url fetched = Some d ->
  (exists html, fetched = SimpleScrapingService.FetchResponse true html
                /\ SimpleScrapingService.isErrorPage html = false)
  /\ r_title d <> ""
  /\ r_sourceUrl d = url
  /\ (r_ingredients d <> [] \/ r_instructions d <> []).
Proof.
  intro H. unfold SimpleScrapingService.scrapeWithFetch in H.
  destruct fetched as [|ok html]; [discriminate|].
  destruct ok; simpl negb in H; cbv iota in H; [|discriminate].
  destruct (SimpleScrapingService.isErrorPage html) eqn:Herr; [discriminate|].
  split; [exists html; auto|].
  assert (Hfmt : forall r, SimpleScrapingService.isValidResult r = true ->
            Some (SimpleScrapingService.formatRecipeData extractDomain r url) = Some d ->
            r_title d <> "" /\ r_sourceUrl d = url
            /\ (r_ingredients d <> [] \/ r_instructions d <> [])).
  { intros r Hv Hd. injection Hd as <-.
    split; [apply formatRecipeData_title|]. split; [reflexivity|].
    apply isValidResult_gate_rule in Hv.
    cbn [SimpleScrapingService.formatRecipeData r_ingredients r_instructions].
    assert (Hmap : ingredients r <> [] ->
                   map (fun ing => {| name := name ing; amount := amount ing;
                                      unit := unit ing; original := original ing |})
                       (ingredients r) <> []).
    { destruct (ingredients r); [auto|discriminate]. }
    destruct Hv as [[_ [Hi|Hs]]|[Hi Hs]]; auto. }
  destruct (SimpleScrapingService.accepted (jsonLd html)) as [r|] eqn:E1.
  { apply accepted_valid in E1 as [_ Hv]. exact (Hfmt r Hv H). }
  destruct (SimpleScrapingService.accepted (microdata html)) as [r|] eqn:E2.
  { apply accepted_valid in E2 as [_ Hv]. exact (Hfmt r Hv H). }
  destruct (SimpleScrapingService.accepted (patternMatching html)) as [r|] eqn:E3.
  { apply accepted_valid in E3 as [_ Hv]. exact (Hfmt r Hv H). }
  discriminate.
Qed.

Lemma scrapeWithFetch_result_witness :
  match SimpleScrapingService.scrapeWithFetch
          (fun _ => None) (fun _ => Some one_step_candidate) (fun _ => None)
          (fun _ => "example.com") cake_url
          (SimpleScrapingService.FetchResponse true "<html><title>Cake</title></html>") with
  | Some d => r_title d <> "" /\ r_sourceUrl d = cake_url
  | None => False
  end.
Proof.
  destruct (SimpleScrapingService.scrapeWithFetch
              (fun _ => None) (fun _ => Some one_step_candidate) (fun _ => None)
              (fun _ => "example.com") cake_url
              (SimpleScrapingService.FetchResponse true "<html><title>Cake</title></html>"))
    as [d|] eqn:E.
  - destruct (scrapeWithFetch_result _ _ _ _ _ _ d E) as [_ [H1 [H2 _]]].
    split; [exact H1|exact H2].
  - vm_compute in E. discriminate E.
Defined.

(** X18.  The strategies of the lightweight tier are tried in the order
    structured data, microdata, pattern matching, and the first
    candidate that passes [isValidResult] decides: the result is that
    candidate, formatted, whatever the later strategies would give; when
    none passes, the tier returns nothing. *)
Theorem scrapeWithFetch_order
  (jsonLd microdata patternMatching : string -> option ScrapingResult)
  (extractDomain : string -> string) (url html : string) :
  SimpleScrapingService.isErrorPage html = false ->
  let run := SimpleScrapingService.scrapeWithFetch jsonLd microdata patternMatching
               extractDomain url (SimpleScrapingService.FetchResponse true html) in
  let format := fun r => Some (SimpleScrapingService.formatRecipeData extractDomain r url) in
  let passes := fun (o : option ScrapingResult) (r : ScrapingResult) =>
                  o = Some r /\ SimpleScrapingService.isValidResult r = true in
  let fails := fun (o : option ScrapingResult) =>
                 forall r, o = Some r -> SimpleScrapingService.isValidResult r = false in
  (forall r, passes (jsonLd html) r -> run = format r)
  /\ (forall r, fails (jsonLd html) -> passes (microdata html) r -> run = format r)
  /\ (forall r, fails (jsonLd html) -> fails (microdata html) ->
                passes (patternMatching html) r -> run = format r)
  /\ (fails (jsonLd html) -> fails (microdata html) -> fails (patternMatching html) ->
      run = None).
Proof.
  intros Herr run format passes fails.
  assert (Hp : forall o r, passes o r -> SimpleScrapingService.accepted o = Some r).
  { intros o r [-> Hv]. simpl. rewrite Hv. reflexivity. }
  assert (Hf : forall o, fails o -> SimpleScrapingService.accepted o = None).
  { intros o Ho. destruct o as [r|]; [|reflexivity]. simpl.
    rewrite (Ho r eq_refl). reflexivity. }
  unfold run, format, SimpleScrapingService.scrapeWithFetch. simpl negb. cbv iota.
  rewrite Herr. repeat split.
  - intros r H. rewrite (Hp _ _ H). reflexivity.
  - intros r H1 H2. rewrite (Hf _ H1), (Hp _ _ H2). reflexivity.
  - intros r H1 H2 H3. rewrite (Hf _ H1), (Hf _ H2), (Hp _ _ H3). reflexivity.
  - intros H1 H2 H3. rewrite (Hf _ H1), (Hf _ H2), (Hf _ H3). reflexivity.
Qed.

Lemma scrapeWithFetch_order_witness :
  SimpleScrapingService.scrapeWithFetch
    (fun _ => None) (fun _ => Some one_step_candidate) (fun _ => Some (title_only "Pie"))
    (fun _ => "example.com") cake_url
    (SimpleScrapingService.FetchResponse true "<html><title>Cake</title></html>")
  = Some (SimpleScrapingService.formatRecipeData (fun _ => "example.com")
            one_step_candidate cake_url).
Proof.
  destruct (scrapeWithFetch_order
              (fun _ => None) (fun _ => Some one_step_candidate)
              (fun _ => Some (title_only "Pie"))
              (fun _ => "example.com") cake_url "<html><title>Cake</title></html>")
    as [_ [H _]].
  - vm_compute. reflexivity.
  - apply (H one_step_candidate).
    + intros r Hr. discriminate Hr.
    + split; reflexivity.
Defined.

Import RenderedChain.

(** X19.  [RecipeScrapingService.scrapeRecipe] returns the result of the
    lightweight tier as it is, without running a layer.  Otherwise it
    runs the layers in their order and stops at the first whose
    candidate [isValidRecipe] accepts: the layers run are a beginning of
    the order, every layer before the last one run gave nothing
    acceptable, the result is the candidate of the last one run,
    formatted, and it is nothing only after all five layers have run. *)
Theorem scrapeRecipe_chain
  (extractDomain : string -> string) (url : string)
  (simple : option CreateRecipeData) (layer : Layer -> option ScrapingResult) :
  (forall result, simple = Some result ->
                  scrapeRecipe extractDomain url simple layer = (Some result, []))
  /\ (simple = None ->
      exists n last_run,
        snd (scrapeRecipe extractDomain url simple layer) = firstn n order
        /\ nth_error order (n - 1) = Some last_run
        /\ (1 <= n <= 5)%nat
        /\ (forall l, In l (firstn (n - 1) order) -> valid (layer l) = None)
        /\ fst (scrapeRecipe extractDomain url simple layer)
           = option_map (fun r => SimpleScrapingService.formatRecipeData extractDomain r url)
                        (valid (layer last_run))
        /\ (fst (scrapeRecipe extractDomain url simple layer) = None -> n = 5%nat)).
Proof.
  split; [intros result ->; reflexivity|]. intros ->. unfold scrapeRecipe.
  destruct (valid (layer JsonLd)) as [r1|] eqn:E1.
  { exists 1%nat, JsonLd. simpl. rewrite E1. repeat split; try lia; try discriminate;
      try (intros l Hl; intuition (subst; assumption)). }
  destruct (valid (layer Microdata)) as [r2|] eqn:E2.
  { exists 2%nat, Microdata. simpl. rewrite E2. repeat split; try lia; try discriminate;
      try (intros l Hl; intuition (subst; assumption)). }
  destruct (valid (layer PatternMatching)) as [r3|] eqn:E3.
  { exists 3%nat, PatternMatching. simpl. rewrite E3.
    repeat split; try lia; try discriminate;
      try (intros l Hl; intuition (subst; assumption)). }
  destruct (valid (layer SiteSpecific)) as [r4|] eqn:E4.
  { exists 4%nat, SiteSpecific. simpl. rewrite E4.
    repeat split; try lia; try discriminate;
      try (intros l Hl; intuition (subst; assumption)). }
  exists 5%nat, Intelligent. simpl.
  destruct (valid (layer Intelligent)) as [r5|] eqn:E5; simpl;
    repeat split; try lia; try discriminate;
    try (intros l Hl; intuition (subst; assumption)).
Qed.

End ExtractionProperties.

(** ** The parsers and the text filters *)

Module MoreMatcherFacts.
Local Open Scope list_scope.
Local Open Scope string_scope.

Lemma repeat_class_none (p : ascii -> bool)
      (body : (mstate -> option mstate) -> mstate -> option mstate)
      (k : mstate -> option mstate) (d : string) :
  class_step p body ->
  forall (tl : string) (s : mstate) (fuel lo : nat),
    rest s = d ++ tl ->
    all_chars p d = true ->
    stops p tl = true ->
    (forall d1 d2, d = d1 ++ d2 -> (lo <= String.length d1)%nat ->
                   k (moved d1 (d2 ++ tl) s) = None) ->
    repeat_loop body k fuel lo None s = None.
Proof.
  intro Hbody.
  induction d as [|c d IH]; intros tl s fuel lo Hrest Hall Hstop Hk.
  - destruct fuel as [|fuel]; [reflexivity|].
    simpl in Hrest. cbn [repeat_loop]. rewrite Hbody, Hrest.
    assert (Hb : match tl with
                 | "" => None
                 | String d0 t => if p d0 then
                     (fun s' => if (lo =? 0)%nat && (String.length (rest s') =? String.length tl)%nat
                                then None
                                else repeat_loop body k fuel (Nat.pred lo) (option_map Nat.pred None) s')
                       (advance d0 t s) else None
                 end = None).
    { destruct tl as [|c t]; [reflexivity|]. simpl in Hstop.
      apply negb_true_iff in Hstop. rewrite Hstop. reflexivity. }
    cbv beta in Hb. rewrite Hb. cbn [first_some].
    destruct (Nat.eqb_spec lo 0) as [->|_]; [|reflexivity].
    specialize (Hk "" "" eq_refl (Nat.le_refl _)). cbn [append] in Hk.
    rewrite (moved_nil tl s Hrest) in Hk. exact Hk.
  - destruct fuel as [|fuel]; [reflexivity|].
    simpl in Hall. apply andb_true_iff in Hall as [Hc Hall].
    simpl in Hrest. cbn [repeat_loop]. rewrite Hbody, Hrest, Hc.
    assert (Hlen : (String.length (rest (advance c (d ++ tl) s))
                    =? String.length (String c (d ++ tl)))%nat = false).
    { apply Nat.eqb_neq. simpl. lia. }
    rewrite Hlen, andb_false_r. cbn [option_map].
    rewrite (IH tl (advance c (d ++ tl) s) fuel (Nat.pred lo)); try assumption;
      try reflexivity.
    + cbn [first_some]. destruct (Nat.eqb_spec lo 0) as [->|_]; [|reflexivity].
      specialize (Hk "" (String c d) eq_refl (Nat.le_refl _)).
      assert (Hs : moved "" (String c d ++ tl) s = s)
        by (apply moved_nil; simpl; exact Hrest).
      rewrite Hs in Hk. exact Hk.
    + intros d1 d2 -> Hlo.
      apply (Hk (String c d1) d2 eq_refl). simpl. lia.
Qed.

Lemma run_plus_class_none (icase : bool) (p : ascii -> bool)
      (k : mstate -> option mstate) (d tl : string) (s : mstate) :
  rest s = d ++ tl ->
  all_chars p d = true -> stops p tl = true ->
  (forall d1 d2, d = d1 ++ d2 -> d1 <> "" -> k (moved d1 (d2 ++ tl) s) = None) ->
  run icase (Plus (Class p)) k s = None.
Proof.
  intros Hrest Hall Hstop Hk. unfold Plus. cbn [run].
  apply (repeat_class_none p (run icase (Class p)) k d) with (tl := tl); try assumption.
  - intros k0 s0. reflexivity.
  - intros d1 d2 Hd Hlo. apply Hk; [exact Hd|].
    destruct d1; [simpl in Hlo; lia|discriminate].
Qed.

Lemma repeat_class_greedy_bounded (p : ascii -> bool)
      (body : (mstate -> option mstate) -> mstate -> option mstate)
      (k : mstate -> option mstate) (x : mstate) (d : string) :
  class_step p body ->
  forall (tl : string) (s : mstate) (fuel lo hi : nat),
    rest s = d ++ tl ->
    all_chars p d = true ->
    stops p tl = true ->
    (lo <= String.length d <= hi)%nat ->
    (String.length d < fuel)%nat ->
    k (moved d tl s) = Some x ->
    repeat_loop body k fuel lo (Some hi) s = Some x.
Proof.
  intro Hbody.
  induction d as [|c d IH]; intros tl s fuel lo hi Hrest Hall Hstop Hlo Hfuel Hk.
  - destruct fuel as [|fuel]; [simpl in Hfuel; lia|].
    simpl in Hlo. assert (lo = 0)%nat by lia. subst lo.
    simpl in Hrest. rewrite (moved_nil tl s Hrest) in Hk.
    cbn [repeat_loop Nat.eqb]. destruct hi as [|hi]; [exact Hk|].
    rewrite Hbody, Hrest.
    destruct tl as [|c tl]; simpl in Hstop |- *.
    + exact Hk.
    + apply negb_true_iff in Hstop. rewrite Hstop. exact Hk.
  - destruct fuel as [|fuel]; [simpl in Hfuel; lia|].
    simpl in Hall. apply andb_true_iff in Hall as [Hc Hall].
    simpl in Hrest. simpl in Hlo. destruct hi as [|hi]; [lia|].
    cbn [repeat_loop]. rewrite Hbody, Hrest, Hc.
    assert (Hlen : (String.length (rest (advance c (d ++ tl) s))
                    =? String.length (String c (d ++ tl)))%nat = false).
    { apply Nat.eqb_neq. simpl. lia. }
    rewrite Hlen, andb_false_r. cbn [option_map Nat.pred].
    rewrite (IH tl (advance c (d ++ tl) s) fuel (Nat.pred lo) hi); try assumption.
    + reflexivity.
    + reflexivity.
    + lia.
    + simpl in Hfuel. lia.
Qed.

(** A pattern that starts with a run of digits matches nowhere in a
    text without digits. *)
Lemma search_no_digit (icase : bool) (r : regex) (text : string) :
  (forall k s, stops is_digit (rest s) = true -> run icase r k s = None) ->
  all_chars non_digit text = true ->
  forall p i, search icase r p text i = None.
Proof.
  intros Hr. induction text as [|c text IH]; intros Hall p i.
  - cbn [search]. unfold match_at. rewrite Hr by reflexivity. reflexivity.
  - simpl in Hall. apply andb_true_iff in Hall as [Hc Hall].
    cbn [search]. unfold match_at. rewrite Hr by exact Hc. apply IH. exact Hall.
Qed.

(** Over a beginning without digits such a pattern is searched further. *)
Lemma search_skip_non_digits (icase : bool) (r : regex) (pre : string) :
  (forall k s, stops is_digit (rest s) = true -> run icase r k s = None) ->
  all_chars non_digit pre = true ->
  forall text p i,
    search icase r p (pre ++ text) i
    = search icase r (last_char pre p) text (i + String.length pre).
Proof.
  intros Hr. induction pre as [|c pre IH]; intros Hall text p i.
  - simpl. rewrite Nat.add_0_r. reflexivity.
  - simpl in Hall. apply andb_true_iff in Hall as [Hc Hall].
    simpl. unfold match_at. rewrite Hr by exact Hc.
    rewrite (IH Hall). rewrite Nat.add_succ_r. reflexivity.
Qed.

Lemma digits_head_fails (icase : bool) (n : nat) (r : regex) :
  forall k s, stops is_digit (rest s) = true ->
              run icase (Seq (Group n (Plus digit)) r) k s = None.
Proof.
  intros k s H. cbn [run]. unfold digit. apply run_plus_class_fail. exact H.
Qed.

Lemma digits_group_fails (icase : bool) (n : nat) :
  forall k s, stops is_digit (rest s) = true ->
              run icase (Group n (Plus digit)) k s = None.
Proof.
  intros k s H. cbn [run]. unfold digit. apply run_plus_class_fail. exact H.
Qed.

Lemma leading_digits_of_digits (d : string) :
  all_chars is_digit d = true -> leading_digits d = d.
Proof.
  induction d as [|c d IH]; [reflexivity|]. simpl. intro H.
  apply andb_true_iff in H as [Hc H]. rewrite Hc, (IH H). reflexivity.
Qed.

Lemma int_of_digits (d : string) :
  all_chars is_digit d = true -> d <> "" -> int_of d = digits_value_from 0 d.
Proof.
  intros H Hne. unfold int_of, parseInt. rewrite (leading_digits_of_digits d H).
  destruct d; [contradiction|reflexivity].
Qed.

Lemma digits_value_nonneg (s : string) :
  forall acc, (0 <= acc)%Z -> (0 <= digits_value_from acc s)%Z.
Proof.
  induction s as [|c s IH]; intros acc H; cbn [digits_value_from]; [exact H|].
  destruct (is_digit c); [apply IH; lia|exact H].
Qed.

Lemma int_of_nonneg (s : string) : (0 <= int_of s)%Z.
Proof.
  unfold int_of, parseInt. destruct (leading_digits s); [simpl; lia|].
  apply digits_value_nonneg. lia.
Qed.

(** Every text is a beginning without digits followed by nothing, or by
    a run of digits and a rest that does not start with a digit. *)
Lemma first_digits (text : string) :
  all_chars non_digit text = true
  \/ exists pre d post,
       text = pre ++ d ++ post /\ all_chars non_digit pre = true
       /\ all_chars is_digit d = true /\ d <> "" /\ stops is_digit post = true.
Proof.
  assert (Hrun : forall t, exists d post,
            t = d ++ post /\ all_chars is_digit d = true /\ stops is_digit post = true).
  { induction t as [|c t [d [post [H1 [H2 H3]]]]].
    - exists "", "". auto.
    - destruct (is_digit c) eqn:E.
      + exists (String c d), post. simpl. rewrite H1 at 1. rewrite E. auto.
      + exists "", (String c t). simpl. rewrite E. auto. }
  induction text as [|c text IH]; [left; reflexivity|].
  destruct (is_digit c) eqn:E.
  - right. destruct (Hrun text) as [d [post [H1 [H2 H3]]]].
    exists "", (String c d), post. simpl. rewrite E, H2, <- H1.
    repeat split; auto. discriminate.
  - destruct IH as [IH|[pre [d [post [H1 [H2 [H3 [H4 H5]]]]]]]].
    + left. simpl. unfold non_digit at 1. rewrite E. exact IH.
    + right. exists (String c pre), d, post. simpl. unfold non_digit at 1.
      rewrite E, <- H1. auto.
Qed.

Lemma parseTimeFromText_gt0 (text : string) (z : Z) :
  parseTimeFromText text = Some z -> (0 < z)%Z.
Proof.
  intro H. unfold parseTimeFromText in H.
  destruct (negb (JsString.truthy text)); [discriminate|].
  set (hm := exec_i hour_re text) in H. set (mm := exec_i minute_re text) in H.
  assert (Hh : (0 <= match hm with Some m => 0 + int_group 1 m * 60 | None => 0 end)%Z).
  { destruct hm as [m|]; [|lia]. pose proof (int_of_nonneg (group_text 1 m)).
    unfold int_group. lia. }
  remember (match hm with Some m => 0 + int_group 1 m * 60 | None => 0 end)%Z as a.
  assert (Hm : (0 <= match mm with Some m => a + int_group 1 m | None => a end)%Z).
  { destruct mm as [m|]; [|lia]. pose proof (int_of_nonneg (group_text 1 m)).
    unfold int_group. lia. }
  remember (match mm with Some m => a + int_group 1 m | None => a end)%Z as b.
  destruct (Z.eqb_spec b 0); [discriminate|]. injection H as <-. lia.
Qed.

Lemma parseServingsFromText_nonneg (text : string) (z : Z) :
  parseServingsFromText text = Some z -> (0 <= z)%Z.
Proof.
  unfold parseServingsFromText.
  destruct (negb (JsString.truthy text)); [discriminate|].
  destruct (exec first_int_re text) as [m|]; [|discriminate].
  intro H. injection H as <-. unfold int_group. apply int_of_nonneg.
Qed.

End MoreMatcherFacts.

Module ParsingProperties.
Import MoreMatcherFacts.
Local Open Scope list_scope.
Local Open Scope string_scope.

Lemma exec_first_int (pre d post : string) :
  all_chars non_digit pre = true ->
  all_chars is_digit d = true -> d <> "" -> stops is_digit post = true ->
  exists m, exec first_int_re (pre ++ d ++ post) = Some m /\ group 1 m = Some d.
Proof.
  intros Hpre Hd Hne Hpost. unfold exec.
  rewrite (search_skip_non_digits false first_int_re pre
             (digits_group_fails false 1) Hpre).
  eexists. split.
  - apply search_hit. unfold match_at, first_int_re. cbn [run]. unfold digit.
    erewrite (run_plus_class false is_digit) with (d := d) (tl := post);
      [reflexivity|reflexivity|assumption|assumption|assumption|reflexivity].
  - cbn [groups group lookup Nat.eqb caps set_cap moved].
    rewrite consumed_prefix with (d := d) by reflexivity. reflexivity.
Qed.

(** X20.  [parseServingsFromText] gives the value of the first run of
    digits of the text (a run of at most 15 digits, whose value a
    JavaScript number holds exactly), and [undefined] exactly when the
    text has no digit. *)
Theorem parseServingsFromText_first_number :
  (forall pre d post,
     all_chars non_digit pre = true ->
     all_chars is_digit d = true -> d <> "" -> (String.length d <= 15)%nat ->
     stops is_digit post = true ->
     parseServingsFromText (pre ++ d ++ post) = Some (digits_value_from 0 d))
  /\ (forall text,
        parseServingsFromText text = None <-> all_chars non_digit text = true).
Proof.
  assert (H1 : forall pre d post,
     all_chars non_digit pre = true ->
     all_chars is_digit d = true -> d <> "" -> stops is_digit post = true ->
     parseServingsFromText (pre ++ d ++ post) = Some (digits_value_from 0 d)).
  { intros pre d post Hpre Hd Hne Hpost. unfold parseServingsFromText.
    destruct (exec_first_int pre d post Hpre Hd Hne Hpost) as [m [Hm Hg]].
    rewrite Hm. unfold int_group, group_text. rewrite Hg, (int_of_digits d Hd Hne).
    assert (Ht : JsString.truthy (pre ++ d ++ post) = true).
    { destruct pre; [destruct d; [contradiction|reflexivity]|reflexivity]. }
    rewrite Ht. reflexivity. }
  split; [intros pre d post Hp Hd Hne _ Hs; exact (H1 pre d post Hp Hd Hne Hs)|].
  intro text. split.
  - intro Hn. destruct (first_digits text) as [H|[pre [d [post [-> [Hp [Hd [Hne Hs]]]]]]]];
      [exact H|].
    rewrite (H1 pre d post Hp Hd Hne Hs) in Hn. discriminate.
  - intro H. unfold parseServingsFromText.
    destruct (negb (JsString.truthy text)); [reflexivity|].
    unfold exec.
    rewrite (search_no_digit false first_int_re text (digits_group_fails false 1) H).
    reflexivity.
Qed.

Lemma parseServingsFromText_first_number_witness :
  parseServingsFromText ("Serves " ++ "4" ++ "-6 people") = Some 4%Z
  /\ parseServingsFromText "a few" = None.
Proof.
  destruct parseServingsFromText_first_number as [H1 H2]. split.
  - apply (H1 "Serves " "4" "-6 people");
      [reflexivity|reflexivity|discriminate|simpl; lia|reflexivity].
  - apply (proj2 (H2 "a few")). reflexivity.
Defined.

(** X21.  [parseTimeFromText] gives [undefined] for a text without a
    digit, and never gives 0 or a negative number. *)
Theorem parseTimeFromText_positive (text : string) :
  (all_chars non_digit text = true -> parseTimeFromText text = None)
  /\ (forall z, parseTimeFromText text = Some z -> (0 < z)%Z).
Proof.
  split.
  - intro H. unfold parseTimeFromText.
    destruct (negb (JsString.truthy text)); [reflexivity|].
    unfold exec_i, hour_re, minute_re, Cat.
    rewrite !(search_no_digit true _ text (digits_head_fails true 1 _) H).
    reflexivity.
  - apply parseTimeFromText_gt0.
Qed.

Lemma parseTimeFromText_positive_witness :
  parseTimeFromText "until golden" = None
  /\ (0 < 75)%Z.
Proof.
  split.
  - apply (proj1 (parseTimeFromText_positive "until golden")). reflexivity.
  - apply (proj2 (parseTimeFromText_positive "1 hour 15 min") 75%Z).
    vm_compute. reflexivity.
Defined.

Lemma shorter_after (d : string) (c : ascii) (t : string) :
  (String.length t =? String.length (d ++ String c t))%nat = false.
Proof. apply Nat.eqb_neq. rewrite str_length_app. simpl. lia. Qed.

Lemma digit_not_letter (c l : ascii) :
  is_digit c = true -> is_alpha l = true -> Ascii.eqb l c = false.
Proof.
  intros Hc Hl. destruct (Ascii.eqb_spec l c) as [->|]; [|reflexivity].
  destruct c as [[|] [|] [|] [|] [|] [|] [|] [|]]; vm_compute in Hc, Hl; congruence.
Qed.

(** After a run of digits that is followed by the letter [b], a pattern
    "digits, then the letter [a]" finds nothing. *)
Lemma digits_then_other_letter (n : nat) (a b : ascii) (d tl : string)
      (k : mstate -> option mstate) (s : mstate) :
  is_alpha a = true -> a <> b ->
  rest s = d ++ String b tl ->
  all_chars is_digit d = true -> is_digit b = false ->
  run false (Seq (Group n (Plus digit)) (Lit a)) k s = None.
Proof.
  intros Ha Hab Hrest Hd Hb. cbn [run]. unfold digit.
  apply (run_plus_class_none false is_digit _ d (String b tl)); try assumption.
  - simpl. rewrite Hb. reflexivity.
  - intros d1 d2 -> Hne. cbn [rest set_cap moved char_eq].
    destruct d2 as [|c d2]; cbn [append].
    + destruct (Ascii.eqb_spec a b); [contradiction|reflexivity].
    + rewrite (digit_not_letter c a); [reflexivity| |exact Ha].
      clear - Hd. induction d1 as [|x d1 IH]; simpl in Hd.
      * apply andb_true_iff in Hd as [Hd _]. exact Hd.
      * apply andb_true_iff in Hd as [_ Hd]. apply IH. exact Hd.
Qed.

Lemma or_else_self (h : string) : h <> "" -> or_else h "0" = h.
Proof. destruct h; [contradiction|reflexivity]. Qed.


(** An optional "digits then the letter [a]" component, when the text
    has it: the digits are captured and the letter is read. *)
Lemma run_component_take (n : nat) (a : ascii) (d tl : string)
      (k : mstate -> option mstate) (x : mstate) (s : mstate) :
  rest s = d ++ String a tl -> d <> "" ->
  all_chars is_digit d = true -> is_digit a = false ->
  k (advance a tl (set_cap n d (moved d (String a tl) s))) = Some x ->
  run false (Opt (Seq (Group n (Plus digit)) (Lit a))) k s = Some x.
Proof.
  intros Hrest Hne Hd Ha Hk. apply run_opt_take.
  - rewrite Hrest. destruct d; [contradiction|discriminate].
  - cbn [run]. unfold digit.
    eapply (run_plus_class false is_digit) with (d := d) (tl := String a tl);
      [exact Hrest|assumption|assumption|simpl; rewrite Ha; reflexivity|].
    rewrite consumed_prefix with (d := d) by exact Hrest.
    cbn [run rest moved set_cap char_eq]. rewrite Ascii.eqb_refl.
    cbn [rest advance]. rewrite Hrest, (shorter_after d a tl). exact Hk.
Qed.

Lemma parseTime_of_groups (t : string) (mt : result) :
  exec iso_duration_re (String "P" (String "T" t)) = Some mt ->
  parseTime (Some (String "P" (String "T" t)))
  = Some (int_group_or_zero 1 mt * 60 + int_group_or_zero 2 mt)%Z.
Proof.
  intro H. unfold parseTime.
  cbn [JsString.truthy negb startsWith Ascii.eqb Bool.eqb andb].
  replace (startsWith t "") with true by (destruct t; reflexivity).
  rewrite H. reflexivity.
Qed.

(** X22.  On an ISO-8601 duration [parseTime] gives the total of minutes:
    [PT<h>H<m>M] gives 60 h + m, [PT<m>M] gives m and [PT<h>H] gives
    60 h, whatever follows ([h] of at most 14 digits and [m] of at most
    15, so that a JavaScript number holds the total exactly). *)
Theorem parseTime_iso (h m tl : string) :
  all_chars is_digit h = true -> h <> "" -> (String.length h <= 14)%nat ->
  all_chars is_digit m = true -> m <> "" -> (String.length m <= 15)%nat ->
  parseTime (Some ("PT" ++ h ++ "H" ++ m ++ "M" ++ tl))
  = Some (digits_value_from 0 h * 60 + digits_value_from 0 m)%Z
  /\ parseTime (Some ("PT" ++ m ++ "M" ++ tl)) = Some (digits_value_from 0 m)
  /\ (stops is_digit tl = true ->
      parseTime (Some ("PT" ++ h ++ "H" ++ tl)) = Some (digits_value_from 0 h * 60)%Z).
Proof.
  intros Hh Hhne _ Hm Hmne _.
  split; [|split]; [| |intro Htl]; cbn [append].
  - erewrite parseTime_of_groups.
    2:{ unfold exec. apply search_hit. unfold match_at, iso_duration_re, Cat.
        cbn [run Str rest char_eq Ascii.eqb Bool.eqb advance caps].
        erewrite (run_component_take 1 "H" h (m ++ String "M" tl));
          [reflexivity|reflexivity|assumption|assumption|reflexivity|].
        erewrite (run_component_take 2 "M" m tl);
          [reflexivity|reflexivity|assumption|assumption|reflexivity|].
        reflexivity. }
    unfold int_group_or_zero. cbn [group groups lookup Nat.eqb caps set_cap advance moved].
    rewrite !or_else_self by assumption.
    rewrite !int_of_digits by assumption. reflexivity.
  - erewrite parseTime_of_groups.
    2:{ unfold exec. apply search_hit. unfold match_at, iso_duration_re, Cat.
        cbn [run Str rest char_eq Ascii.eqb Bool.eqb advance caps].
        rewrite run_opt_skip.
        2:{ intro k'. apply (digits_then_other_letter 1 "H" "M" m tl);
              [reflexivity|discriminate|reflexivity|assumption|reflexivity]. }
        erewrite (run_component_take 2 "M" m tl);
          [reflexivity|reflexivity|assumption|assumption|reflexivity|].
        reflexivity. }
    unfold int_group_or_zero. cbn [group groups lookup Nat.eqb caps set_cap advance moved].
    rewrite (or_else_self m Hmne), (int_of_digits m) by assumption. reflexivity.
  - erewrite parseTime_of_groups.
    2:{ unfold exec. apply search_hit. unfold match_at, iso_duration_re, Cat.
        cbn [run Str rest char_eq Ascii.eqb Bool.eqb advance caps].
        erewrite (run_component_take 1 "H" h tl);
          [reflexivity|reflexivity|assumption|assumption|reflexivity|].
        rewrite run_opt_skip; [reflexivity|].
        intro k'. cbn [run]. unfold digit. apply run_plus_class_fail. exact Htl. }
    unfold int_group_or_zero. cbn [group groups lookup Nat.eqb caps set_cap advance moved].
    rewrite (or_else_self h Hhne), (int_of_digits h) by assumption.
    change (int_of "0") with 0%Z. rewrite Z.add_0_r. reflexivity.
Qed.

Lemma parseTime_iso_witness :
  parseTime (Some "PT1H30M") = Some 90%Z
  /\ parseTime (Some "PT30M") = Some 30%Z
  /\ (stops is_digit "" = true -> parseTime (Some "PT1H") = Some 60%Z).
Proof.
  apply (parseTime_iso "1" "30" "");
    [reflexivity|discriminate|simpl; lia|reflexivity|discriminate|simpl; lia].
Defined.

Import SimpleScrapingService Heuristics.

Lemma none_of_period (c : ascii) :
  negb (includes "." (String c "")) = not_period c.
Proof.
  unfold not_period. cbn [includes startsWith]. rewrite (Ascii.eqb_sym c ".").
  destruct (Ascii.eqb "." c); reflexivity.
Qed.

Lemma all_chars_ext (p q : ascii -> bool) (s : string) :
  (forall c, p c = q c) -> all_chars p s = all_chars q s.
Proof. intro H. induction s as [|c s IH]; simpl; [reflexivity|]. rewrite H, IH. reflexivity. Qed.

(** X23.  A line that, once trimmed, has 10 to 100 characters and no
    period is taken for a recipe description, so the navigation filter
    rejects it wherever instructions are collected. *)
Theorem period_free_line_is_description (text : string) :
  (10 <= String.length (trim text) <= 100)%nat ->
  all_chars not_period (trim text) = true ->
  isRecipeDescription text = true /\ isNavigationText text true = true.
Proof.
  intros Hlen Hall.
  assert (H : isRecipeDescription text = true).
  { unfold isRecipeDescription, descriptionPatterns. cbn [existsb fst snd].
    apply orb_true_iff. left. unfold test, exec.
    rewrite (search_hit false _ None (trim text) 0
               {| index := 0;
                  matched := consumed {| prev := None; rest := trim text; caps := [] |}
                                      (moved (trim text) ""
                                             {| prev := None; rest := trim text; caps := [] |});
                  groups := [] |}); [reflexivity|].
    unfold match_at, Cat. cbn [run prev rest]. unfold none_of.
    rewrite (repeat_class_greedy_bounded (fun c => negb (includes "." (String c "")))
               _ _ (moved (trim text) "" {| prev := None; rest := trim text; caps := [] |})
               (trim text) (fun k s => eq_refl) "");
      [reflexivity| | |reflexivity|exact Hlen|lia|reflexivity].
    - cbn [rest]. symmetry. apply str_app_nil_r.
    - rewrite (all_chars_ext _ not_period); [exact Hall|apply none_of_period]. }
  split; [exact H|].
  unfold isNavigationText. rewrite H. apply orb_true_r.
Qed.

Lemma period_free_line_is_description_witness :
  isRecipeDescription "  Whisk the eggs and sugar  " = true
  /\ isNavigationText "  Whisk the eggs and sugar  " true = true.
Proof.
  apply period_free_line_is_description; [vm_compute; lia|reflexivity].
Defined.

Lemma AltStr_hit (icase : bool) (w : string) (k : mstate -> option mstate) (s : mstate) :
  forall l : list string,
    In w l -> run icase (Str w) k s <> None -> run icase (AltStr l) k s <> None.
Proof.
  induction l as [|a l IH]; intros Hin Hrun; [contradiction|].
  destruct l as [|b l].
  - destruct Hin as [->|[]]. exact Hrun.
  - change (AltStr (a :: b :: l)) with (Alt (Str a) (AltStr (b :: l))).
    cbn [run]. unfold first_some.
    destruct (run icase (Str a) k s) eqn:E; [discriminate|].
    destruct Hin as [->|Hin]; [contradiction|]. apply IH; assumption.
Qed.

Lemma same_letter (l c : ascii) :
  lower_char c = l -> is_lower l = true -> char_eq true l c = true.
Proof.
  intros <- H. unfold char_eq.
  destruct c as [[|] [|] [|] [|] [|] [|] [|] [|]];
    vm_compute in H; try discriminate H; reflexivity.
Qed.

(** X24.  Any text shorter than 200 characters that has a letter g or a
    letter l somewhere, in either case, is taken for an ingredient: the
    unit alternatives are searched without word boundaries. *)
Theorem looksLikeIngredient_single_letter (pre post : string) (c : ascii) :
  lower_char c = "g"%char \/ lower_char c = "l"%char ->
  (String.length (pre ++ String c post) < 200)%nat ->
  looksLikeIngredient (pre ++ String c post) = true.
Proof.
  intros Hc Hlen. unfold looksLikeIngredient.
  apply Nat.ltb_lt in Hlen. rewrite Hlen, andb_true_r.
  unfold ingredientPatterns. cbn [existsb fst snd].
  apply orb_true_iff. right. apply orb_true_iff. right. apply orb_true_iff. left.
  unfold test_i, exec_i.
  destruct (search true (AltStr unitWords) None (pre ++ String c post) 0) eqn:E;
    [reflexivity|exfalso].
  revert E. apply (search_complete true _ pre (String c post) None 0 0).
  unfold match_at.
  destruct (run true (AltStr unitWords) Some
              {| prev := last_char pre None; rest := String c post; caps := [] |}) eqn:R;
    [discriminate|exfalso]. revert R.
  destruct Hc as [Hc|Hc].
  - apply (AltStr_hit true "g"); [unfold unitWords; simpl; tauto|].
    cbn [Str run rest]. rewrite (same_letter "g" c Hc eq_refl). discriminate.
  - apply (AltStr_hit true "l"); [unfold unitWords; simpl; tauto|].
    cbn [Str run rest]. rewrite (same_letter "l" c Hc eq_refl). discriminate.
Qed.

Lemma looksLikeIngredient_single_letter_witness :
  looksLikeIngredient ("Sign in to your " ++ String "l" "ibrary") = true.
Proof.
  apply looksLikeIngredient_single_letter; [right; reflexivity|vm_compute; lia].
Defined.

End ParsingProperties.

(** ** Pattern matching in the lightweight tier *)

Module SimplePatternFacts.
Import SimplePatternMatching ExtractionFacts MoreMatcherFacts.

Lemma each_from_Forall {A : Type} (P : A -> Prop) (f : nat -> string -> list A)
      (Q : string -> Prop) :
  (forall i raw, Q raw -> Forall P (f i raw)) ->
  forall els i, (forall raw, In raw els -> Q raw) -> Forall P (each_from i f els).
Proof.
  intros Hf. induction els as [|el els IH]; intros i HQ; simpl; [constructor|].
  apply Forall_app. split; [apply Hf; apply HQ; left; reflexivity|].
  apply IH. intros raw Hin. apply HQ. right. exact Hin.
Qed.

Lemma instruction_loop_first (collect : string -> list Instruction)
      (selectors : list string) :
  (exists sel, first_yielding collect selectors sel
               /\ instruction_loop collect selectors = collect sel)
  \/ ((forall s, In s selectors -> collect s = [])
      /\ instruction_loop collect selectors = []).
Proof.
  induction selectors as [|sel selectors IH].
  - right. split; [intros s []|reflexivity].
  - simpl. destruct (collect sel) as [|x l] eqn:E.
    + simpl. destruct IH as [[s [[b [a [Hs [Hb Hc]]]] Hl]]|[Hall Hl]].
      * left. exists s. split; [|exact Hl].
        exists (sel :: b), a. split; [rewrite Hs; reflexivity|]. split; [|exact Hc].
        intros s0 [<-|Hin]; [exact E|apply Hb; exact Hin].
      * right. split; [|exact Hl]. intros s0 [<-|Hin]; [exact E|apply Hall; exact Hin].
    + left. exists sel. split; [|rewrite E; reflexivity].
      exists [], selectors. split; [reflexivity|]. split; [intros s []|].
      rewrite E. discriminate.
Qed.

(** The ingredient loop keeps what it has and adds the selections of a
    beginning of the list, the shortest after which it holds more than
    two records, or the whole list. *)
Lemma ingredient_loop_prefix (collect : string -> list Ingredient) :
  forall (selectors : list string) (acc : list Ingredient),
    (List.length acc <= 2)%nat ->
    exists k,
      (k <= List.length selectors)%nat
      /\ ingredient_loop collect selectors acc
         = acc ++ List.concat (map collect (firstn k selectors))
      /\ (forall j, (j < k)%nat ->
                    (List.length (acc ++ List.concat (map collect (firstn j selectors))) <= 2)%nat)
      /\ ((k < List.length selectors)%nat ->
          (2 < List.length (ingredient_loop collect selectors acc))%nat).
Proof.
  induction selectors as [|sel selectors IH]; intros acc Hacc.
  - exists 0%nat. simpl. rewrite app_nil_r. repeat split; try lia.
  - cbn [ingredient_loop].
    destruct (2 <? List.length (acc ++ collect sel))%nat eqn:E.
    + exists 1%nat. cbn [firstn map List.concat List.length]. rewrite app_nil_r.
      apply Nat.ltb_lt in E. repeat split; try lia.
      intros j Hj. assert (j = 0)%nat as -> by lia. simpl. rewrite app_nil_r. exact Hacc.
    + apply Nat.ltb_ge in E.
      destruct (IH (acc ++ collect sel) E) as [k [Hk [Heq [Hbefore Hstop]]]].
      exists (S k). cbn [firstn map List.concat List.length].
      split; [lia|]. split; [rewrite Heq, <- app_assoc; reflexivity|]. split.
      * intros j Hj. destruct j as [|j].
        -- simpl. rewrite app_nil_r. exact Hacc.
        -- cbn [firstn map List.concat]. rewrite app_assoc. apply Hbefore. lia.
      * intro H. apply Hstop. lia.
Qed.

Lemma concat_nil_iff {A : Type} (ls : list (list A)) :
  List.concat ls = [] <-> forall l, In l ls -> l = [].
Proof.
  induction ls as [|x ls IH]; simpl.
  - split; [intros _ l []|reflexivity].
  - split.
    + intro H. apply app_eq_nil in H as [-> H]. intros l [<-|Hin]; [reflexivity|].
      apply IH; assumption.
    + intro H. rewrite (H x (or_introl eq_refl)). apply IH.
      intros l Hin. apply H. right. exact Hin.
Qed.

Lemma ingredient_loop_nil (collect : string -> list Ingredient) (selectors : list string) :
  ingredient_loop collect selectors [] = []
  <-> forall sel, In sel selectors -> collect sel = [].
Proof.
  destruct (ingredient_loop_prefix collect selectors []) as [k [Hk [Heq [_ Hstop]]]];
    [simpl; lia|].
  simpl in Heq. split.
  - intros H sel Hin.
    assert (k = List.length selectors) as ->.
    { destruct (Nat.eq_dec k (List.length selectors)) as [e|n]; [exact e|].
      assert (Hlt : (k < List.length selectors)%nat) by lia.
      apply Hstop in Hlt. rewrite H in Hlt. simpl in Hlt. lia. }
    rewrite firstn_all, H in Heq. symmetry in Heq.
    apply (proj1 (concat_nil_iff _) Heq). apply in_map. exact Hin.
  - intro H. rewrite Heq. apply concat_nil_iff. intros l Hin.
    apply in_map_iff in Hin as [sel [<- Hin]]. apply H.
    rewrite <- (firstn_skipn k selectors). apply in_or_app. left. exact Hin.
Qed.

Lemma find_title_empty (page : Page) (selectors : list string) :
  find_title page selectors = ""
  <-> forall sel, In sel selectors -> first_text_empty page sel.
Proof.
  unfold first_text_empty. induction selectors as [|sel selectors IH]; simpl.
  - split; [intros _ s []|reflexivity].
  - destruct (texts page sel) as [|el els] eqn:E.
    + rewrite IH. split.
      * intros H s [<-|Hin]; [rewrite E; exact I|apply H; exact Hin].
      * intros H s Hin. apply H. right. exact Hin.
    + destruct (trim el) as [|c t] eqn:Et; simpl.
      * rewrite IH. split.
        -- intros H s [<-|Hin]; [rewrite E; exact Et|apply H; exact Hin].
        -- intros H s Hin. apply H. right. exact Hin.
      * split; [discriminate|]. intro H.
        specialize (H sel (or_introl eq_refl)). rewrite E, Et in H. discriminate.
Qed.

(** The title loop stops at the first selector whose first element has
    text. *)
Lemma find_title_found (page : Page) (sel element : string) (elements : list string) :
  forall (before after : list string),
    (forall s, In s before -> first_text_empty page s) ->
    texts page sel = element :: elements ->
    trim element <> "" ->
    find_title page (before ++ sel :: after) = trim element.
Proof.
  intros before after Hb Hsel Hne. induction before as [|s before IH].
  - simpl. rewrite Hsel. destruct (trim element); [contradiction|reflexivity].
  - simpl. pose proof (Hb s (or_introl eq_refl)) as Hs. unfold first_text_empty in Hs.
    assert (IH' := IH (fun s0 H => Hb s0 (or_intror H))).
    destruct (texts page s) as [|el els]; [exact IH'|].
    rewrite Hs. exact IH'.
Qed.

Lemma char_eq_lower (l c : ascii) : lower_char c = l -> char_eq true l c = true.
Proof.
  intros <-. unfold char_eq.
  destruct c as [[|] [|] [|] [|] [|] [|] [|] [|]]; reflexivity.
Qed.

(** An address that ends in [.svg], whatever the case, is an icon. *)
Lemma isIconImage_svg (pre ext : string) :
  toLowerCase ext = ".svg" -> isIconImage (pre ++ ext)%string = true.
Proof.
  intro H. unfold isIconImage, iconPatterns. cbn [existsb].
  apply orb_true_iff. right. apply orb_true_iff. right. apply orb_true_iff. left.
  unfold test_i, exec_i.
  destruct (search true (Cat [Str ".svg"; Eol]) None (pre ++ ext)%string 0) eqn:E;
    [reflexivity|exfalso].
  revert E. apply (search_complete true _ pre ext None 0 0).
  destruct ext as [|c1 [|c2 [|c3 [|c4 [|c5 ext]]]]]; try discriminate H.
  cbn [toLowerCase] in H. injection H as H1 H2 H3 H4.
  unfold match_at, Cat. cbn [Str run rest advance].
  rewrite (char_eq_lower "." c1 H1). cbn [rest].
  rewrite (char_eq_lower "s" c2 H2). cbn [rest].
  rewrite (char_eq_lower "v" c3 H3). cbn [rest].
  rewrite (char_eq_lower "g" c4 H4). cbn [rest]. discriminate.
Qed.

Lemma find_image_not_icon (page : Page) (selectors : list string) (s : string) :
  find_image page selectors = Some s -> s <> "" /\ isIconImage s = false.
Proof.
  induction selectors as [|sel selectors IH]; simpl; [discriminate|].
  destruct (images page sel) as [|img imgs]; [exact IH|].
  destruct (src_of img) as [src|]; [|exact IH].
  destruct (JsString.truthy src) eqn:Et; cbn [andb]; [|exact IH].
  destruct (isIconImage src) eqn:Ei; cbn [negb]; [exact IH|].
  intro H. injection H as <-. split; [|exact Ei].
  destruct src; [discriminate Et|discriminate].
Qed.

Lemma first_parsed_found (parse : string -> option Z) (els : list string) (z : Z) :
  first_parsed parse els = Some z ->
  exists raw, In raw els /\ parse (trim raw) = Some z /\ z <> 0%Z.
Proof.
  induction els as [|el els IH]; simpl; [discriminate|].
  destruct (truthy_number (parse (trim el))) eqn:E.
  - intro H. exists el. split; [left; reflexivity|]. split; [exact H|].
    rewrite H in E. simpl in E. apply negb_true_iff in E. apply Z.eqb_neq in E. exact E.
  - intro H. destruct (IH H) as [raw [Hin Hp]]. exists raw. split; [right; exact Hin|exact Hp].
Qed.

Lemma find_parsed_found (parse : string -> option Z) (page : Page)
      (selectors : list string) (z : Z) :
  find_parsed parse page selectors = Some z ->
  exists sel raw, In sel selectors /\ In raw (texts page sel)
                  /\ parse (trim raw) = Some z /\ z <> 0%Z.
Proof.
  induction selectors as [|sel selectors IH]; simpl; [discriminate|].
  destruct (truthy_number (first_parsed parse (texts page sel))) eqn:E.
  - intro H. destruct (first_parsed_found parse _ z H) as [raw [Hin Hp]].
    exists sel, raw. split; [left; reflexivity|]. split; [exact Hin|exact Hp].
  - intro H. destruct (IH H) as [s [raw [Hin Hp]]]. exists s, raw.
    split; [right; exact Hin|exact Hp].
Qed.

End SimplePatternFacts.

Module SimplePatternProperties.
Import SimplePatternMatching ExtractionFacts MoreMatcherFacts SimplePatternFacts.

(** X25.  In the pattern matching of the lightweight tier the steps come
    from the first instruction selector that yields one, and when no
    block of more than 1000 characters is selected by a selector with
    [recipe-process] in it, every step has the number 1: it is the
    trimmed text of an element, of more than 15 characters, that the
    navigation filter lets through, under the number 1 whatever its
    position. *)
Theorem tryPatternMatching_steps_numbered_one
  (parseBongEatsInstructionBlock : string -> list Instruction)
  (page : Page) (r : ScrapingResult) :
  tryPatternMatching parseBongEatsInstructionBlock page = Some r ->
  (forall selector raw,
     In selector instructionSelectors -> In raw (texts page selector) ->
     includes selector "recipe-process" = true ->
     (String.length (trim raw) <= 1000)%nat) ->
  ((exists sel,
      first_yielding (instructions_of parseBongEatsInstructionBlock page)
                     instructionSelectors sel
      /\ instructions r = instructions_of parseBongEatsInstructionBlock page sel)
   \/ ((forall s, In s instructionSelectors ->
                  instructions_of parseBongEatsInstructionBlock page s = [])
       /\ instructions r = []))
  /\ Forall (fun st => number st = 1%Z
                       /\ (15 < String.length (step st))%nat
                       /\ SimpleScrapingService.isNavigationText (step st) true = false)
            (instructions r).
Proof.
  intros H Hshort. unfold tryPatternMatching in H.
  remember (instruction_loop (instructions_of parseBongEatsInstructionBlock page)
                             instructionSelectors) as steps eqn:Es.
  remember (ingredient_loop (ingredients_of page) ingredientSelectors []) as ings eqn:Ei.
  match type of H with (if ?c then _ else _) = _ => destruct c end; [discriminate|].
  injection H as <-. cbn [instructions]. rewrite Es.
  assert (Hsel : forall sel, In sel instructionSelectors ->
            Forall (fun st => number st = 1%Z
                              /\ (15 < String.length (step st))%nat
                              /\ SimpleScrapingService.isNavigationText (step st) true = false)
                   (instructions_of parseBongEatsInstructionBlock page sel)).
  { intros sel Hin. unfold instructions_of, each.
    apply (each_from_Forall _ _
             (fun raw => includes sel "recipe-process" = true ->
                         (String.length (trim raw) <= 1000)%nat)).
    - intros i raw Hraw. cbv zeta.
      destruct (JsString.truthy (trim raw)); cbn [andb]; [|constructor].
      destruct (15 <? String.length (trim raw))%nat eqn:E15; cbn [andb]; [|constructor].
      destruct (SimpleScrapingService.isNavigationText (trim raw) true) eqn:En;
        cbn [negb]; [constructor|].
      unfold parseInstructionBlock.
      destruct (includes sel "recipe-process") eqn:Einc; cbn [andb].
      + specialize (Hraw eq_refl). apply Nat.leb_le in Hraw.
        rewrite Nat.ltb_antisym, Hraw. cbn [negb].
        constructor; [|constructor]. cbn [number step].
        apply Nat.ltb_lt in E15. auto.
      + constructor; [|constructor]. cbn [number step].
        apply Nat.ltb_lt in E15. auto.
    - intros raw Hraw. apply Hshort; assumption. }
  destruct (instruction_loop_first (instructions_of parseBongEatsInstructionBlock page)
              instructionSelectors) as [[sel [Hf Heq]]|[Hall Heq]].
  - split; [left; exists sel; split; assumption|].
    rewrite Heq. apply Hsel. destruct Hf as [b [a [Hs _]]]. rewrite Hs.
    apply in_or_app. right. left. reflexivity.
  - split; [right; split; assumption|]. rewrite Heq. constructor.
Qed.

Lemma tryPatternMatching_steps_numbered_one_witness :
  match tryPatternMatching no_steps two_by_two_page with
  | Some r => Forall (fun st => number st = 1%Z
                                /\ (15 < String.length (step st))%nat
                                /\ SimpleScrapingService.isNavigationText (step st) true
                                   = false)
                     (instructions r)
  | None => False
  end.
Proof.
  destruct (tryPatternMatching no_steps two_by_two_page) as [r|] eqn:E.
  - apply (tryPatternMatching_steps_numbered_one no_steps two_by_two_page r E).
    intros selector raw Hsel Hraw _. revert raw Hraw.
    apply Forall_forall. revert selector Hsel. apply Forall_forall.
    vm_compute. repeat constructor.
  - vm_compute in E. discriminate E.
Defined.

(** X26.  In the pattern matching of the lightweight tier the ingredient
    records accumulate over the selectors: the result holds what the
    first k selectors yield, one after the other, k being the first
    count after which more than two records are held, or the whole
    list; what an earlier selector yielded is kept when a later one is
    tried.  Each record is well formed from a line of 3 to 500
    characters without a navigation word. *)
Theorem tryPatternMatching_ingredients_accumulate
  (parseBongEatsInstructionBlock : string -> list Instruction)
  (page : Page) (r : ScrapingResult) :
  tryPatternMatching parseBongEatsInstructionBlock page = Some r ->
  (exists k,
     (k <= List.length ingredientSelectors)%nat
     /\ ingredients r
        = List.concat (map (ingredients_of page) (firstn k ingredientSelectors))
     /\ (forall j, (j < k)%nat ->
           (List.length (List.concat (map (ingredients_of page)
                                          (firstn j ingredientSelectors))) <= 2)%nat)
     /\ ((k < List.length ingredientSelectors)%nat ->
         (2 < List.length (ingredients r))%nat))
  /\ Forall (fun ing => exists line,
                 well_formed_ingredient line ing
                 /\ (2 < String.length line <= 500)%nat
                 /\ SimpleScrapingService.hasNavKeywords line = false)
            (ingredients r).
Proof.
  intro H. unfold tryPatternMatching in H.
  remember (instruction_loop (instructions_of parseBongEatsInstructionBlock page)
                             instructionSelectors) as steps eqn:Es.
  remember (ingredient_loop (ingredients_of page) ingredientSelectors []) as ings eqn:Ei.
  match type of H with (if ?c then _ else _) = _ => destruct c end; [discriminate|].
  injection H as <-. cbn [ingredients]. rewrite Ei.
  destruct (ingredient_loop_prefix (ingredients_of page) ingredientSelectors [])
    as [k [Hk [Heq [Hbefore Hstop]]]]; [simpl; lia|].
  cbn [app] in Heq, Hbefore. split.
  - exists k. split; [exact Hk|]. split; [exact Heq|]. split; [exact Hbefore|exact Hstop].
  - rewrite Heq. apply Forall_concat. apply Forall_map. apply Forall_forall.
    intros sel _. unfold ingredients_of, each.
    apply (each_from_Forall _ _ (fun _ => True)); [|auto].
    intros i raw _. cbv zeta.
    destruct (JsString.truthy (trim raw)); cbn [andb]; [|constructor].
    destruct (2 <? String.length (trim raw))%nat eqn:E2; cbn [andb]; [|constructor].
    destruct (SimpleScrapingService.isNavigationText (trim raw) false) eqn:En;
      cbn [negb]; [constructor|].
    constructor; [|constructor]. exists (trim raw).
    split; [apply ExtractionProperties.ingredient_of_well_formed|].
    unfold SimpleScrapingService.isNavigationText in En.
    apply orb_false_iff in En as [Hnav Hlen].
    apply Nat.ltb_lt in E2. apply Nat.ltb_ge in Hlen. split; [lia|exact Hnav].
Qed.

Lemma tryPatternMatching_ingredients_accumulate_witness :
  match tryPatternMatching no_steps two_by_two_page with
  | Some r =>
      exists k,
        (k <= List.length ingredientSelectors)%nat
        /\ ingredients r
           = List.concat (map (ingredients_of two_by_two_page)
                              (firstn k ingredientSelectors))
        /\ (forall j, (j < k)%nat ->
              (List.length (List.concat (map (ingredients_of two_by_two_page)
                                             (firstn j ingredientSelectors))) <= 2)%nat)
        /\ ((k < List.length ingredientSelectors)%nat ->
            (2 < List.length (ingredients r))%nat)
  | None => False
  end.
Proof.
  destruct (tryPatternMatching no_steps two_by_two_page) as [r|] eqn:E.
  - exact (proj1 (tryPatternMatching_ingredients_accumulate no_steps two_by_two_page r E)).
  - vm_compute in E. discriminate E.
Defined.

(** X27.  The pattern matching of the lightweight tier gives no candidate
    exactly when no title selector has a first element with text and no
    ingredient and no instruction selector yields anything.  The title
    of a candidate is the trimmed text of the first element of the
    first title selector whose first element has text, and "Recipe"
    when there is none, so it is never empty; a candidate has no source
    url or name; its image, if any, is not an icon and so does not end
    in [.svg]; its time and its servings, if any, are positive; and it
    passes [isValidResult] exactly when it has an ingredient or a step. *)
Theorem tryPatternMatching_candidate
  (parseBongEatsInstructionBlock : string -> list Instruction) (page : Page) :
  (tryPatternMatching parseBongEatsInstructionBlock page = None <->
   (forall sel, In sel titleSelectors -> first_text_empty page sel)
   /\ (forall sel, In sel ingredientSelectors -> ingredients_of page sel = [])
   /\ (forall sel, In sel instructionSelectors ->
                   instructions_of parseBongEatsInstructionBlock page sel = []))
  /\ (forall r,
        tryPatternMatching parseBongEatsInstructionBlock page = Some r ->
        title_present r
        /\ ((forall sel, In sel titleSelectors -> first_text_empty page sel) ->
            title r = Some "Recipe")
        /\ (forall before sel after element elements,
              titleSelectors = before ++ sel :: after ->
              (forall s, In s before -> first_text_empty page s) ->
              texts page sel = element :: elements ->
              trim element <> "" ->
              title r = Some (trim element))
        /\ sourceUrl r = "" /\ sourceName r = Some ""
        /\ (forall s, image r = Some s ->
                      s <> "" /\ isIconImage s = false
                      /\ forall pre ext, s = (pre ++ ext)%string ->
                                         toLowerCase ext <> ".svg")
        /\ (forall z, readyInMinutes r = Some z -> (0 < z)%Z)
        /\ (forall z, servings r = Some z -> (0 < z)%Z)
        /\ (SimpleScrapingService.isValidResult r = true <->
            ingredients r <> [] \/ instructions r <> [])).
Proof.
  unfold tryPatternMatching.
  remember (find_title page titleSelectors) as t eqn:Et.
  remember (ingredient_loop (ingredients_of page) ingredientSelectors []) as ings eqn:Ei.
  remember (instruction_loop (instructions_of parseBongEatsInstructionBlock page)
                             instructionSelectors) as steps eqn:Es.
  remember (find_image page imageSelectors) as img eqn:Eimg.
  remember (find_parsed parseTimeFromText page timeSelectors) as tm eqn:Etm.
  remember (find_parsed parseServingsFromText page servingSelectors) as sv eqn:Esv.
  assert (Ht : t = "" <-> forall sel, In sel titleSelectors -> first_text_empty page sel).
  { rewrite Et. apply find_title_empty. }
  assert (Hi : ings = [] <-> forall sel, In sel ingredientSelectors ->
                                         ingredients_of page sel = []).
  { rewrite Ei. apply ingredient_loop_nil. }
  assert (Hs : steps = [] <-> forall sel, In sel instructionSelectors ->
                 instructions_of parseBongEatsInstructionBlock page sel = []).
  { rewrite Es.
    destruct (instruction_loop_first (instructions_of parseBongEatsInstructionBlock page)
                instructionSelectors) as [[sel [[b [a [Hsel [_ Hne]]]] Heq]]|[Hall Heq]].
    - rewrite Heq. split; [intro H; contradiction|].
      intro H. apply H. rewrite Hsel. apply in_or_app. right. left. reflexivity.
    - rewrite Heq. split; [intros _; exact Hall|reflexivity]. }
  split.
  - split.
    + intro H.
      match type of H with (if ?c then _ else _) = _ => destruct c eqn:E end;
        [|discriminate].
      apply andb_true_iff in E as [E E3]. apply andb_true_iff in E as [E1 E2].
      split; [apply Ht; destruct t; [reflexivity|discriminate]|]. split.
      * apply Hi. apply Nat.eqb_eq in E2. destruct ings; [reflexivity|discriminate].
      * apply Hs. apply Nat.eqb_eq in E3. destruct steps; [reflexivity|discriminate].
    + intros [H1 [H2 H3]].
      rewrite (proj2 Ht H1), (proj2 Hi H2), (proj2 Hs H3). reflexivity.
  - intros r H.
    match type of H with (if ?c then _ else _) = _ => destruct c end; [discriminate|].
    injection H as <-.
    cbn [title image sourceUrl sourceName readyInMinutes servings ingredients instructions].
    assert (Hp : title_present
                   {| title := Some (or_else t "Recipe");
                      image := img;
                      summary := None; sourceUrl := ""; sourceName := Some "";
                      readyInMinutes := tm;
                      servings := sv;
                      ingredients := ings; instructions := steps |}).
    { unfold title_present. cbn [title]. eexists. split; [reflexivity|].
      destruct t; simpl; discriminate. }
    split; [exact Hp|]. split.
    { intro Hnone. rewrite (proj2 Ht Hnone). reflexivity. }
    split.
    { intros before sel after element elements Hsels Hbefore Hsel Hne.
      rewrite Et, Hsels, (find_title_found page sel element elements before after
                            Hbefore Hsel Hne).
      destruct (trim element); [contradiction|reflexivity]. }
    split; [reflexivity|]. split; [reflexivity|]. split.
    { intros s Hs'. rewrite Eimg in Hs'.
      destruct (find_image_not_icon page _ s Hs') as [Hne Hicon].
      split; [exact Hne|]. split; [exact Hicon|].
      intros pre ext -> Hext. rewrite (isIconImage_svg pre ext Hext) in Hicon.
      discriminate. }
    split.
    { intros z Hz. rewrite Etm in Hz.
      destruct (find_parsed_found _ _ _ z Hz) as [sel [raw [_ [_ [Hp' _]]]]].
      exact (parseTimeFromText_gt0 _ z Hp'). }
    split.
    { intros z Hz. rewrite Esv in Hz.
      destruct (find_parsed_found _ _ _ z Hz) as [sel [raw [_ [_ [Hp' Hnz]]]]].
      pose proof (parseServingsFromText_nonneg _ z Hp'). lia. }
    rewrite isValidResult_gate_rule. unfold gate_rule.
    cbn [ingredients instructions]. tauto.
Qed.

(** A page whose heading is a no-break space gets the title "Recipe";
    a page with a name under the fourth selector gets that name,
    trimmed. *)
Lemma tryPatternMatching_candidate_witness :
  match tryPatternMatching no_steps nbsp_heading_page with
  | Some r => title r = Some "Recipe" /\ sourceUrl r = ""
              /\ SimpleScrapingService.isValidResult r = true
  | None => False
  end
  /\ match tryPatternMatching no_steps named_page with
     | Some r => title r = Some "Omelette"
                 /\ SimpleScrapingService.isValidResult r = false
     | None => False
     end.
Proof.
  split.
  - destruct (tryPatternMatching no_steps nbsp_heading_page) as [r|] eqn:E;
      [|vm_compute in E; discriminate E].
    destruct (proj2 (tryPatternMatching_candidate no_steps nbsp_heading_page) r E)
      as [_ [Hnone [_ [Hurl [_ [_ [_ [_ Hvalid]]]]]]]].
    split.
    { apply Hnone. intros sel H. vm_compute in H.
      repeat (destruct H as [<-|H]; [vm_compute; first [reflexivity|exact I]|]).
      contradiction. }
    split; [exact Hurl|]. apply (proj2 Hvalid). left.
    vm_compute in E. injection E as <-. discriminate.
  - destruct (tryPatternMatching no_steps named_page) as [r|] eqn:E;
      [|vm_compute in E; discriminate E].
    destruct (proj2 (tryPatternMatching_candidate no_steps named_page) r E)
      as [_ [_ [Hfound _]]].
    split.
    { apply (Hfound ["h1.recipe-title"; "h1.entry-title"; "h2.recipe-title"]
                    ".recipe-name"
                    (skipn 4 titleSelectors)
                    (nbsp ++ " Omelette ")%string ["Pancakes"]).
      - reflexivity.
      - intros s H. simpl in H.
        repeat (destruct H as [<-|H]; [vm_compute; first [reflexivity|exact I]|]).
        contradiction.
      - reflexivity.
      - vm_compute. discriminate. }
    vm_compute in E. injection E as <-. reflexivity.
Defined.

End SimplePatternProperties.

(** ** The site-specific layer *)

Module SiteSpecificProperties.
Import SiteSpecific ExtractionFacts.

(** X28.  The site-specific layer gives a candidate only for a url of the
    domain [allrecipes.com] whose page could be loaded, and then always
    does.  The candidate names "AllRecipes" as its source, which
    [formatRecipeData] keeps instead of the domain; its steps are the
    direction items with text, each under its position, so their
    numbers increase strictly; and [isValidRecipe] accepts it exactly
    when its title is not empty or it has both an ingredient and a
    step. *)
Theorem trySiteSpecificScraping_allrecipes_only
  (extractDomain : string -> string) (rendered : option (string -> list string))
  (url : string) :
  (trySiteSpecificScraping extractDomain rendered url <> None <->
   extractDomain url = "allrecipes.com" /\ rendered <> None)
  /\ (forall r,
        trySiteSpecificScraping extractDomain rendered url = Some r ->
        sourceUrl r = url
        /\ sourceName r = Some "AllRecipes"
        /\ r_sourceName (SimpleScrapingService.formatRecipeData extractDomain r url)
           = "AllRecipes"
        /\ (forall query, rendered = Some query ->
              forall st,
                In st (instructions r) <->
                exists k raw,
                  nth_error (query ".recipe-directions__list--item") k = Some raw
                  /\ trim raw <> ""
                  /\ st = {| number := Z.of_nat k + 1; step := trim raw |})
        /\ StronglySorted Z.lt (numbers (instructions r))
        /\ (RecipeScrapingService.isValidRecipe r = true <->
            (exists t, title r = Some t /\ t <> "")
            \/ (ingredients r <> [] /\ instructions r <> []))).
Proof.
  unfold trySiteSpecificScraping, scrapeFoodCom, scrapeEpicurious.
  destruct (String.eqb_spec (extractDomain url) "allrecipes.com") as [Hd|Hd].
  2:{ split.
      - split; [|intros [H _]; contradiction].
        destruct (String.eqb _ "food.com"); [intro H; contradiction|].
        destruct (String.eqb _ "epicurious.com"); intro H; contradiction.
      - intros r H. destruct (String.eqb _ "food.com"); [discriminate|].
        destruct (String.eqb _ "epicurious.com"); discriminate. }
  destruct rendered as [query|]; simpl.
  2:{ split; [split; [intro H; contradiction|intros [_ H]; contradiction]|].
      intros r H. discriminate. }
  split; [split; [intros _; split; [exact Hd|discriminate]|discriminate]|].
  intros r H. injection H as <-.
  cbn [sourceUrl sourceName instructions ingredients title
       SimpleScrapingService.formatRecipeData r_sourceName JsString.truthy].
  split; [reflexivity|]. split; [reflexivity|]. split; [reflexivity|]. split.
  { intros q Hq st. injection Hq as <-. unfold each.
    rewrite (each_from_in JsString.truthy _ (fun i raw => eq_refl)).
    split; intros [k [raw [H1 [H2 H3]]]]; exists k, raw; (split; [exact H1|]); split;
      try exact H3.
    - destruct (trim raw); [discriminate|discriminate].
    - destruct (trim raw); [contradiction|reflexivity]. }
  split.
  { unfold each. apply (each_from_sorted JsString.truthy _ (fun i raw => eq_refl)). }
  rewrite isValidRecipe_rule. unfold title_present.
  cbn [title ingredients instructions]. tauto.
Qed.

(** On an AllRecipes page the second direction item is the step 2,
    without the no-break space that ends it; another domain gives
    nothing. *)
Lemma trySiteSpecificScraping_allrecipes_only_witness :
  match trySiteSpecificScraping (fun _ => "allrecipes.com") (Some padded_directions)
                                "https://www.allrecipes.com/recipe/1" with
  | Some r => sourceName r = Some "AllRecipes"
              /\ In {| number := 2; step := "Mix well." |} (instructions r)
              /\ StronglySorted Z.lt (numbers (instructions r))
  | None => False
  end
  /\ trySiteSpecificScraping (fun _ => "food.com") (Some padded_directions)
                             "https://www.food.com/recipe/1" = None.
Proof.
  split.
  - destruct (trySiteSpecificScraping (fun _ => "allrecipes.com") (Some padded_directions)
                                      "https://www.allrecipes.com/recipe/1")
      as [r|] eqn:E; [|vm_compute in E; discriminate E].
    destruct (proj2 (trySiteSpecificScraping_allrecipes_only
                       (fun _ => "allrecipes.com") (Some padded_directions)
                       "https://www.allrecipes.com/recipe/1") r E)
      as [_ [Hname [_ [Hsteps [Hsorted _]]]]].
    split; [exact Hname|]. split; [|exact Hsorted].
    apply (proj2 (Hsteps padded_directions eq_refl _)).
    exists 1%nat, ("Mix well." ++ nbsp)%string.
    split; [reflexivity|]. split; [vm_compute; discriminate|vm_compute; reflexivity].
  - destruct (trySiteSpecificScraping (fun _ => "food.com") (Some padded_directions)
                                      "https://www.food.com/recipe/1") as [r|] eqn:E;
      [|reflexivity].
    exfalso.
    assert (H : trySiteSpecificScraping (fun _ => "food.com") (Some padded_directions)
                                        "https://www.food.com/recipe/1" <> None)
      by (rewrite E; discriminate).
    apply (proj1 (proj1 (trySiteSpecificScraping_allrecipes_only _ _ _))) in H.
    destruct H as [H _]. discriminate H.
Defined.

End SiteSpecificProperties.

(** ** The history of jobs *)

Module HistoryFacts.
Import ScrapingController JobHistory MoreMatcherFacts.

Lemma int_or_pos (field : option string) (fallback : Z) :
  (1 <= fallback)%Z -> (1 <= int_or field fallback)%Z.
Proof.
  intro H. unfold int_or. destruct field as [s|]; [|exact H].
  unfold parseInt. destruct (leading_digits s); [exact H|].
  pose proof (digits_value_nonneg s 0 (Z.le_refl 0)) as Hn.
  destruct (Z.eqb_spec (digits_value_from 0 s) 0); [exact H|lia].
Qed.

Lemma insert_desc_perm (j : ScrapedUrl) (l : list ScrapedUrl) :
  Permutation (insert_desc j l) (j :: l).
Proof.
  induction l as [|x l IH]; simpl; [apply Permutation_refl|].
  destruct (scrapedAt j <? scrapedAt x)%Z; [|apply Permutation_refl].
  apply perm_trans with (x :: j :: l); [apply perm_skip; exact IH|apply perm_swap].
Qed.

Lemma latest_first_perm (l : list ScrapedUrl) : Permutation (latest_first l) l.
Proof.
  induction l as [|x l IH]; simpl; [apply perm_nil|].
  apply perm_trans with (x :: latest_first l);
    [apply insert_desc_perm|apply perm_skip; exact IH].
Qed.

Lemma latest_first_length (l : list ScrapedUrl) :
  List.length (latest_first l) = List.length l.
Proof. apply Permutation_length, latest_first_perm. Qed.

Lemma insert_desc_sorted (j : ScrapedUrl) (l : list ScrapedUrl) :
  StronglySorted (fun a b => (scrapedAt b <= scrapedAt a)%Z) l ->
  StronglySorted (fun a b => (scrapedAt b <= scrapedAt a)%Z) (insert_desc j l).
Proof.
  induction l as [|x l IH]; intro H; simpl.
  - constructor; constructor.
  - inversion H as [|? ? Hs Hall]; subst.
    destruct (Z.ltb_spec (scrapedAt j) (scrapedAt x)) as [Hlt|Hge].
    + constructor; [apply IH; exact Hs|].
      eapply Permutation_Forall; [apply Permutation_sym, insert_desc_perm|].
      constructor; [lia|exact Hall].
    + constructor; [exact H|]. constructor; [exact Hge|].
      eapply Forall_impl; [|exact Hall]. intros a Ha. simpl in Ha. lia.
Qed.

Lemma latest_first_sorted (l : list ScrapedUrl) :
  StronglySorted (fun a b => (scrapedAt b <= scrapedAt a)%Z) (latest_first l).
Proof.
  induction l as [|x l IH]; simpl; [constructor|]. apply insert_desc_sorted. exact IH.
Qed.

Lemma sorted_skipn {A : Type} (R : A -> A -> Prop) (n : nat) :
  forall l, StronglySorted R l -> StronglySorted R (skipn n l).
Proof.
  induction n as [|n IH]; intros l H; [exact H|].
  destruct l as [|x l]; [exact H|]. simpl. apply IH.
  inversion H; assumption.
Qed.

Lemma sorted_firstn {A : Type} (R : A -> A -> Prop) (n : nat) :
  forall l, StronglySorted R l -> StronglySorted R (firstn n l).
Proof.
  induction n as [|n IH]; intros l H; [constructor|].
  destruct l as [|x l]; [constructor|]. simpl.
  inversion H as [|? ? Hs Hall]; subst. constructor; [apply IH; exact Hs|].
  apply Forall_forall. intros y Hy. rewrite Forall_forall in Hall. apply Hall.
  rewrite <- (firstn_skipn n l). apply in_or_app. left. exact Hy.
Qed.

Lemma firstn_plus {A : Type} (a b : nat) :
  forall l : list A, firstn (a + b) l = firstn a l ++ firstn b (skipn a l).
Proof.
  induction a as [|a IH]; intro l; [reflexivity|].
  destruct l as [|x l]; simpl; [destruct b; reflexivity|].
  rewrite IH. reflexivity.
Qed.

Lemma skipn_plus {A : Type} (a b : nat) :
  forall l : list A, skipn (a + b) l = skipn b (skipn a l).
Proof.
  induction a as [|a IH]; intro l; [reflexivity|].
  destruct l as [|x l]; simpl; [destruct b; reflexivity|]. apply IH.
Qed.

(** Cutting a list into [n] pieces of [size] elements and putting them
    together again gives its first [n * size] elements. *)
Lemma pages_concat {A : Type} (size : nat) :
  forall (n : nat) (l : list A),
    List.concat (map (fun p => firstn size (skipn (p * size) l)) (seq 0 n))
    = firstn (n * size) l.
Proof.
  induction n as [|n IH]; intro l; [reflexivity|].
  cbn [seq map List.concat]. rewrite <- seq_shift, map_map.
  cbn [Nat.mul skipn]. rewrite firstn_plus. f_equal.
  rewrite <- (IH (skipn size l)). f_equal. apply map_ext. intro p.
  cbn [Nat.mul]. rewrite skipn_plus. reflexivity.
Qed.

Lemma ceil_div_covers (count limit : Z) :
  (0 <= count)%Z -> (1 <= limit)%Z -> (count <= ceil_div count limit * limit)%Z.
Proof.
  intros Hc Hl. unfold ceil_div.
  pose proof (Z.mul_succ_div_gt (count + limit - 1) limit) as H.
  assert (Hpos : (0 < limit)%Z) by lia. specialize (H Hpos). nia.
Qed.

Lemma ceil_div_next (page count limit : Z) :
  (0 <= count)%Z -> (1 <= limit)%Z ->
  (page < ceil_div count limit <-> page * limit < count)%Z.
Proof.
  intros Hc Hl. unfold ceil_div.
  assert (Hpos : (0 < limit)%Z) by lia.
  pose proof (Z.mul_succ_div_gt (count + limit - 1) limit Hpos) as H1.
  pose proof (Z.mul_div_le (count + limit - 1) limit Hpos) as H2.
  split; intro H; nia.
Qed.

(** With dates that are all different, latest first is a strict order. *)
Lemma sorted_strict (l : list ScrapedUrl) :
  StronglySorted (fun a b => (scrapedAt b <= scrapedAt a)%Z) l ->
  NoDup (map scrapedAt l) ->
  StronglySorted (fun a b => (scrapedAt b < scrapedAt a)%Z) l.
Proof.
  induction 1 as [|a l Hs IH Hall]; intro Hnd; [constructor|].
  simpl in Hnd. inversion Hnd as [|? ? Hnotin Hnd']; subst.
  constructor; [apply IH; exact Hnd'|].
  apply Forall_forall. intros b Hb. rewrite Forall_forall in Hall.
  pose proof (Hall b Hb) as Hle. cbv beta in Hle.
  assert (Hne : scrapedAt b <> scrapedAt a).
  { intro E. apply Hnotin. rewrite <- E. apply in_map. exact Hb. }
  lia.
Qed.

(** Two lists with the same rows, both in a strict order, are equal. *)
Lemma strict_sorted_unique (l1 : list ScrapedUrl) :
  forall l2,
    StronglySorted (fun a b => (scrapedAt b < scrapedAt a)%Z) l1 ->
    StronglySorted (fun a b => (scrapedAt b < scrapedAt a)%Z) l2 ->
    Permutation l1 l2 -> l1 = l2.
Proof.
  induction l1 as [|a1 t1 IH]; intros l2 H1 H2 Hp.
  - apply Permutation_nil in Hp. symmetry. exact Hp.
  - destruct l2 as [|a2 t2]; [apply Permutation_sym, Permutation_nil in Hp; discriminate|].
    inversion H1 as [|? ? Hs1 Hall1]; subst. inversion H2 as [|? ? Hs2 Hall2]; subst.
    rewrite Forall_forall in Hall1, Hall2.
    assert (Ha : a1 = a2).
    { assert (Hin1 : In a1 (a2 :: t2))
        by (apply (Permutation_in a1 Hp); left; reflexivity).
      assert (Hin2 : In a2 (a1 :: t1))
        by (apply (Permutation_in a2 (Permutation_sym Hp)); left; reflexivity).
      destruct Hin1 as [E|Hin1]; [symmetry; exact E|].
      destruct Hin2 as [E|Hin2]; [exact E|].
      pose proof (Hall2 a1 Hin1) as Hlt1. pose proof (Hall1 a2 Hin2) as Hlt2.
      cbv beta in Hlt1, Hlt2. lia. }
    subst a2. f_equal. apply IH; [exact Hs1|exact Hs2|].
    apply Permutation_cons_inv with (a := a1). exact Hp.
Qed.

(** With dates that are all different, the order latest first is the
    only one: whatever list the store gives for [orderBy scrapedAt
    desc] is [latest_first]. *)
Lemma latest_first_unique (rows l : list ScrapedUrl) :
  NoDup (map scrapedAt rows) ->
  Permutation l rows ->
  StronglySorted (fun a b => (scrapedAt b <= scrapedAt a)%Z) l ->
  l = latest_first rows.
Proof.
  intros Hnd Hp Hs. apply strict_sorted_unique.
  - apply sorted_strict; [exact Hs|].
    apply (Permutation_NoDup (l := map scrapedAt rows)); [|exact Hnd].
    apply Permutation_map, Permutation_sym, Hp.
  - apply sorted_strict; [apply latest_first_sorted|].
    apply (Permutation_NoDup (l := map scrapedAt rows)); [|exact Hnd].
    apply Permutation_map, Permutation_sym, latest_first_perm.
  - apply perm_trans with rows; [exact Hp|apply Permutation_sym, latest_first_perm].
Qed.

End HistoryFacts.

Module HistoryProperties.
Import ScrapingController JobHistory MoreMatcherFacts HistoryFacts.

(** X29.  [getScrapingHistory] changes nothing.  Its page and its limit
    are at least 1 (an absent or zero parameter gives page 1 and limit
    20); the jobs it returns are jobs of the table that
    match the status filter, latest first, as many as are left after
    the earlier pages and at most [limit]; [hasNextPage] tells exactly
    whether jobs are left after this page and [hasPreviousPage] whether
    the page is after the first. *)
Theorem getScrapingHistory_page
  (pageField limitField statusField : option string) (w : World) :
  plain_number pageField -> plain_number limitField ->
  let answer := getScrapingHistory pageField limitField statusField w in
  let page := currentPage (pagination (fst answer)) in
  let limit := int_or limitField 20 in
  let count := totalCount (pagination (fst answer)) in
  snd answer = w
  /\ page = int_or pageField 1 /\ (1 <= page)%Z /\ (1 <= limit)%Z
  /\ (pageField = None \/ pageField = Some "0" -> page = 1%Z)
  /\ (limitField = None \/ limitField = Some "0" -> limit = 20%Z)
  /\ count = Z.of_nat (List.length (filter (matches statusField) (scrapedUrls (db w))))
  /\ Z.of_nat (List.length (jobs (fst answer)))
     = Z.min limit (Z.max 0 (count - (page - 1) * limit))
  /\ Forall (fun j => In j (scrapedUrls (db w)) /\ matches statusField j = true)
            (jobs (fst answer))
  /\ StronglySorted (fun a b => (scrapedAt b <= scrapedAt a)%Z) (jobs (fst answer))
  /\ (hasNextPage (pagination (fst answer)) = true <-> (page * limit < count)%Z)
  /\ (hasPreviousPage (pagination (fst answer)) = true <-> (1 < page)%Z).
Proof.
  intros _ _. cbv zeta. unfold getScrapingHistory.
  cbn [fst snd jobs pagination currentPage totalPages totalCount hasNextPage hasPreviousPage].
  pose proof (int_or_pos pageField 1 (Z.le_refl 1)) as Hp.
  assert (Hl : (1 <= int_or limitField 20)%Z) by (apply int_or_pos; lia).
  set (page := int_or pageField 1) in *. set (limit := int_or limitField 20) in *.
  set (rows := filter (matches statusField) (scrapedUrls (db w))).
  split; [reflexivity|]. split; [reflexivity|]. split; [exact Hp|]. split; [exact Hl|].
  split; [intros [->| ->]; reflexivity|]. split; [intros [->| ->]; reflexivity|].
  split; [reflexivity|]. split.
  { rewrite length_firstn, length_skipn, latest_first_length.
    assert (Hskip : (0 <= (page - 1) * limit)%Z) by nia.
    fold rows. remember ((page - 1) * limit)%Z as skip. lia. }
  split.
  { apply Forall_forall. intros j Hj.
    assert (Hin : In j rows).
    { apply (Permutation_in j (latest_first_perm rows)).
      rewrite <- (firstn_skipn (Z.to_nat ((page - 1) * limit)) (latest_first rows)).
      apply in_or_app. right.
      rewrite <- (firstn_skipn (Z.to_nat limit) (skipn _ (latest_first rows))).
      apply in_or_app. left. exact Hj. }
    unfold rows in Hin. apply filter_In in Hin. exact Hin. }
  split.
  { apply sorted_firstn, sorted_skipn, latest_first_sorted. }
  split.
  { rewrite Z.ltb_lt. apply ceil_div_next; lia. }
  apply Z.ltb_lt.
Qed.

Lemma getScrapingHistory_page_witness :
  let answer := getScrapingHistory (Some "2") (Some "2") None three_jobs_world in
  map id (jobs (fst answer)) = ["job0"]
  /\ hasNextPage (pagination (fst answer)) = false
  /\ (hasPreviousPage (pagination (fst answer)) = true <-> (1 < 2)%Z).
Proof.
  destruct (getScrapingHistory_page (Some "2") (Some "2") None three_jobs_world)
    as [_ [_ [_ [_ [_ [_ [_ [_ [_ [_ [_ H]]]]]]]]]]].
  - simpl. split; [reflexivity|lia].
  - simpl. split; [reflexivity|lia].
  - split; [reflexivity|]. split; [reflexivity|exact H].
Defined.

(** X30.  The pages of the history fit together when no two matching
    jobs have the same [scrapedAt], so that the order in which the
    store gives them is fixed: for a fixed limit and status filter, the
    jobs of the pages 1 to [totalPages], one after the other, are the
    jobs that match the filter, latest first; each matching job is on
    exactly one page. *)
Theorem getScrapingHistory_pages_cover
  (pages : nat -> option string) (limitField statusField : option string) (w : World) :
  plain_number limitField ->
  NoDup (map scrapedAt (filter (matches statusField) (scrapedUrls (db w)))) ->
  let n := Z.to_nat (totalPages (pagination
                       (fst (getScrapingHistory None limitField statusField w)))) in
  (forall p, (1 <= p <= n)%nat ->
             plain_number (pages p) /\ int_or (pages p) 1 = Z.of_nat p) ->
  let all_pages :=
    List.concat
      (map (fun p => jobs (fst (getScrapingHistory (pages p) limitField statusField w)))
           (seq 1 n)) in
  all_pages = latest_first (filter (matches statusField) (scrapedUrls (db w)))
  /\ Permutation all_pages (filter (matches statusField) (scrapedUrls (db w)))
  /\ StronglySorted (fun a b => (scrapedAt b < scrapedAt a)%Z) all_pages
  /\ (forall l,
        Permutation l (filter (matches statusField) (scrapedUrls (db w))) ->
        StronglySorted (fun a b => (scrapedAt b <= scrapedAt a)%Z) l ->
        l = all_pages).
Proof.
  intros _ Hdates n Hpages all_pages.
  assert (Hl : (1 <= int_or limitField 20)%Z) by (apply int_or_pos; lia).
  set (rows := filter (matches statusField) (scrapedUrls (db w))) in *.
  assert (Heq : all_pages = latest_first rows).
  { unfold all_pages.
    rewrite (map_ext_in _ (fun p => firstn (Z.to_nat (int_or limitField 20))
                                      (skipn ((p - 1) * Z.to_nat (int_or limitField 20))
                                             (latest_first rows)))).
    2:{ intros p Hp. apply in_seq in Hp. unfold getScrapingHistory. cbn [fst jobs].
        destruct (Hpages p) as [_ ->]; [lia|]. fold rows. f_equal. f_equal.
        rewrite Z2Nat.inj_mul by lia. f_equal. lia. }
    rewrite <- seq_shift, map_map.
    rewrite (map_ext _ (fun p => firstn (Z.to_nat (int_or limitField 20))
                                   (skipn (p * Z.to_nat (int_or limitField 20))
                                          (latest_first rows)))).
    2:{ intro p. cbn [Nat.sub]. rewrite Nat.sub_0_r. reflexivity. }
    rewrite pages_concat. apply firstn_all2.
    rewrite latest_first_length. unfold n, getScrapingHistory.
    cbn [fst pagination totalPages]. fold rows.
    pose proof (ceil_div_covers (Z.of_nat (List.length rows)) (int_or limitField 20)
                  (Zle_0_nat _) Hl) as Hc.
    assert (H0 : (0 <= ceil_div (Z.of_nat (List.length rows)) (int_or limitField 20))%Z).
    { unfold ceil_div. apply Z.div_pos; lia. }
    apply Nat2Z.inj_le. rewrite Nat2Z.inj_mul, !Z2Nat.id by lia. exact Hc. }
  split; [exact Heq|]. rewrite Heq. split; [apply latest_first_perm|]. split.
  - apply sorted_strict; [apply latest_first_sorted|].
    apply (Permutation_NoDup (l := map scrapedAt rows)); [|exact Hdates].
    apply Permutation_map, Permutation_sym, latest_first_perm.
  - intros l Hp Hs. apply latest_first_unique; assumption.
Qed.

Lemma getScrapingHistory_pages_cover_witness :
  map id
      (List.concat
         (map (fun p => jobs (fst (getScrapingHistory (page_field p) (Some "2") None
                                     three_jobs_world)))
              (seq 1 2)))
  = ["job1"; "job2"; "job0"].
Proof.
  destruct (getScrapingHistory_pages_cover page_field (Some "2") None three_jobs_world)
    as [H _].
  - simpl. split; [reflexivity|lia].
  - simpl. repeat (constructor; [simpl; intuition discriminate|]). constructor.
  - intros p Hp. change (1 <= p <= 2)%nat in Hp.
    assert (Hcases : p = 1%nat \/ p = 2%nat) by lia.
    destruct Hcases as [->| ->]; (split; [simpl; split; [reflexivity|lia]|reflexivity]).
  - change (seq 1 2) with
      (seq 1 (Z.to_nat (totalPages (pagination
                (fst (getScrapingHistory None (Some "2") None three_jobs_world)))))).
    rewrite H. reflexivity.
Defined.

End HistoryProperties.

(* ================================================================== *)
(** * Text outside ASCII *)

Module CodeUnitExamples.
Import SimplePatternMatching.
Local Open Scope string_scope.

(** Lengths count characters: the accented words have 8, 9 and 15 of
    them, so none passes a length test for more than 10, at least 10 or
    more than 15 characters. *)
Lemma accented_text_lengths :
  String.length suesses_oel = 8%nat
  /\ long_steps [suesses_oel] = []
  /\ String.length cafe_cafe = 9%nat
  /\ SimpleScrapingService.isRecipeDescription cafe_cafe = false
  /\ String.length rotir = 15%nat
  /\ instructions_of no_steps nbsp_heading_page ".instructions li" = []
  /\ Heuristics.looksLikeInstruction rotir = false.
Proof. vm_compute. repeat split. Qed.

(** The no-break space is white space: [trim] strips it, [\s] matches it
    between an amount and a unit, and a heading made of it is no
    title. *)
Lemma no_break_space_is_space :
  trim ("Mix well." ++ nbsp ++ nbsp) = "Mix well."
  /\ long_steps ["Mix well." ++ nbsp ++ nbsp] = []
  /\ parseIngredient ("1" ++ nbsp ++ "cup sugar")
     = {| p_name := "sugar"; p_amount := JsNumber.of_Z 1; p_unit := Some "cup" |}
  /\ exists r, tryPatternMatching no_steps nbsp_heading_page = Some r
               /\ title r = Some "Recipe"
               /\ instructions r = [].
Proof.
  repeat split; try (vm_compute; reflexivity).
  eexists. split; [vm_compute; reflexivity|]. split; reflexivity.
Qed.

(** In the rendered tier an item that is too short once its no-break
    spaces are trimmed does not make its selector the first that
    yields, and a heading of a no-break space is no title. *)
Lemma rendered_tier_no_break_space :
  option_map instructions (RecipeScrapingService.tryPatternMatching padded_query "" "")
  = Some [ {| number := 1; step := "Whisk the eggs with the sugar." |} ]
  /\ option_map title (Heuristics.tryIntelligentScraping nbsp_heading_texts "" "")
     = Some (Some "Recipe").
Proof. split; vm_compute; reflexivity. Qed.

(** [toLowerCase] maps the accented capitals. *)
Lemma toLowerCase_accented :
  toLowerCase (of_codes [214; 108]%nat) = of_codes [246; 108]%nat.
Proof. vm_compute. reflexivity. Qed.

End CodeUnitExamples.
